(** * fetch_latest_commits.py

    A shallow embedding of [scripts/fetch_latest_commits.py] and the
    properties of its URL builder, its retrying fetcher, its persistence
    functions and its run driver.

    Python values are modelled as follows.
    - [str] is [string]; an f-string is a concatenation.
    - [int] is [Z] (counts that only grow from zero are [nat]); the float
      [BACKOFF_FACTOR ** attempt] is the exact rational power in [Q], and
      [time.sleep] is a recorded event. The power is the float itself up to
      attempt 33 ([exact_as_float]), and [time.sleep] takes it up to attempt
      56 ([time_sleep_accepts]); beyond, the code raises [OverflowError],
      which the model does not: what is stated about delays and about runs
      that return is stated within these bounds.
    - [None]-able values are [option]s; the triple returned by [fetch_url]
      is a triple of options.
    - A dict or list handed to [json.dumps] is a [Json] value.
    - [pathlib.Path] is the list of its [parts] (POSIX flavour).
    - A computation takes a world and returns a value or a raised exception
      together with the new world. The world holds the file system (a finite
      map from paths to directories and files), the numbers of requests sent
      and of clock readings made so far, and the trace of requests, sleeps
      and printed lines.
    - The server ([session.get]), the clock ([datetime.now]) and the
      serialiser ([json.dumps]) are parameters: the server answers the n-th
      request of the run, the clock answers the n-th reading.
    - The file system holds directories and regular files, without links,
      permissions or quota, and a path is looked up by its spelling: what is
      stated about runs that write is stated for paths of plain names
      ([plain_name]: no [..], no name longer than [NAME_MAX]).
    - The exceptions are the four [OSError]s that the file-system calls of
      the model raise, and [SystemExit]; a call of the session returns a
      response or raises [RequestException]. An encoder that fails raises
      something else ([UnicodeEncodeError]): what is stated about runs that
      return is stated for ASCII strings ([ascii_only]).
    - [argparse] is not modelled: [main] starts from the parsed arguments
      and the environment. *)

From Stdlib Require Import ZArith QArith Qpower Lia List Ascii String Sorted.
From stdpp Require Import gmap strings list fin_maps pretty.
From Equations Require Import Equations.

(** ** Python string helpers *)

Module PyStr.

(** [c in chars] for a character [c] and a string [chars]. *)
Fixpoint mem (c : ascii) (chars : string) : bool :=
  match chars with
  | EmptyString => false
  | String d chars' => Ascii.eqb c d || mem c chars'
  end.

(** [s.rstrip(chars)]: drop the longest suffix made of characters of
    [chars]. *)
Fixpoint rstrip (chars : string) (s : string) : string :=
  match s with
  | EmptyString => EmptyString
  | String a s' =>
      match rstrip chars s' with
      | EmptyString => if mem a chars then EmptyString else String a EmptyString
      | r => String a r
      end
  end.

(** [c * n] for a one-character string. *)
Fixpoint replicate (n : nat) (c : ascii) : string :=
  match n with
  | O => EmptyString
  | S n' => String c (replicate n' c)
  end.

(** The last character of a string, if any. *)
Fixpoint last (s : string) : option ascii :=
  match s with
  | EmptyString => None
  | String a EmptyString => Some a
  | String _ s' => last s'
  end.

(** [s.endswith(c)] for a single character. *)
Definition endswith (s : string) (c : ascii) : bool :=
  match last s with
  | Some a => Ascii.eqb a c
  | None => false
  end.

(** [s.startswith(p)]. *)
Fixpoint startswith (s p : string) : bool :=
  match p, s with
  | EmptyString, _ => true
  | String _ _, EmptyString => false
  | String b p', String a s' => Ascii.eqb a b && startswith s' p'
  end.

(** [s.split(sep)] for a single-character separator: the pieces between
    the occurrences of [sep], empty pieces included. *)
Fixpoint split (sep : ascii) (s : string) : list string :=
  match s with
  | EmptyString => [EmptyString]
  | String a s' =>
      if Ascii.eqb a sep then EmptyString :: split sep s'
      else match split sep s' with
           | [] => [String a EmptyString]
           | piece :: rest => String a piece :: rest
           end
  end.

(** [sep.join(pieces)]. *)
Fixpoint join (sep : string) (pieces : list string) : string :=
  match pieces with
  | [] => EmptyString
  | [x] => x
  | x :: rest => x +:+ sep +:+ join sep rest
  end.

End PyStr.

(** ** Module constants *)

Definition DEFAULT_RETRIES : Z := 3.
Definition BACKOFF_FACTOR : Q := 3 # 2.
Definition TIMEOUT : Z := 30.

(** ** URL builder *)

Definition build_target_url (base_url build platform : string) : string :=
  let base := PyStr.rstrip "/" base_url in
  base +:+ "/" +:+ build +:+ "/" +:+ platform +:+ "/latest_commits.txt".

(** ** pathlib.PurePosixPath

    A path is the list of its [parts]: for an absolute path the first part
    is the root, ["/"] or ["//"]. *)

Module Path.

(** Exactly two leading slashes are kept as the root ["//"]; one, or three
    and more, make the root ["/"]. *)
Definition root_of (s : string) : string :=
  if PyStr.startswith s "//" && negb (PyStr.startswith s "///") then "//"
  else if PyStr.startswith s "/" then "/"
  else "".

Definition is_anchor (c : string) : bool :=
  String.eqb c "/" || String.eqb c "//".

(** Empty components and ["."] are dropped when a path is parsed. *)
Definition is_name (c : string) : bool :=
  negb (String.eqb c "") && negb (String.eqb c ".").

(** [Path(s).parts] *)
Definition of_str (s : string) : list string :=
  (if String.eqb (root_of s) "" then [] else [root_of s])
    ++ List.filter is_name (PyStr.split "/" s).

Definition is_absolute (p : list string) : bool :=
  match p with
  | c :: _ => is_anchor c
  | [] => false
  end.

(** [p / s]: an absolute right operand replaces the left one. *)
Definition joinpath (p : list string) (s : string) : list string :=
  let q := of_str s in
  if is_absolute q then q else p ++ q.

(** [p.parent]: the root and the empty path are their own parents. *)
Definition parent (p : list string) : list string :=
  match p with
  | [] => []
  | [c] => if is_anchor c then [c] else []
  | _ => removelast p
  end.

(** The path and its ancestors, shortest first: [[]], [[c1]], [[c1; c2]],
    ... up to [p] itself. *)
Fixpoint inits (p : list string) : list (list string) :=
  [] :: match p with
        | [] => []
        | c :: p' => List.map (cons c) (inits p')
        end.

(** [str(p)] *)
Definition to_str (p : list string) : string :=
  match p with
  | [] => "."
  | c :: rest =>
      if is_anchor c then c +:+ PyStr.join "/" rest else PyStr.join "/" p
  end.

End Path.

Notation "p // s" := (Path.joinpath p s) (at level 40, left associativity).

(** ** The world *)

(** A file-system entry. The file system is a finite map from paths to
    entries; the current directory (the empty path) and the roots are
    directories that always exist. *)
Inductive node : Type :=
| Dir
| File (content : string).

(** The exceptions the program can meet. [SystemExit] is what [sys.exit]
    raises; the others are the [OSError]s of the file-system calls. *)
Inductive exn : Type :=
| FileNotFoundError
| FileExistsError
| NotADirectoryError
| IsADirectoryError
| SystemExit (code : Z).

Definition is_OSError (e : exn) : bool :=
  match e with
  | SystemExit _ => false
  | _ => true
  end.

Inductive result (A : Type) : Type :=
| Ok (a : A)
| Raise (e : exn).
Arguments Ok {A} a.
Arguments Raise {A} e.

(** The arguments of [session.get]. *)
Record Request : Type := mkRequest {
  req_url : string;
  req_auth : option (string * string);
  req_headers : list (string * string);
  req_timeout : Z
}.

(** What [session.get] does: it returns a response or raises
    [requests.exceptions.RequestException]. *)
Inductive Reply : Type :=
| Response (status_code : Z) (text : string) (headers : list (string * string))
| RequestException.

Inductive stream : Type := Stdout | Stderr.

(** Observable events, oldest first in a trace. *)
Inductive Event : Type :=
| EvGet (req : Request)
| EvSleep (seconds : Q)
| EvPrint (to : stream) (line : string).

Record World : Type := mkWorld {
  fs : gmap (list string) node;
  requests : nat;
  clock_reads : nat;
  trace : list Event
}.

Definition set_fs (f : gmap (list string) node -> gmap (list string) node)
    (w : World) : World :=
  mkWorld (f (fs w)) (requests w) (clock_reads w) (trace w).

Definition add_event (e : Event) (w : World) : World :=
  mkWorld (fs w) (requests w) (clock_reads w) (trace w ++ [e]).

(** ** Computations: state and exceptions *)

Definition M (A : Type) : Type := World -> result A * World.

Definition ret {A : Type} (a : A) : M A := fun w => (Ok a, w).

Definition raise {A : Type} (e : exn) : M A := fun w => (Raise e, w).

Definition bind {A B : Type} (c : M A) (k : A -> M B) : M B :=
  fun w =>
    match c w with
    | (Ok a, w') => k a w'
    | (Raise e, w') => (Raise e, w')
    end.

Declare Scope py_scope.
Delimit Scope py_scope with py.
Notation "x <- c ;; k" := (bind c (fun x => k))
  (at level 100, c at next level, right associativity) : py_scope.
Notation "c ;; k" := (bind c (fun _ => k))
  (at level 100, right associativity) : py_scope.
Local Open Scope py_scope.

(** [for x in xs: st = body x st] *)
Fixpoint for_each {A S : Type} (xs : list A) (body : A -> S -> M S) (st : S)
    : M S :=
  match xs with
  | [] => ret st
  | x :: xs' => st' <- body x st ;; for_each xs' body st'
  end.

Definition print (to : stream) (line : string) : M unit :=
  fun w => (Ok tt, add_event (EvPrint to line) w).

Definition time_sleep (seconds : Q) : M unit :=
  fun w => (Ok tt, add_event (EvSleep seconds) w).

(** [session.get(...)]: the session answers the n-th request of the run. *)
Definition session_get (session : nat -> Request -> Reply) (req : Request)
    : M Reply :=
  fun w =>
    (Ok (session (requests w) req),
     mkWorld (fs w) (S (requests w)) (clock_reads w) (trace w ++ [EvGet req])).

(** [sys.exit(code)] *)
Definition sys_exit (code : Z) : M unit := raise (SystemExit code).

(** ** File-system calls *)

(** [os.stat]: the current directory and the roots always exist. *)
Definition stat (w : World) (p : list string) : option node :=
  if bool_decide (Path.parent p = p) then Some Dir else fs w !! p.

Definition is_dir (w : World) (p : list string) : bool :=
  match stat w p with
  | Some Dir => true
  | _ => false
  end.

(** [os.mkdir(p)]: the parent must be a directory and [p] must not exist. *)
Definition os_mkdir (p : list string) : M unit :=
  fun w =>
    match stat w (Path.parent p) with
    | None => (Raise FileNotFoundError, w)
    | Some (File _) => (Raise NotADirectoryError, w)
    | Some Dir =>
        match stat w p with
        | Some _ => (Raise FileExistsError, w)
        | None => (Ok tt, set_fs (insert p Dir) w)
        end
    end.

(** The [try: os.mkdir(self) except FileNotFoundError: ... except OSError:
    ...] of [Path.mkdir]; [on_missing] is the first handler. *)
Definition try_mkdir (exist_ok : bool) (p : list string) (on_missing : M unit)
    : M unit :=
  fun w =>
    match os_mkdir p w with
    | (Ok tt, w') => (Ok tt, w')
    | (Raise FileNotFoundError, w') => on_missing w'
    | (Raise e, w') =>
        if is_OSError e && (negb exist_ok || negb (is_dir w' p))
        then (Raise e, w')
        else if is_OSError e then (Ok tt, w') else (Raise e, w')
    end.

(** [p.mkdir(parents=False, exist_ok=exist_ok)] *)
Definition Path_mkdir (exist_ok : bool) (p : list string) : M unit :=
  try_mkdir exist_ok p (raise FileNotFoundError).

Definition inspect {A : Type} (a : A) : {b : A | a = b} := exist _ a eq_refl.

(** [p.mkdir(parents=True, exist_ok=exist_ok)]: when the parent is missing
    and [p] is not its own parent, the parent is made first (with
    [parents=True, exist_ok=True]) and then [p] (with [parents=False]). *)
Equations? Path_mkdir_parents (exist_ok : bool) (p : list string) (w : World)
  : result unit * World by wf (length p) lt :=
Path_mkdir_parents exist_ok p w
    with inspect (bool_decide (Path.parent p = p)) => {
  | exist _ true _ => try_mkdir exist_ok p (raise FileNotFoundError) w;
  | exist _ false Hp =>
      try_mkdir exist_ok p
        ((fun w' => Path_mkdir_parents true (Path.parent p) w') ;;
         Path_mkdir exist_ok p) w }.
Proof.
  apply bool_decide_eq_false in Hp.
  destruct p as [|c [|d p']]; simpl in *.
  - congruence.
  - destruct (Path.is_anchor c); [congruence | simpl; lia].
  - assert (Hl : length (removelast (d :: p')) = length p').
    { clear. revert d. induction p' as [|e p' IH]; intros d; simpl; [reflexivity |].
      f_equal. apply IH. }
    simpl in Hl. destruct p'; simpl in *; lia.
Qed.

(** [p.write_text(data, encoding="utf-8")]: opens [p] for writing, which
    needs an existing parent directory and [p] not to be a directory, and
    replaces the content. *)
Definition Path_write_text (p : list string) (data : string) : M unit :=
  fun w =>
    match stat w (Path.parent p) with
    | None => (Raise FileNotFoundError, w)
    | Some (File _) => (Raise NotADirectoryError, w)
    | Some Dir =>
        match stat w p with
        | Some Dir => (Raise IsADirectoryError, w)
        | _ => (Ok tt, set_fs (insert p (File data)) w)
        end
    end.

(** ** datetime *)

(** [timedelta(hours=h, minutes=m)], in seconds. *)
Definition timedelta (hours minutes : Z) : Z := (hours * 3600 + minutes * 60)%Z.

(** [timezone(offset)] is its offset. *)
Definition timezone (offset : Z) : Z := offset.

(** An aware [datetime]: civil fields and the offset of its zone. *)
Record datetime : Type := mkDatetime {
  year : N;
  month : N;
  day : N;
  hour : N;
  minute : N;
  second : N;
  microsecond : N;
  utcoffset : Z
}.

(** ["%0<width>d" % n] for a natural number. *)
Definition fmt_d (width : nat) (n : N) : string :=
  let s := pretty n in
  PyStr.replicate (width - String.length s) "0" +:+ s.

(** The ["+HH:MM"] (or ["+HH:MM:SS"]) suffix of [isoformat]. *)
Definition format_offset (off : Z) : string :=
  let sign := if (off <? 0)%Z then "-" else "+" in
  let a := Z.to_N (Z.abs off) in
  let hh := (a / 3600)%N in
  let mm := ((a mod 3600) / 60)%N in
  let ss := (a mod 60)%N in
  sign +:+ fmt_d 2 hh +:+ ":" +:+ fmt_d 2 mm
    +:+ (if (ss =? 0)%N then "" else ":" +:+ fmt_d 2 ss).

(** The date and time part of [isoformat], without the offset. *)
Definition isoformat_local (dt : datetime) : string :=
  fmt_d 4 (year dt) +:+ "-" +:+ fmt_d 2 (month dt) +:+ "-" +:+ fmt_d 2 (day dt)
    +:+ "T" +:+ fmt_d 2 (hour dt) +:+ ":" +:+ fmt_d 2 (minute dt)
    +:+ ":" +:+ fmt_d 2 (second dt)
    +:+ (if (microsecond dt =? 0)%N then "" else "." +:+ fmt_d 6 (microsecond dt)).

(** [dt.isoformat()] *)
Definition isoformat (dt : datetime) : string :=
  isoformat_local dt +:+ format_offset (utcoffset dt).

(** [datetime.now(tz)]: the clock gives the civil time in the zone asked
    for, at the n-th reading of the run. *)
Definition datetime_now (clock : nat -> Z -> datetime) (tz : Z) : M datetime :=
  fun w =>
    let dt := clock (clock_reads w) tz in
    (Ok (mkDatetime (year dt) (month dt) (day dt) (hour dt) (minute dt)
           (second dt) (microsecond dt) tz),
     mkWorld (fs w) (requests w) (S (clock_reads w)) (trace w)).

(** ** JSON values: the dicts and lists the program serialises *)

Unset Elimination Schemes.
Inductive Json : Type :=
| JStr (s : string)
| JObj (fields : list (string * Json))
| JArr (items : list Json).
Set Elimination Schemes.

(** ** Persistence *)

Definition write_file (path : list string) (content : string) : M unit :=
  Path_mkdir_parents true (Path.parent path) ;;
  Path_write_text path content.

Section Persistence.

(** The clock and [json.dumps(value, indent=n)] are given from outside. *)
Context (clock : nat -> Z -> datetime).
Context (json_dumps : Json -> Z -> string).

Definition write_meta (path : list string) (build platform source_url : string)
    : M unit :=
  now <- datetime_now clock (timezone (timedelta 5 30)) ;;
  let meta :=
    JObj [("build", JStr build);
          ("platform", JStr platform);
          ("fetched_at", JStr (isoformat now));
          ("source_url", JStr source_url)] in
  let meta_path := Path.parent path // "meta.json" in
  Path_write_text meta_path (json_dumps meta 2).

End Persistence.

(** ** The fetcher *)

(** [status in (401, 403)] *)
Definition in_401_403 (status : Z) : bool :=
  (status =? 401)%Z || (status =? 403)%Z.

(** The loop of [fetch_url], entered with the current value of [attempt].
    Each turn either returns or increments [attempt], so [retries - attempt]
    decreases. *)
Equations? fetch_url_loop (session : nat -> Request -> Reply) (url : string)
    (auth : option (string * string)) (headers : list (string * string))
    (retries timeout : Z) (attempt : Z) (w : World)
  : result (option string * option Z * option (list (string * string))) * World
  by wf (Z.to_nat (retries - attempt)) lt :=
fetch_url_loop session url auth headers retries timeout attempt w
    with inspect (attempt <? retries)%Z => {
  | exist _ true Hlt =>
      (reply <- session_get session (mkRequest url auth headers timeout) ;;
       match reply with
       | Response status_code text resp_headers =>
           if (status_code =? 200)%Z then
             ret (Some text, Some status_code, Some resp_headers)
           else if in_401_403 status_code then
             ret (None, Some status_code, Some resp_headers)
           else
             let attempt := (attempt + 1)%Z in
             let sleep := Qpower BACKOFF_FACTOR attempt in
             time_sleep sleep ;;
             (fun w' =>
                fetch_url_loop session url auth headers retries timeout attempt w')
       | RequestException =>
           let attempt := (attempt + 1)%Z in
           let sleep := Qpower BACKOFF_FACTOR attempt in
           time_sleep sleep ;;
           (fun w' =>
              fetch_url_loop session url auth headers retries timeout attempt w')
       end) w;
  | exist _ false _ => ret (None, None, None) w }.
Proof.
  all: apply Z.ltb_lt in Hlt; lia.
Qed.

Definition fetch_url (session : nat -> Request -> Reply) (url : string)
    (auth : option (string * string)) (headers : list (string * string))
    (retries timeout : Z)
  : M (option string * option Z * option (list (string * string))) :=
  let attempt := 0%Z in
  fetch_url_loop session url auth headers retries timeout attempt.

(** ** The driver *)

(** The parsed command line. [builds] and [platforms] are [nargs="+"]. *)
Record Args : Type := mkArgs {
  base_url : string;
  builds : list string;
  platforms : list string;
  out : string;
  user : option string;
  password : option string;
  retries : Z
}.

(** Truth value of an optional string: [None] and [""] are false. *)
Definition truthy (o : option string) : bool :=
  match o with
  | Some s => negb (String.eqb s "")
  | None => false
  end.

Definition newline : string := String (ascii_of_nat 10) "".

Section Driver.

Context (requests_Session : nat -> Request -> Reply).
Context (clock : nat -> Z -> datetime).
Context (json_dumps : Json -> Z -> string).

(** The body of the inner loop of [main], for one build and platform. The
    state is [(errors, success_count)]. *)
Definition main_job (args : Args) (auth : option (string * string))
    (headers : list (string * string)) (base_url : string)
    (out_root : list string) (build plat : string) (st : list Json * nat)
    : M (list Json * nat) :=
  let '(errors, success_count) := st in
  let target_url := build_target_url base_url build plat in
  let local_path := out_root // build // plat // "latest_commits.txt" in
  print Stdout ("Fetching: " +:+ target_url +:+ " -> " +:+ Path.to_str local_path) ;;
  r <- fetch_url requests_Session target_url auth headers (retries args) TIMEOUT ;;
  let '(content, status, resp_headers) := r in
  match content with
  | None =>
      if match status with Some s => in_401_403 s | None => false end then
        let msg := "AUTH ERROR "
                   +:+ match status with Some s => pretty s | None => "None" end
                   +:+ " fetching " +:+ target_url in
        print Stderr msg ;;
        ret (errors ++ [JObj [("build", JStr build); ("platform", JStr plat);
                              ("url", JStr target_url); ("error", JStr msg)]],
             success_count)
      else
        let msg := "FAILED to fetch " +:+ target_url +:+ " after "
                   +:+ pretty (retries args) +:+ " attempts" in
        print Stderr msg ;;
        ret (errors ++ [JObj [("build", JStr build); ("platform", JStr plat);
                              ("url", JStr target_url); ("error", JStr msg)]],
             success_count)
  | Some content =>
      write_file local_path content ;;
      write_meta clock json_dumps local_path build plat target_url ;;
      print Stdout ("Saved " +:+ Path.to_str local_path +:+ " ("
                    +:+ pretty (String.length content) +:+ " bytes)") ;;
      ret (errors, S success_count)
  end.

(** The two nested loops of [main], from [errors = []] and
    [success_count = 0]. *)
Definition main_loop (args : Args) (auth : option (string * string))
    (headers : list (string * string)) (base_url : string)
    (out_root : list string) : M (list Json * nat) :=
  for_each (builds args) (fun build =>
    for_each (platforms args) (fun plat =>
      main_job args auth headers base_url out_root build plat))
  ([], 0%nat).

Definition main (args : Args) (environ : gmap string string) : M unit :=
  let token := environ !! "ARTIFACTORY_TOKEN" in
  let use_token := truthy token in
  (if negb use_token && (negb (truthy (user args)) || negb (truthy (password args)))
   then print Stderr "Warning: No ARTIFACTORY_TOKEN found. Provide --user/--password for Basic auth or set ARTIFACTORY_TOKEN env var."
   else ret tt) ;;
  let session := requests_Session in
  let headers :=
    if use_token
    then [("Authorization", "Bearer " +:+ default "" token)]
    else [] in
  let auth :=
    if use_token then None
    else if truthy (user args) && truthy (password args)
         then Some (default "" (user args), default "" (password args))
         else None in
  let base_url := PyStr.rstrip "/" (base_url args) in
  let out_root := Path.of_str (out args) in
  st <- main_loop args auth headers base_url out_root ;;
  let '(errors, success_count) := st in
  print Stdout (newline +:+ "Completed. Successful files: " +:+ pretty success_count
                +:+ ". Errors: " +:+ pretty (length errors)) ;;
  if negb (bool_decide (errors = [])) then
    let err_path := out_root // "fetch_errors.json" in
    Path_write_text err_path (json_dumps (JArr errors) 2) ;;
    print Stderr ("Errors written to " +:+ Path.to_str err_path) ;;
    sys_exit 2
  else
    sys_exit 0.

End Driver.

(** The exit status of the process: the code of [SystemExit], 1 for any
    other uncaught exception, 0 when the program falls off its end. *)
Definition exit_status (r : result unit) : Z :=
  match r with
  | Ok _ => 0
  | Raise (SystemExit code) => code
  | Raise _ => 1
  end.

(** ** Observations used to state the properties *)

(** The requests sent and the sleeps taken, in a piece of trace. *)
Definition gets_of (tr : list Event) : list Request :=
  flat_map (fun e => match e with EvGet req => [req] | _ => [] end) tr.

Definition sleeps_of (tr : list Event) : list Q :=
  flat_map (fun e => match e with EvSleep s => [s] | _ => [] end) tr.

(** The message and the record that a job without content leaves in the
    error list. *)
Definition error_message (retries : Z) (target_url : string)
    (status : option Z) : string :=
  match status with
  | Some s =>
      if in_401_403 s
      then "AUTH ERROR " +:+ pretty s +:+ " fetching " +:+ target_url
      else "FAILED to fetch " +:+ target_url +:+ " after " +:+ pretty retries
           +:+ " attempts"
  | None =>
      "FAILED to fetch " +:+ target_url +:+ " after " +:+ pretty retries
      +:+ " attempts"
  end.

Definition error_record (retries : Z) (base_url build plat : string)
    (status : option Z) : Json :=
  JObj [("build", JStr build); ("platform", JStr plat);
        ("url", JStr (build_target_url base_url build plat));
        ("error", JStr (error_message retries
                          (build_target_url base_url build plat) status))].

(** The record that [meta.json] holds. *)
Definition meta_record (build plat fetched_at source_url : string) : Json :=
  JObj [("build", JStr build); ("platform", JStr plat);
        ("fetched_at", JStr fetched_at); ("source_url", JStr source_url)].


(** Where a job writes, what it prints first and the world its fetch
    starts from. *)
Definition job_dir (out_root : list string) (build plat : string) : list string :=
  out_root // build // plat.

Definition job_local_path (out_root : list string) (build plat : string)
    : list string :=
  out_root // build // plat // "latest_commits.txt".

Definition job_meta_path (out_root : list string) (build plat : string)
    : list string :=
  Path.parent (job_local_path out_root build plat) // "meta.json".

Definition job_announce (base_url : string) (out_root : list string)
    (build plat : string) : Event :=
  EvPrint Stdout ("Fetching: " +:+ build_target_url base_url build plat
                  +:+ " -> " +:+ Path.to_str (job_local_path out_root build plat)).

Definition job_fetch (session : nat -> Request -> Reply) (args : Args)
    (auth : option (string * string)) (headers : list (string * string))
    (base_url : string) (out_root : list string) (build plat : string)
  : M (option string * option Z * option (list (string * string))) :=
  fun w =>
    fetch_url session (build_target_url base_url build plat) auth headers
      (retries args) TIMEOUT (add_event (job_announce base_url out_root build plat) w).

Definition job_saved (out_root : list string) (build plat content : string)
    : Event :=
  EvPrint Stdout ("Saved " +:+ Path.to_str (job_local_path out_root build plat)
                  +:+ " (" +:+ pretty (String.length content) +:+ " bytes)").

(** The jobs of a run, in the order of the two loops: builds outside,
    platforms inside. *)
Definition jobs_of (args : Args) : list (string * string) :=
  list_prod (builds args) (platforms args).

(** The log of a run of the loop body over [jobs]: each job the loop gets
    to, with what its fetch returns. The log stops after a job that raises. *)
Fixpoint job_log (session : nat -> Request -> Reply)
    (clock : nat -> Z -> datetime) (json_dumps : Json -> Z -> string)
    (args : Args) (auth : option (string * string))
    (headers : list (string * string)) (base_url : string)
    (out_root : list string) (jobs : list (string * string))
    (st : list Json * nat) (w : World)
  : list ((string * string)
          * result (option string * option Z * option (list (string * string)))) :=
  match jobs with
  | [] => []
  | (build, plat) :: rest =>
      ((build, plat),
       fst (job_fetch session args auth headers base_url out_root build plat w))
      :: match main_job session clock json_dumps args auth headers base_url
                 out_root build plat st w with
         | (Ok st', w') =>
             job_log session clock json_dumps args auth headers base_url
               out_root rest st' w'
         | (Raise _, _) => []
         end
  end.

(** A logged job reached success when its fetch brought content. *)
Definition reached_success
    (e : (string * string)
         * result (option string * option Z * option (list (string * string))))
    : bool :=
  match e with
  | (_, Ok (Some _, _, _)) => true
  | _ => false
  end.

(** The error records that a logged job accounts for: one when its fetch
    brought no content, none otherwise. *)
Definition records_of (retries : Z) (base_url : string)
    (e : (string * string)
         * result (option string * option Z * option (list (string * string))))
    : list Json :=
  match e with
  | ((build, plat), Ok (None, status, _)) =>
      [error_record retries base_url build plat status]
  | _ => []
  end.

(** No regular file stands where [p] or one of its ancestors should be. *)
Definition no_file_on_the_way (w : World) (p : list string) : bool :=
  forallb (fun q => match stat w q with Some (File _) => false | _ => true end)
    (Path.inits p).

(** Nothing in the file system stands in the way of persisting to [file]:
    no regular file in place of one of its directories, and no directory in
    place of [file] or of its sibling [meta.json]. *)
Definition persist_clear (w : World) (file : list string) : bool :=
  no_file_on_the_way w (Path.parent file)
  && negb (is_dir w file)
  && negb (is_dir w (Path.parent file // "meta.json")).

(** The three shapes of the triple that [fetch_url] returns: success with
    status 200, failure with status 401 or 403, failure with no status. *)
Definition result_shape
    (r : option string * option Z * option (list (string * string))) : Prop :=
  match r with
  | (Some _, Some s, Some _) => s = 200%Z
  | (None, Some s, Some _) => in_401_403 s = true
  | (None, None, None) => True
  | _ => False
  end.

(** The limits of the file system (Linux): the bytes of a name and the
    bytes of a path, its final NUL included. *)
Definition NAME_MAX : nat := 255.
Definition PATH_MAX : nat := 4096.

(** A string of ASCII characters: one that the encoding of the terminal,
    that of the file names and that of the header and the credentials of a
    request (Latin-1) all take. *)
Definition ascii_only (s : string) : bool :=
  forallb (fun c => nat_of_ascii c <? 128) (list_ascii_of_string s).

(** A plain name: a string that is one path component, that is neither a
    root nor [".."], that holds no NUL, that is no longer than a name may
    be and that is made of ASCII characters. The empty string, ["."] and a
    string with a slash are not one component. *)
Definition plain_name (s : string) : bool :=
  bool_decide (Path.of_str s = [s]) && negb (Path.is_anchor s)
  && negb (String.eqb s "..") && negb (PyStr.mem "000" s)
  && (String.length s <=? NAME_MAX) && ascii_only s.

(** Credentials that the libraries can encode: the user and the password
    of basic authentication and the values of the header. With others,
    [session.get] raises [UnicodeEncodeError], which is no
    [RequestException]. *)
Definition credentials_encode (auth : option (string * string))
    (headers : list (string * string)) : bool :=
  match auth with
  | Some (u, p) => ascii_only u && ascii_only p
  | None => true
  end
  && forallb (fun h => ascii_only (snd h)) headers.

(** A path made of plain names, below its root if it has one. *)
Definition plain_path (p : list string) : bool :=
  match p with
  | [] => true
  | c :: rest => (Path.is_anchor c || plain_name c) && forallb plain_name rest
  end.

(** Nothing stands in the way of a job: no regular file where one of its
    directories goes, no directory where one of its two files goes, and its
    longest path is one that the file system takes. *)
Definition job_clear (out_root : list string) (w : World)
    (job : string * string) : bool :=
  persist_clear w (job_local_path out_root (fst job) (snd job))
  && (String.length (Path.to_str (job_local_path out_root (fst job) (snd job)))
      <? PATH_MAX).

(** Nothing stands in the way of the jobs of a run, under an output root
    made of plain names. Files that are in the way of no job, such as the
    report of an earlier run, may be there. *)
Definition jobs_clear (out_root : list string) (jobs : list (string * string))
    (w : World) : Prop :=
  plain_path out_root = true /\
  Forall (fun job => job_clear out_root w job = true) jobs.

(** The limits of the delays. [time.sleep] takes at most [2 ^ 63]
    nanoseconds and raises [OverflowError] beyond; and the float
    [BACKOFF_FACTOR ** k], which is [3 ^ k / 2 ^ k], is exact as long as
    [3 ^ k] fits the 53 bits of the mantissa of a double. *)
Definition SLEEP_MAX : Q := (2 ^ 63)%Z # (10 ^ 9)%positive.

Definition time_sleep_accepts (seconds : Q) : bool := Qle_bool seconds SLEEP_MAX.

Definition exact_as_float (k : Z) : bool := (3 ^ k <? 2 ^ 53)%Z.

(** A reply that sends [fetch_url] into another turn of its loop: a status
    other than 200, 401 and 403, or a [RequestException]. *)
Definition transient (r : Reply) : bool :=
  match r with
  | Response status_code _ _ =>
      negb (status_code =? 200)%Z && negb (in_401_403 status_code)
  | RequestException => true
  end.

(** One failed turn of the loop, the k-th: the request, then the sleep. *)
Definition failed_turn (req : Request) (k : nat) : list Event :=
  [EvGet req; EvSleep (Qpower BACKOFF_FACTOR (Z.of_nat k))].

(** Whether the triple of [fetch_url] carries a status: it does exactly
    when the last request was answered with 200, 401 or 403. *)
Definition got_status
    (r : option string * option Z * option (list (string * string))) : bool :=
  match r with
  | (_, Some _, _) => true
  | _ => false
  end.

(** The seconds slept in a piece of trace. *)
Definition total_sleep (tr : list Event) : Q :=
  fold_right Qplus 0%Q (sleeps_of tr).

(** What a reply means to [fetch_url]: the triple it makes the function
    return, or nothing when the reply sends the loop into another turn. *)
Definition outcome_of (r : Reply)
    : option (option string * option Z * option (list (string * string))) :=
  match r with
  | Response status_code text resp_headers =>
      if (status_code =? 200)%Z then Some (Some text, Some status_code, Some resp_headers)
      else if in_401_403 status_code then Some (None, Some status_code, Some resp_headers)
      else None
  | RequestException => None
  end.

(** From [w] to [w'] nothing has happened but the creation of directories,
    each at a path of [within] where there was no entry: no request, no
    clock reading, no event, and every other entry is as it was. *)
Definition only_new_dirs (within : list (list string)) (w w' : World) : Prop :=
  requests w' = requests w /\ clock_reads w' = clock_reads w /\
  trace w' = trace w /\
  forall q, fs w' !! q = fs w !! q \/
            (In q within /\ fs w !! q = None /\ fs w' !! q = Some Dir).

(** The line that [main] prints when it has found no credentials. *)
Definition credentials_warning : string :=
  "Warning: No ARTIFACTORY_TOKEN found. Provide --user/--password for Basic auth or set ARTIFACTORY_TOKEN env var.".

(** An event of a run made with the credentials [auth] and [headers]: a
    request carries them and the timeout of the module; a printed line is
    not the warning about missing credentials. *)
Definition run_event (auth : option (string * string))
    (headers : list (string * string)) (e : Event) : Prop :=
  match e with
  | EvGet req =>
      req_auth req = auth /\ req_headers req = headers /\ req_timeout req = TIMEOUT
  | EvSleep _ => True
  | EvPrint _ line => line <> credentials_warning
  end.

(** From [w] to [w'] the file system has changed only by new directories,
    at paths of [dirs] where there was no entry, and by regular files at
    paths of [files]: nothing has been removed, and no other entry has
    changed. *)
Definition changed_only (dirs files : list (list string)) (w w' : World) : Prop :=
  forall q, fs w' !! q = fs w !! q \/
            (In q dirs /\ fs w !! q = None /\ fs w' !! q = Some Dir) \/
            (In q files /\ exists s, fs w' !! q = Some (File s)).

(** The two files of each job, and the directories above them. *)
Definition job_files (out_root : list string) (jobs : list (string * string))
    : list (list string) :=
  flat_map (fun job => [job_local_path out_root (fst job) (snd job);
                        job_meta_path out_root (fst job) (snd job)]) jobs.

Definition job_dirs (out_root : list string) (jobs : list (string * string))
    : list (list string) :=
  flat_map (fun job => Path.inits (job_dir out_root (fst job) (snd job))) jobs.

(** [main] from [base_url = args.base_url.rstrip("/")] on, once the
    credentials are chosen. *)
Definition main_after_credentials (session : nat -> Request -> Reply)
    (clock : nat -> Z -> datetime) (json_dumps : Json -> Z -> string)
    (args : Args) (auth : option (string * string))
    (headers : list (string * string)) : M unit :=
  let base_url := PyStr.rstrip "/" (base_url args) in
  let out_root := Path.of_str (out args) in
  st <- main_loop session clock json_dumps args auth headers base_url out_root ;;
  let '(errors, success_count) := st in
  print Stdout (newline +:+ "Completed. Successful files: " +:+ pretty success_count
                +:+ ". Errors: " +:+ pretty (length errors)) ;;
  if negb (bool_decide (errors = [])) then
    let err_path := out_root // "fetch_errors.json" in
    Path_write_text err_path (json_dumps (JArr errors) 2%Z) ;;
    print Stderr ("Errors written to " +:+ Path.to_str err_path) ;;
    sys_exit 2
  else
    sys_exit 0.

(** The credentials that [main] chooses, and the world in which its loop
    starts: the one in which [main] starts, after the warning when there is
    one. *)
Definition main_headers (environ : gmap string string) : list (string * string) :=
  if truthy (environ !! "ARTIFACTORY_TOKEN")
  then [("Authorization", "Bearer " +:+ default "" (environ !! "ARTIFACTORY_TOKEN"))]
  else [].

Definition main_auth (args : Args) (environ : gmap string string)
    : option (string * string) :=
  if truthy (environ !! "ARTIFACTORY_TOKEN") then None
  else if truthy (user args) && truthy (password args)
       then Some (default "" (user args), default "" (password args))
       else None.

Definition main_start (args : Args) (environ : gmap string string) (w : World)
    : World :=
  if negb (truthy (environ !! "ARTIFACTORY_TOKEN"))
     && (negb (truthy (user args)) || negb (truthy (password args)))
  then add_event (EvPrint Stderr credentials_warning) w
  else w.

(** The log of the jobs of a run of [main], and the error records that
    this log accounts for. *)
Definition main_log (session : nat -> Request -> Reply)
    (clock : nat -> Z -> datetime) (json_dumps : Json -> Z -> string)
    (args : Args) (environ : gmap string string) (w : World)
  : list ((string * string)
          * result (option string * option Z * option (list (string * string)))) :=
  job_log session clock json_dumps args (main_auth args environ)
    (main_headers environ) (PyStr.rstrip "/" (base_url args))
    (Path.of_str (out args)) (jobs_of args) ([], 0) (main_start args environ w).

Definition main_errors (session : nat -> Request -> Reply)
    (clock : nat -> Z -> datetime) (json_dumps : Json -> Z -> string)
    (args : Args) (environ : gmap string string) (w : World) : list Json :=
  flat_map (records_of (retries args) (PyStr.rstrip "/" (base_url args)))
    (main_log session clock json_dumps args environ w).

(** A session whose downloads are ASCII text: whatever charset the server
    declares, [resp.text] is then a string that UTF-8 encodes when it is
    written. *)
Definition serves_ascii (session : nat -> Request -> Reply) : Prop :=
  forall i rq body hd,
    session i rq = Response 200 body hd -> ascii_only body = true.

(** The strings of a run that are printed or sent are ones that every
    encoding takes. *)
Definition run_encodes (args : Args) (environ : gmap string string) : bool :=
  ascii_only (base_url args)
  && credentials_encode (main_auth args environ) (main_headers environ).

(** ** Sample inputs *)

Definition empty_world : World := mkWorld ∅ 0 0 [].

(** A server that gives every request the same status and body. *)
Definition server_always (status : Z) (body : string) : nat -> Request -> Reply :=
  fun _ _ => Response status body [].

(** A server that fails with 503 [n] times and then serves [body]. *)
Definition server_after (n : nat) (body : string) : nat -> Request -> Reply :=
  fun i _ => if (i <? n)%nat then Response 503 "" []
             else Response 200 body [("Content-Type", "text/plain")].

(** A clock that ticks one second at every reading, some day in 2026. *)
Definition sample_clock : nat -> Z -> datetime :=
  fun n tz => mkDatetime 2026 11 3 14 37 (N.of_nat n) 0 tz.

(** A compact serialiser, without escapes, for the samples. *)
Fixpoint sample_render (j : Json) : string :=
  match j with
  | JStr s => "'" +:+ s +:+ "'"
  | JObj fields =>
      "{" +:+ (fix go (l : list (string * Json)) : string :=
                 match l with
                 | [] => ""
                 | (k, v) :: l' => "'" +:+ k +:+ "': " +:+ sample_render v +:+ "; " +:+ go l'
                 end) fields +:+ "}"
  | JArr items =>
      "[" +:+ (fix go (l : list Json) : string :=
                 match l with
                 | [] => ""
                 | v :: l' => sample_render v +:+ "; " +:+ go l'
                 end) items +:+ "]"
  end.

Definition sample_dumps : Json -> Z -> string := fun j _ => sample_render j.

(** A server that answers the k-th request of the run with 403 and every
    other one with 200 and [body]. *)
Definition server_denies_at (k : nat) (body : string) : nat -> Request -> Reply :=
  fun i _ => if (i =? k)%nat then Response 403 "" [] else Response 200 body [].

Definition sample_body : string := "abc123" +:+ String (ascii_of_nat 10) "".

(** Two builds and two platforms. *)
Definition sample_args_2x2 : Args :=
  mkArgs "https://artifacts.example/repo/cp_dev/" ["3025"; "3026"]
    ["windows"; "linux"] "data/builds" None None DEFAULT_RETRIES.

Definition sample_base : string := "https://artifacts.example/repo/cp_dev".

Definition sample_out_root : list string := Path.of_str "data/builds".

Definition sample_args (retries : Z) : Args :=
  mkArgs "https://artifacts.example/repo/cp_dev/" ["3025"] ["windows"]
    "data/builds" None None retries.

(** An environment with a token, and arguments with a user and a
    password. *)
Definition sample_environ_token : gmap string string :=
  {[ "ARTIFACTORY_TOKEN" := "s3cr3t" ]}.

Definition sample_args_basic : Args :=
  mkArgs "https://artifacts.example/repo/cp_dev/" ["3025"] ["windows"]
    "data/builds" (Some "alice") (Some "pw") 2.

(** One job, written under the current directory. *)
Definition sample_args_here : Args :=
  mkArgs "https://artifacts.example/repo/cp_dev/" ["3025"] ["windows"]
    "." None None DEFAULT_RETRIES.

(** A file system in which an earlier run has left its report and made
    the directory of build 3025. *)
Definition report_world : World :=
  mkWorld {[ ["data"] := Dir; ["data"; "builds"] := Dir;
             ["data"; "builds"; "3025"] := Dir;
             ["data"; "builds"; "fetch_errors.json"] := File "[]" ]} 0 0 [].

(** A file system in which a regular file stands where the directory of
    build 3025 should be. *)
Definition blocked_world : World :=
  mkWorld {[ ["data"] := Dir; ["data"; "builds"] := Dir;
             ["data"; "builds"; "3025"] := File "" ]} 0 0 [].

(** * Properties *)

(** ** The string helpers *)

Section StringFacts.

Lemma append_cons (a : ascii) (s t : string) :
  String a s +:+ t = String a (s +:+ t).
Proof. reflexivity. Qed.

Lemma append_nil_l (t : string) : "" +:+ t = t.
Proof. reflexivity. Qed.

Lemma mem_single (a c : ascii) : PyStr.mem a (String c "") = Ascii.eqb a c.
Proof. simpl. now rewrite orb_false_r. Qed.

Lemma endswith_cons (a : ascii) (s : string) (c : ascii) :
  s <> "" -> PyStr.endswith (String a s) c = PyStr.endswith s c.
Proof. unfold PyStr.endswith. destruct s; [congruence | reflexivity]. Qed.

(** The stripped string and the number of characters removed. *)
Lemma rstrip_decompose (c : ascii) (s : string) :
  exists n : nat,
    s = PyStr.rstrip (String c "") s +:+ PyStr.replicate n c /\
    PyStr.endswith (PyStr.rstrip (String c "") s) c = false.
Proof.
  induction s as [|a s [n [Hs Hend]]].
  - exists 0%nat. split; reflexivity.
  - cbn [PyStr.rstrip].
    destruct (PyStr.rstrip (String c "") s) as [|b r] eqn:Hr.
    + rewrite append_nil_l in Hs. rewrite mem_single.
      destruct (Ascii.eqb_spec a c) as [->|Hne].
      * exists (S n). split; [now rewrite append_nil_l, Hs | reflexivity].
      * exists n. split; [now rewrite append_cons, append_nil_l, Hs |].
        unfold PyStr.endswith. simpl.
        now apply Ascii.eqb_neq.
    + exists n. split.
      * rewrite append_cons. now rewrite <- Hs.
      * rewrite endswith_cons; [exact Hend | discriminate].
Qed.

Lemma rstrip_replicate (c : ascii) (n : nat) :
  PyStr.rstrip (String c "") (PyStr.replicate n c) = "".
Proof.
  induction n as [|n IH]; [reflexivity |].
  cbn [PyStr.replicate PyStr.rstrip]. rewrite IH, mem_single.
  now rewrite Ascii.eqb_refl.
Qed.

(** Stripping undoes the addition of trailing separators to a string that
    does not end in one. *)
Lemma rstrip_append_replicate (c : ascii) (core : string) (n : nat) :
  PyStr.endswith core c = false ->
  PyStr.rstrip (String c "") (core +:+ PyStr.replicate n c) = core.
Proof.
  induction core as [|a core IH]; intros Hend.
  - apply rstrip_replicate.
  - rewrite append_cons. cbn [PyStr.rstrip].
    destruct core as [|b core'].
    + rewrite append_nil_l, rstrip_replicate, mem_single.
      unfold PyStr.endswith in Hend. simpl in Hend. now rewrite Hend.
    + rewrite IH.
      * reflexivity.
      * rewrite endswith_cons in Hend; [exact Hend | discriminate].
Qed.

End StringFacts.

(** ** The URL builder *)

(** C7. For every base URL, which is some [core] that does not end in a
    slash followed by [n >= 0] slashes, and every build and platform id,
    [build_target_url] is [core], one slash, the build, one slash, the
    platform and ["/latest_commits.txt"]. The function is total and reads
    nothing but its arguments. *)
Theorem build_target_url_strips_and_joins (base b p : string) :
  exists (core : string) (n : nat),
    base = core +:+ PyStr.replicate n "/" /\
    PyStr.endswith core "/" = false /\
    (forall m : nat,
        build_target_url (core +:+ PyStr.replicate m "/") b p =
        core +:+ "/" +:+ b +:+ "/" +:+ p +:+ "/latest_commits.txt") /\
    build_target_url base b p =
      core +:+ "/" +:+ b +:+ "/" +:+ p +:+ "/latest_commits.txt".
Proof.
  destruct (rstrip_decompose "/" base) as [n [Hbase Hend]].
  exists (PyStr.rstrip "/" base), n.
  split; [exact Hbase |]. split; [exact Hend |]. split.
  - intros m. unfold build_target_url.
    now rewrite rstrip_append_replicate.
  - reflexivity.
Qed.

(** ** Computations *)

Section MonadFacts.

Context {A B : Type}.

Lemma bind_ok_inv (c : M A) (k : A -> M B) (w w' : World) (b : B) :
  bind c k w = (Ok b, w') ->
  exists a w1, c w = (Ok a, w1) /\ k a w1 = (Ok b, w').
Proof.
  unfold bind. destruct (c w) as [[a|e] w1]; [eauto | discriminate].
Qed.

Lemma bind_raise_inv (c : M A) (k : A -> M B) (w w' : World) (e : exn) :
  bind c k w = (Raise e, w') ->
  c w = (Raise e, w') \/ exists a w1, c w = (Ok a, w1) /\ k a w1 = (Raise e, w').
Proof.
  unfold bind. destruct (c w) as [[a|e0] w1]; [right; eauto |].
  intros H. inversion H; subst. now left.
Qed.

End MonadFacts.

Lemma for_each_app {A S : Type} (xs ys : list A) (body : A -> S -> M S)
    (st : S) (w : World) :
  for_each (xs ++ ys) body st w =
  (st' <- for_each xs body st ;; for_each ys body st')%py w.
Proof.
  revert st w. induction xs as [|x xs IH]; intros st w; [reflexivity |].
  cbn [app for_each]. unfold bind.
  destruct (body x st w) as [[st1|e] w1]; [apply IH | reflexivity].
Qed.

Lemma for_each_map {A B S : Type} (g : A -> B) (xs : list A)
    (body : B -> S -> M S) (st : S) (w : World) :
  for_each (List.map g xs) body st w = for_each xs (fun x => body (g x)) st w.
Proof.
  revert st w. induction xs as [|x xs IH]; intros st w; [reflexivity |].
  cbn [List.map for_each]. unfold bind.
  destruct (body (g x) st w) as [[st1|e] w1]; [apply IH | reflexivity].
Qed.

(** Two nested loops are one loop over the pairs, first components
    outside. *)
Lemma for_each_nested {A B S : Type} (xs : list A) (ys : list B)
    (body : A -> B -> S -> M S) (st : S) (w : World) :
  for_each xs (fun x => for_each ys (body x)) st w =
  for_each (list_prod xs ys) (fun xy => body (fst xy) (snd xy)) st w.
Proof.
  revert st w. induction xs as [|x xs IH]; intros st w; [reflexivity |].
  cbn [list_prod for_each]. rewrite for_each_app.
  unfold bind. rewrite for_each_map. cbn [fst snd].
  change (fun y => body x y) with (body x).
  destruct (for_each ys (body x) st w) as [[st1|e] w1]; [apply IH | reflexivity].
Qed.

Lemma world_eta (w : World) :
  mkWorld (fs w) (requests w) (clock_reads w) (trace w) = w.
Proof. now destruct w. Qed.

(** ** The backoff delays *)

Lemma BACKOFF_FACTOR_gt_1 : (1 < BACKOFF_FACTOR)%Q.
Proof. reflexivity. Qed.

Lemma backoff_increasing (j k : nat) :
  j < k ->
  (Qpower BACKOFF_FACTOR (Z.of_nat j) < Qpower BACKOFF_FACTOR (Z.of_nat k))%Q.
Proof.
  intros Hjk. apply Qpower_lt_compat_l; [lia | exact BACKOFF_FACTOR_gt_1].
Qed.

Lemma backoff_delays_sorted (a n : nat) :
  StronglySorted Qlt
    (List.map (fun k => Qpower BACKOFF_FACTOR (Z.of_nat k)) (seq a n)).
Proof.
  revert a. induction n as [|n IH]; intros a; cbn [seq List.map].
  - constructor.
  - constructor; [apply IH |].
    apply Forall_forall. intros q Hq.
    apply list_elem_of_In, in_map_iff in Hq as [k [<- Hk]].
    apply in_seq in Hk. apply backoff_increasing. lia.
Qed.

(** ** The fetcher *)

Section FetchFacts.

Context (session : nat -> Request -> Reply).
Context (url : string) (auth : option (string * string)).
Context (headers : list (string * string)) (timeout : Z).

Let req : Request := mkRequest url auth headers timeout.

(** The loop, one turn unrolled. *)
Lemma fetch_url_loop_turn (retries attempt : Z) (w : World) :
  fetch_url_loop session url auth headers retries timeout attempt w =
  if (attempt <? retries)%Z then
    (reply <- session_get session req ;;
     match reply with
     | Response status_code text resp_headers =>
         if (status_code =? 200)%Z then
           ret (Some text, Some status_code, Some resp_headers)
         else if in_401_403 status_code then
           ret (None, Some status_code, Some resp_headers)
         else
           time_sleep (Qpower BACKOFF_FACTOR (attempt + 1)) ;;
           fetch_url_loop session url auth headers retries timeout (attempt + 1)
     | RequestException =>
         time_sleep (Qpower BACKOFF_FACTOR (attempt + 1)) ;;
         fetch_url_loop session url auth headers retries timeout (attempt + 1)
     end) w
  else ret (None, None, None) w.
Proof.
  rewrite fetch_url_loop_equation_1.
  unfold fetch_url_loop_unfold_clause_1, inspect.
  destruct (attempt <? retries)%Z; reflexivity.
Qed.

(** A transient reply costs one request and one sleep, and the loop goes
    on with the next value of [attempt]. *)
Lemma fetch_url_loop_transient (retries attempt : Z) (w : World) :
  (attempt < retries)%Z ->
  transient (session (requests w) req) = true ->
  fetch_url_loop session url auth headers retries timeout attempt w =
  fetch_url_loop session url auth headers retries timeout (attempt + 1)
    (mkWorld (fs w) (S (requests w)) (clock_reads w)
       (trace w ++ [EvGet req; EvSleep (Qpower BACKOFF_FACTOR (attempt + 1))])).
Proof.
  intros Hlt Htr. rewrite fetch_url_loop_turn.
  apply Z.ltb_lt in Hlt. rewrite Hlt.
  unfold bind at 1, session_get at 1. fold req.
  assert (Happ : forall e1 e2 : Event,
             (trace w ++ [e1]) ++ [e2] = trace w ++ [e1; e2])
    by (intros; now rewrite <- app_assoc).
  destruct (session (requests w) req) as [st tx hd|]; simpl in Htr.
  - apply andb_true_iff in Htr as [H200 Hauth].
    apply negb_true_iff in H200, Hauth. rewrite H200, Hauth.
    unfold bind, time_sleep, add_event. simpl. now rewrite Happ.
  - unfold bind, time_sleep, add_event. simpl. now rewrite Happ.
Qed.

(** [n] transient replies in a row, from [attempt = a] with [a + n] turns
    allowed: the loop runs dry after exactly [n] requests. *)
Lemma fetch_url_loop_all_transient (n a : nat) (w : World) :
  (forall i, requests w <= i < requests w + n ->
             transient (session i req) = true) ->
  fetch_url_loop session url auth headers (Z.of_nat (a + n)) timeout
    (Z.of_nat a) w =
  (Ok (None, None, None),
   mkWorld (fs w) (requests w + n) (clock_reads w)
     (trace w ++ flat_map (failed_turn req) (seq (S a) n))).
Proof.
  revert a w. induction n as [|n IH]; intros a w Htr.
  - rewrite fetch_url_loop_turn.
    replace (Z.of_nat a <? Z.of_nat (a + 0))%Z with false
      by (symmetry; apply Z.ltb_ge; lia).
    unfold ret. simpl. rewrite Nat.add_0_r, app_nil_r. now rewrite world_eta.
  - rewrite fetch_url_loop_transient; [| lia | apply Htr; lia].
    replace (Z.of_nat a + 1)%Z with (Z.of_nat (S a)) by lia.
    replace (a + S n) with (S a + n) by lia.
    rewrite IH.
    + cbn [fs requests clock_reads trace].
      f_equal. f_equal; [lia |].
      rewrite <- app_assoc. reflexivity.
    + cbn [requests]. intros i Hi. apply Htr. lia.
Qed.

(** What [n] failed turns leave in the trace. *)
Lemma gets_of_failed_turns (l : list nat) :
  gets_of (flat_map (failed_turn req) l) = List.map (fun _ => req) l.
Proof. induction l as [|k l IH]; [reflexivity |]. simpl. now rewrite <- IH. Qed.

Lemma sleeps_of_failed_turns (l : list nat) :
  sleeps_of (flat_map (failed_turn req) l) =
  List.map (fun k => Qpower BACKOFF_FACTOR (Z.of_nat k)) l.
Proof.
  induction l as [|k l IH]; [reflexivity |].
  cbn [flat_map List.map]. unfold failed_turn at 1.
  cbn [app sleeps_of flat_map]. now rewrite <- IH.
Qed.

(** With no turn allowed the loop ends at once. *)
Lemma fetch_url_no_turn (retries : Z) (w : World) :
  (retries <= 0)%Z ->
  fetch_url session url auth headers retries timeout w =
  (Ok (None, None, None), w).
Proof.
  intros Hr. unfold fetch_url. rewrite fetch_url_loop_turn.
  now replace (0 <? retries)%Z with false by (symmetry; apply Z.ltb_ge; lia).
Qed.

(** A 200 reply ends the loop with the body, the status and the headers. *)
Lemma fetch_url_loop_200 (retries attempt : Z) (w : World)
    (text : string) (hd : list (string * string)) :
  (attempt < retries)%Z ->
  session (requests w) req = Response 200 text hd ->
  fetch_url_loop session url auth headers retries timeout attempt w =
  (Ok (Some text, Some 200%Z, Some hd),
   mkWorld (fs w) (S (requests w)) (clock_reads w) (trace w ++ [EvGet req])).
Proof.
  intros Hlt Hrep. rewrite fetch_url_loop_turn.
  apply Z.ltb_lt in Hlt. rewrite Hlt.
  unfold bind, session_get. fold req. now rewrite Hrep.
Qed.

(** A 401 or 403 reply ends the loop with the status and no content. *)
Lemma fetch_url_loop_auth (retries attempt : Z) (w : World) (status : Z)
    (text : string) (hd : list (string * string)) :
  (attempt < retries)%Z ->
  session (requests w) req = Response status text hd ->
  status = 401%Z \/ status = 403%Z ->
  fetch_url_loop session url auth headers retries timeout attempt w =
  (Ok (None, Some status, Some hd),
   mkWorld (fs w) (S (requests w)) (clock_reads w) (trace w ++ [EvGet req])).
Proof.
  intros Hlt Hrep Hst. rewrite fetch_url_loop_turn.
  apply Z.ltb_lt in Hlt. rewrite Hlt.
  unfold bind, session_get. fold req. rewrite Hrep.
  destruct Hst as [-> | ->]; reflexivity.
Qed.

End FetchFacts.

(** [fetch_url] always returns (it never raises and its loop ends); it
    leaves the file system and the clock alone, and adds only requests to
    its URL and sleeps to the trace. *)
Lemma fetch_url_loop_returns (session : nat -> Request -> Reply)
    (url : string) (auth : option (string * string))
    (headers : list (string * string)) (retries timeout : Z) (n : nat) :
  forall (attempt : Z) (w : World),
    Z.to_nat (retries - attempt) <= n ->
    exists r w' evs,
      fetch_url_loop session url auth headers retries timeout attempt w =
        (Ok r, w') /\
      result_shape r /\
      fs w' = fs w /\ clock_reads w' = clock_reads w /\
      trace w' = trace w ++ evs /\
      Forall (fun e => e = EvGet (mkRequest url auth headers timeout) \/
                       exists q, e = EvSleep q) evs.
Proof.
  induction n as [|n IH]; intros attempt w Hn.
  - rewrite fetch_url_loop_turn.
    replace (attempt <? retries)%Z with false by (symmetry; apply Z.ltb_ge; lia).
    exists (None, None, None), w, []. cbn. rewrite app_nil_r.
    repeat split; auto.
  - rewrite fetch_url_loop_turn.
    destruct (attempt <? retries)%Z eqn:Hlt.
    2:{ exists (None, None, None), w, []. cbn. rewrite app_nil_r.
        repeat split; auto. }
    apply Z.ltb_lt in Hlt.
    unfold bind at 1, session_get at 1.
    set (w1 := mkWorld (fs w) (S (requests w)) (clock_reads w) _).
    assert (Hgo : exists r w' evs,
               (time_sleep (Qpower BACKOFF_FACTOR (attempt + 1)) ;;
                fetch_url_loop session url auth headers retries timeout
                  (attempt + 1))%py w1 = (Ok r, w') /\
               result_shape r /\ fs w' = fs w /\
               clock_reads w' = clock_reads w /\
               trace w' = trace w ++ evs /\
               Forall (fun e => e = EvGet (mkRequest url auth headers timeout) \/
                                exists q, e = EvSleep q) evs).
    { unfold bind, time_sleep.
      destruct (IH (attempt + 1)%Z
                  (add_event (EvSleep (Qpower BACKOFF_FACTOR (attempt + 1))) w1))
        as [r [w' [evs [Hrun [Hshape [Hfs [Hclk [Htr Hall]]]]]]]]; [lia |].
      exists r, w', ([EvGet (mkRequest url auth headers timeout);
                      EvSleep (Qpower BACKOFF_FACTOR (attempt + 1))] ++ evs).
      split; [exact Hrun |]. split; [exact Hshape |].
      split; [exact Hfs |]. split; [exact Hclk |]. split.
      - rewrite Htr. cbn [add_event trace w1]. now rewrite <- !app_assoc.
      - cbn [app]. constructor; [now left |].
        constructor; [right; eauto | exact Hall]. }
    destruct (session (requests w) (mkRequest url auth headers timeout))
      as [st tx hd|]; [| exact Hgo].
    destruct (st =? 200)%Z eqn:H200.
    { apply Z.eqb_eq in H200. subst st.
      exists (Some tx, Some 200%Z, Some hd), w1,
        [EvGet (mkRequest url auth headers timeout)].
      repeat split; auto. }
    destruct (in_401_403 st) eqn:Hauth; [| exact Hgo].
    exists (None, Some st, Some hd), w1,
      [EvGet (mkRequest url auth headers timeout)].
    repeat split; auto.
Qed.

Lemma fetch_url_returns (session : nat -> Request -> Reply)
    (url : string) (auth : option (string * string))
    (headers : list (string * string)) (retries timeout : Z) (w : World) :
  exists r w' evs,
    fetch_url session url auth headers retries timeout w = (Ok r, w') /\
    result_shape r /\
    fs w' = fs w /\ clock_reads w' = clock_reads w /\
    trace w' = trace w ++ evs /\
    Forall (fun e => e = EvGet (mkRequest url auth headers timeout) \/
                     exists q, e = EvSleep q) evs.
Proof.
  apply (fetch_url_loop_returns session url auth headers retries timeout
           (Z.to_nat (retries - 0))).
  lia.
Qed.


(** A run of transient outcomes, as many as there are turns allowed. *)
Lemma fetch_url_exhausts (session : nat -> Request -> Reply)
    (url : string) (auth : option (string * string))
    (headers : list (string * string)) (timeout r : Z) (w : World) :
  (0 <= r)%Z ->
  (forall i, requests w <= i < requests w + Z.to_nat r ->
     transient (session i (mkRequest url auth headers timeout)) = true) ->
  fetch_url session url auth headers r timeout w =
  (Ok (None, None, None),
   mkWorld (fs w) (requests w + Z.to_nat r) (clock_reads w)
     (trace w ++ flat_map (failed_turn (mkRequest url auth headers timeout))
                   (seq 1 (Z.to_nat r)))).
Proof.
  intros Hr Htr.
  pose proof (fetch_url_loop_all_transient session url auth headers timeout
                (Z.to_nat r) 0 w Htr) as Hloop.
  rewrite Nat.add_0_l, Z2Nat.id in Hloop by lia.
  exact Hloop.
Qed.

(** The delays up to the 56th are delays that [time.sleep] takes, and the
    delays up to the 33rd are exact as floats. *)
Lemma backoff_accepted (k : Z) :
  (k <= 56)%Z -> time_sleep_accepts (Qpower BACKOFF_FACTOR k) = true.
Proof.
  intros Hk. apply Qle_bool_iff.
  apply Qle_trans with (Qpower BACKOFF_FACTOR 56).
  - apply Qpower_le_compat_l; [exact Hk | discriminate].
  - apply Qle_bool_iff. vm_compute. reflexivity.
Qed.

Lemma backoff_exact (k : Z) : (0 <= k <= 33)%Z -> exact_as_float k = true.
Proof.
  intros Hk. apply Z.ltb_lt.
  apply Z.le_lt_trans with (3 ^ 33)%Z; [| reflexivity].
  apply Z.pow_le_mono_r; lia.
Qed.

(** C1 (what the code does). With [1 <= r <= 56] turns allowed and a
    transient outcome at each of the [r] requests, [fetch_url] sends exactly
    [r] requests and returns the failure [(None, None, None)], after [r]
    delays that [time.sleep] takes. As long as [r <= 33], the delays are
    [BACKOFF_FACTOR ^ 1], [BACKOFF_FACTOR ^ 2], ..., each exact as a float,
    a strictly increasing sequence. But the 34th delay is not exact as a
    float any more, and the 57th, [BACKOFF_FACTOR ^ 57] seconds, is more
    than [time.sleep] takes: with [r >= 57] the code does not get to its
    [return]. *)
Theorem fetch_url_retry_bound (session : nat -> Request -> Reply)
    (url : string) (auth : option (string * string))
    (headers : list (string * string)) (timeout r : Z) (w : World) :
  (1 <= r <= 56)%Z ->
  (forall i, requests w <= i < requests w + Z.to_nat r ->
     transient (session i (mkRequest url auth headers timeout)) = true) ->
  exists (w' : World) (evs : list Event),
    fetch_url session url auth headers r timeout w = (Ok (None, None, None), w') /\
    trace w' = trace w ++ evs /\
    requests w' = requests w + Z.to_nat r /\
    Z.of_nat (length (gets_of evs)) = r /\
    Z.of_nat (length (sleeps_of evs)) = r /\
    Forall (fun q => time_sleep_accepts q = true) (sleeps_of evs) /\
    ((r <= 33)%Z ->
     sleeps_of evs =
       List.map (fun k => Qpower BACKOFF_FACTOR (Z.of_nat k))
         (seq 1 (Z.to_nat r)) /\
     Forall (fun k => exact_as_float (Z.of_nat k) = true) (seq 1 (Z.to_nat r)) /\
     StronglySorted Qlt (sleeps_of evs)) /\
    exact_as_float 34 = false /\
    time_sleep_accepts (Qpower BACKOFF_FACTOR 56) = true /\
    time_sleep_accepts (Qpower BACKOFF_FACTOR 57) = false.
Proof.
  intros Hr Htr.
  eexists. exists (flat_map (failed_turn (mkRequest url auth headers timeout))
                     (seq 1 (Z.to_nat r))).
  split; [apply fetch_url_exhausts; [lia | exact Htr] |].
  cbn [trace requests].
  split; [reflexivity |]. split; [reflexivity |].
  rewrite gets_of_failed_turns, sleeps_of_failed_turns.
  rewrite !length_map, length_seq.
  split; [lia |]. split; [lia |]. split.
  { apply Forall_forall. intros q Hq.
    apply list_elem_of_In, in_map_iff in Hq as [k [<- Hk]].
    apply in_seq in Hk. apply backoff_accepted. lia. }
  split.
  { intros H33. split; [reflexivity |]. split.
    - apply Forall_forall. intros k Hk.
      apply list_elem_of_In, in_seq in Hk. apply backoff_exact. lia.
    - apply backoff_delays_sorted. }
  split; [reflexivity |]. split; [apply backoff_accepted; lia |].
  vm_compute. reflexivity.
Qed.

Lemma fetch_url_retry_bound_witness :
  (1 <= 3 <= 56)%Z /\
  (forall i, requests empty_world <= i < requests empty_world + Z.to_nat 3 ->
     transient (server_always 500 "" i (mkRequest "u" None [] TIMEOUT)) = true) /\
  exists (w' : World) (evs : list Event),
    fetch_url (server_always 500 "") "u" None [] 3 TIMEOUT empty_world =
      (Ok (None, None, None), w') /\
    trace w' = trace empty_world ++ evs /\
    requests w' = requests empty_world + Z.to_nat 3 /\
    Z.of_nat (length (gets_of evs)) = 3%Z /\
    sleeps_of evs = [3 # 2; 9 # 4; 27 # 8]%Q.
Proof.
  split; [lia |]. split; [intros; reflexivity |].
  destruct (fetch_url_retry_bound (server_always 500 "") "u" None [] TIMEOUT 3
              empty_world)
    as [w' [evs [Hrun [Htr [Hreq [Hg [_ [_ [Hs _]]]]]]]]];
    [lia | intros; reflexivity |].
  exists w', evs. split; [exact Hrun |]. split; [exact Htr |].
  split; [exact Hreq |]. split; [exact Hg |].
  destruct Hs as [Hs _]; [lia |]. rewrite Hs. reflexivity.
Defined.



(** C3 (what the code does). With [r >= 1] turns allowed and a transient
    outcome at each of the [r] requests, the last request is still followed
    by a sleep of [BACKOFF_FACTOR ^ r]: the trace of [fetch_url] ends with
    the r-th request and that sleep, and only then does the function return
    [(None, None, None)]. *)
Theorem fetch_url_sleeps_after_last_attempt (session : nat -> Request -> Reply)
    (url : string) (auth : option (string * string))
    (headers : list (string * string)) (timeout r : Z) (w : World) :
  (1 <= r)%Z ->
  (forall i, requests w <= i < requests w + Z.to_nat r ->
     transient (session i (mkRequest url auth headers timeout)) = true) ->
  exists (w' : World) (before : list Event),
    fetch_url session url auth headers r timeout w = (Ok (None, None, None), w') /\
    trace w' =
      trace w ++ before ++
        [EvGet (mkRequest url auth headers timeout);
         EvSleep (Qpower BACKOFF_FACTOR r)] /\
    Z.of_nat (length (gets_of before)) = (r - 1)%Z.
Proof.
  intros Hr Htr.
  eexists. exists (flat_map (failed_turn (mkRequest url auth headers timeout))
                     (seq 1 (Z.to_nat r - 1))).
  split; [apply fetch_url_exhausts; [lia | exact Htr] |].
  cbn [trace]. split.
  - f_equal.
    replace (Z.to_nat r) with ((Z.to_nat r - 1) + 1) at 1 by lia.
    rewrite seq_app, flat_map_app. f_equal.
    cbn [seq flat_map]. rewrite app_nil_r. unfold failed_turn.
    now replace (Z.of_nat (1 + (Z.to_nat r - 1))) with r by lia.
  - rewrite gets_of_failed_turns, length_map, length_seq. lia.
Qed.

Lemma fetch_url_sleeps_after_last_attempt_witness :
  (1 <= 1)%Z /\
  (forall i, requests empty_world <= i < requests empty_world + Z.to_nat 1 ->
     transient (server_always 500 "" i (mkRequest "u" None [] TIMEOUT)) = true) /\
  exists (w' : World) (before : list Event),
    fetch_url (server_always 500 "") "u" None [] 1 TIMEOUT empty_world =
      (Ok (None, None, None), w') /\
    trace w' =
      trace empty_world ++ before ++
        [EvGet (mkRequest "u" None [] TIMEOUT);
         EvSleep (Qpower BACKOFF_FACTOR 1)] /\
    Z.of_nat (length (gets_of before)) = (1 - 1)%Z.
Proof.
  split; [lia |]. split; [intros; reflexivity |].
  apply fetch_url_sleeps_after_last_attempt; [lia | intros; reflexivity].
Defined.

(** ** Paths *)

Section PathFacts.

Implicit Types (p q : list string) (c : string).

Lemma inits_snoc p c : Path.inits (p ++ [c]) = Path.inits p ++ [p ++ [c]].
Proof.
  induction p as [|d p IH]; [reflexivity |].
  cbn [app Path.inits]. rewrite IH, map_app. reflexivity.
Qed.

Lemma inits_self p : In p (Path.inits p).
Proof.
  induction p as [|d p IH]; [now left |].
  cbn [Path.inits]. right. apply in_map_iff. eauto.
Qed.

Lemma inits_length p q : In q (Path.inits p) -> length q <= length p.
Proof.
  revert q. induction p as [|d p IH]; intros q Hq; cbn [Path.inits] in Hq.
  - destruct Hq as [<- | []]. simpl. lia.
  - destruct Hq as [<- | Hq]; [simpl; lia |].
    apply in_map_iff in Hq as [q' [<- Hq']]. apply IH in Hq'. simpl. lia.
Qed.

Lemma snoc_not_in_inits p c : ~ In (p ++ [c]) (Path.inits p).
Proof. intros H%inits_length. rewrite length_app in H. simpl in H. lia. Qed.

(** Joining a plain name appends it. *)
Lemma joinpath_name p s :
  Path.of_str s = [s] -> Path.is_anchor s = false -> p // s = p ++ [s].
Proof.
  intros Hs Ha. unfold Path.joinpath. rewrite Hs. cbn [Path.is_absolute].
  now rewrite Ha.
Qed.

Lemma parent_snoc p c : Path.is_anchor c = false -> Path.parent (p ++ [c]) = p.
Proof.
  intros Hc. destruct p as [|d p]; cbn [app Path.parent].
  - now rewrite Hc.
  - destruct (p ++ [c]) as [|e l] eqn:Hl.
    + now destruct p.
    + rewrite <- Hl. change (d :: p ++ [c]) with ((d :: p) ++ [c]).
      apply removelast_last.
Qed.

Lemma parent_snoc_neq p c :
  Path.is_anchor c = false -> Path.parent (p ++ [c]) <> p ++ [c].
Proof.
  intros Hc. rewrite parent_snoc by exact Hc.
  intros H. apply (f_equal (@length string)) in H.
  rewrite length_app in H. simpl in H. lia.
Qed.

(** A path is its own parent exactly when it is empty or a lone root. *)
Lemma parent_fixed p :
  Path.parent p = p <-> p = [] \/ exists c, p = [c] /\ Path.is_anchor c = true.
Proof.
  split.
  - intros H. destruct p as [|c p] using rev_ind; [now left |].
    clear IHp. destruct (Path.is_anchor c) eqn:Hc.
    + right. destruct p as [|d p]; [eauto |].
      exfalso. cbn [app Path.parent] in H.
      destruct (p ++ [c]) as [|e l] eqn:Hl; [now destruct p |].
      rewrite <- Hl in H. change (d :: p ++ [c]) with ((d :: p) ++ [c]) in H.
      rewrite removelast_last in H.
      apply (f_equal (@length string)) in H.
      rewrite length_app in H. simpl in H. lia.
    + now apply parent_snoc_neq in H.
  - intros [-> | [c [-> Hc]]]; [reflexivity |]. cbn. now rewrite Hc.
Qed.

Lemma parent_snoc_cases p c :
  Path.parent (p ++ [c]) = p \/ Path.parent (p ++ [c]) = p ++ [c].
Proof.
  destruct (Path.is_anchor c) eqn:Hc; [| left; now apply parent_snoc].
  destruct p as [|d p]; [right; cbn; now rewrite Hc |].
  left. cbn [app Path.parent].
  destruct (p ++ [c]) as [|e l] eqn:Hl; [now destruct p |].
  rewrite <- Hl. change (d :: p ++ [c]) with ((d :: p) ++ [c]).
  apply removelast_last.
Qed.


End PathFacts.

(** ** File-system calls *)

Section FsFacts.

Implicit Types (p q : list string) (w : World).

Lemma stat_top w p : Path.parent p = p -> stat w p = Some Dir.
Proof. intros H. unfold stat. now rewrite bool_decide_eq_true_2. Qed.

Lemma stat_lookup w p : Path.parent p <> p -> stat w p = fs w !! p.
Proof. intros H. unfold stat. now rewrite bool_decide_eq_false_2. Qed.

(** Writing an entry at a path that is not its own parent. *)
Lemma stat_insert w p q (n : node) :
  Path.parent p <> p ->
  stat (set_fs (insert p n) w) q = if decide (p = q) then Some n else stat w q.
Proof.
  intros Hp. unfold stat. cbn [set_fs fs].
  destruct (decide (p = q)) as [<- | Hne].
  - rewrite bool_decide_eq_false_2 by exact Hp. apply lookup_insert_eq.
  - destruct (bool_decide (Path.parent q = q)); [reflexivity |].
    now apply lookup_insert_ne.
Qed.

Lemma stat_same_fs w w' p : fs w = fs w' -> stat w p = stat w' p.
Proof. intros H. unfold stat. now rewrite H. Qed.


(** [mkdir(parents=True)], one level unrolled. *)
Lemma Path_mkdir_parents_step (exist_ok : bool) p w :
  Path_mkdir_parents exist_ok p w =
  try_mkdir exist_ok p
    (if bool_decide (Path.parent p = p) then raise FileNotFoundError
     else (Path_mkdir_parents true (Path.parent p) ;; Path_mkdir exist_ok p)%py) w.
Proof.
  rewrite Path_mkdir_parents_equation_1.
  unfold Path_mkdir_parents_unfold_clause_1, inspect.
  destruct (bool_decide (Path.parent p = p)); reflexivity.
Qed.

(** Making a directory that exists, together with its parent, changes
    nothing. *)
Lemma Path_mkdir_parents_exists p w :
  stat w (Path.parent p) = Some Dir -> stat w p = Some Dir ->
  Path_mkdir_parents true p w = (Ok tt, w).
Proof.
  intros Hpar Hp. rewrite Path_mkdir_parents_step.
  unfold try_mkdir, os_mkdir, is_dir. rewrite Hpar, Hp. cbn. now rewrite Hp.
Qed.

Lemma no_file_on_the_way_snoc w p c :
  no_file_on_the_way w (p ++ [c]) = true ->
  no_file_on_the_way w p = true /\
  (forall s, stat w (p ++ [c]) <> Some (File s)).
Proof.
  unfold no_file_on_the_way. rewrite inits_snoc, forallb_app.
  intros [H1 H2]%andb_true_iff. split; [exact H1 |].
  cbn in H2. intros s Hs. rewrite Hs in H2. discriminate.
Qed.

Lemma no_file_at w p :
  no_file_on_the_way w p = true -> forall s, stat w p <> Some (File s).
Proof.
  intros H s Hs. unfold no_file_on_the_way in H.
  rewrite forallb_forall in H. specialize (H p (inits_self p)).
  rewrite Hs in H. discriminate.
Qed.

(** With no regular file on the way, [mkdir(parents=True, exist_ok=True)]
    succeeds: afterwards the directory and its parent exist, nothing outside
    of its chain of ancestors has changed, and what has changed is a new
    directory. *)
Lemma Path_mkdir_parents_clear p w :
  no_file_on_the_way w p = true ->
  exists m' : gmap (list string) node,
    Path_mkdir_parents true p w = (Ok tt, set_fs (fun _ => m') w) /\
    stat (set_fs (fun _ => m') w) p = Some Dir /\
    stat (set_fs (fun _ => m') w) (Path.parent p) = Some Dir /\
    (forall q, ~ In q (Path.inits p) -> m' !! q = fs w !! q) /\
    (forall q, m' !! q = fs w !! q \/ m' !! q = Some Dir).
Proof.
  revert w. induction p as [|c p IH] using rev_ind; intros w Hclear.
  - exists (fs w). split; [| repeat split; auto].
    rewrite Path_mkdir_parents_exists by reflexivity. now destruct w.
  - destruct (decide (Path.parent (p ++ [c]) = p ++ [c])) as [Htop | Hnt].
    { exists (fs w). split; [| split; [| split; [| split]]].
      - rewrite Path_mkdir_parents_exists; [now destruct w | |].
        + rewrite Htop. now apply stat_top.
        + now apply stat_top.
      - now apply stat_top.
      - rewrite Htop. now apply stat_top.
      - reflexivity.
      - auto. }
    assert (Hpar : Path.parent (p ++ [c]) = p).
    { destruct (parent_snoc_cases p c) as [H | H]; [exact H | contradiction]. }
    assert (Hne : p ++ [c] <> p) by (rewrite <- Hpar at 2; congruence).
    apply no_file_on_the_way_snoc in Hclear as [Hp Hself].
    rewrite Path_mkdir_parents_step, bool_decide_eq_false_2 by exact Hnt.
    rewrite Hpar. unfold try_mkdir at 1, os_mkdir at 1. rewrite Hpar.
    destruct (stat w p) as [[|s]|] eqn:Hsp.
    + (* the parent is there *)
      destruct (stat w (p ++ [c])) as [[|s]|] eqn:Hs.
      * exists (fs w). cbn. unfold is_dir. rewrite Hs. cbn.
        replace (set_fs (fun _ => fs w) w) with w by now destruct w.
        repeat split; auto.
      * now destruct (Hself s).
      * exists (<[p ++ [c] := Dir]> (fs w)).
        change (set_fs (fun _ => <[p ++ [c]:=Dir]> (fs w)) w)
          with (set_fs (insert (p ++ [c]) Dir) w).
        split; [reflexivity |].
        rewrite !stat_insert by exact Hnt.
        rewrite decide_True by reflexivity. rewrite decide_False by exact Hne.
        split; [reflexivity |]. split; [exact Hsp |]. split.
        -- intros q Hq. apply lookup_insert_ne. intros <-.
           apply Hq, inits_self.
        -- intros q. destruct (decide (p ++ [c] = q)) as [<- | Hq].
           ++ right. apply lookup_insert_eq.
           ++ left. now apply lookup_insert_ne.
    + now destruct (no_file_at w p Hp s).
    + (* the parent is made first *)
      destruct (IH w Hp) as [m1 [Hmk [Hdir [_ [Hframe Hnew]]]]].
      unfold bind. rewrite Hmk.
      unfold Path_mkdir, try_mkdir, os_mkdir. rewrite Hpar, Hdir.
      assert (Hsame : stat (set_fs (fun _ => m1) w) (p ++ [c]) = stat w (p ++ [c])).
      { rewrite !stat_lookup by exact Hnt. cbn [set_fs fs].
        apply Hframe, snoc_not_in_inits. }
      rewrite Hsame.
      destruct (stat w (p ++ [c])) as [[|s]|] eqn:Hs.
      * exists m1. unfold is_dir. rewrite Hsame. cbn.
        split; [reflexivity |]. split; [reflexivity |]. split; [exact Hdir |].
        split; [| exact Hnew].
        intros q Hq. apply Hframe. intros Hin. apply Hq.
        rewrite inits_snoc. apply in_or_app. now left.
      * now destruct (Hself s).
      * exists (<[p ++ [c] := Dir]> m1).
        change (set_fs (fun _ => <[p ++ [c]:=Dir]> m1) w)
          with (set_fs (insert (p ++ [c]) Dir) (set_fs (fun _ => m1) w)).
        split; [reflexivity |].
        rewrite !stat_insert by exact Hnt.
        rewrite decide_True by reflexivity. rewrite decide_False by exact Hne.
        split; [reflexivity |]. split; [exact Hdir |]. split.
        -- intros q Hq. rewrite lookup_insert_ne.
           ++ apply Hframe. intros Hin. apply Hq.
              rewrite inits_snoc. apply in_or_app. now left.
           ++ intros <-. apply Hq, inits_self.
        -- intros q. destruct (decide (p ++ [c] = q)) as [<- | Hq].
           ++ right. apply lookup_insert_eq.
           ++ rewrite lookup_insert_ne by exact Hq. apply Hnew.
Qed.

End FsFacts.

(** ** What the file-system calls raise *)

Lemma os_mkdir_raises (p : list string) (w w' : World) (e : exn) :
  os_mkdir p w = (Raise e, w') -> is_OSError e = true.
Proof.
  unfold os_mkdir.
  destruct (stat w (Path.parent p)) as [[|s]|];
    [destruct (stat w p) |..]; intros H; inversion H; reflexivity.
Qed.

Lemma try_mkdir_raises (exist_ok : bool) (p : list string) (h : M unit)
    (w w' : World) (e : exn) :
  try_mkdir exist_ok p h w = (Raise e, w') ->
  is_OSError e = true \/ exists w0, h w0 = (Raise e, w').
Proof.
  unfold try_mkdir.
  destruct (os_mkdir p w) as [[[]|e0] w0] eqn:Hmk; [discriminate |].
  apply os_mkdir_raises in Hmk.
  destruct e0; try discriminate; cbn [is_OSError andb];
    try (destruct (negb exist_ok || negb (is_dir w0 p)); [| discriminate];
         intros H; inversion H; now left).
  eauto.
Qed.

Lemma parent_shorter (p : list string) :
  Path.parent p <> p -> length (Path.parent p) < length p.
Proof.
  destruct p as [|c p _] using rev_ind; [cbn; congruence |].
  intros Hne. destruct (parent_snoc_cases p c) as [H | H]; [| contradiction].
  rewrite H, length_app. cbn. lia.
Qed.

Lemma Path_mkdir_parents_raises (n : nat) :
  forall (p : list string) (exist_ok : bool) (w w' : World) (e : exn),
    length p <= n ->
    Path_mkdir_parents exist_ok p w = (Raise e, w') -> is_OSError e = true.
Proof.
  induction n as [|n IH]; intros p exist_ok w w' e Hlen Hrun.
  - destruct p; [| cbn in Hlen; lia].
    rewrite Path_mkdir_parents_step in Hrun.
    apply try_mkdir_raises in Hrun as [He | [w0 Hrun]]; [exact He |].
    cbn in Hrun. inversion Hrun. reflexivity.
  - rewrite Path_mkdir_parents_step in Hrun.
    apply try_mkdir_raises in Hrun as [He | [w0 Hrun]]; [exact He |].
    destruct (bool_decide (Path.parent p = p)) eqn:Htop.
    { inversion Hrun. reflexivity. }
    apply bool_decide_eq_false, parent_shorter in Htop.
    apply bind_raise_inv in Hrun as [Hrun | [[] [w1 [_ Hrun]]]].
    + eapply IH; [| exact Hrun]. lia.
    + apply try_mkdir_raises in Hrun as [He | [w2 Hrun]]; [exact He |].
      inversion Hrun. reflexivity.
Qed.

Lemma Path_write_text_raises (p : list string) (data : string) (w w' : World)
    (e : exn) :
  Path_write_text p data w = (Raise e, w') -> is_OSError e = true.
Proof.
  unfold Path_write_text.
  destruct (stat w (Path.parent p)) as [[|s]|];
    [destruct (stat w p) as [[|s]|] |..]; intros H;
    try discriminate; inversion H; reflexivity.
Qed.

(** ** One job *)

Lemma job_local_path_eq (out_root : list string) (build plat : string) :
  job_local_path out_root build plat =
  job_dir out_root build plat ++ ["latest_commits.txt"].
Proof. unfold job_local_path, job_dir. now apply joinpath_name. Qed.

Lemma job_local_path_parent (out_root : list string) (build plat : string) :
  Path.parent (job_local_path out_root build plat) = job_dir out_root build plat.
Proof. rewrite job_local_path_eq. now apply parent_snoc. Qed.

Lemma job_meta_path_eq (out_root : list string) (build plat : string) :
  job_meta_path out_root build plat = job_dir out_root build plat ++ ["meta.json"].
Proof.
  unfold job_meta_path. rewrite job_local_path_parent. now apply joinpath_name.
Qed.

Lemma job_paths_differ (out_root : list string) (build plat : string) :
  job_local_path out_root build plat <> job_meta_path out_root build plat.
Proof.
  rewrite job_local_path_eq, job_meta_path_eq.
  intros H. apply app_inv_head in H. discriminate.
Qed.

(** The timestamp of [write_meta]: the civil time the clock gives for the
    zone, followed by the fixed offset. *)
Lemma isoformat_now (clock : nat -> Z -> datetime) (w : World) :
  exists now,
    datetime_now clock (timezone (timedelta 5 30)) w =
      (Ok now, mkWorld (fs w) (requests w) (S (clock_reads w)) (trace w)) /\
    isoformat now =
      isoformat_local (clock (clock_reads w) (timezone (timedelta 5 30)))
      +:+ "+05:30".
Proof. eexists. split; reflexivity. Qed.

Section JobFacts.

Context (session : nat -> Request -> Reply).
Context (clock : nat -> Z -> datetime).
Context (json_dumps : Json -> Z -> string).
Context (args : Args) (auth : option (string * string)).
Context (headers : list (string * string)) (base : string).
Context (out_root : list string) (build plat : string).

#[local] Abbreviation local := (job_local_path out_root build plat).
#[local] Abbreviation meta := (job_meta_path out_root build plat).
#[local] Abbreviation dir := (job_dir out_root build plat).
#[local] Abbreviation target_url := (build_target_url base build plat).
#[local] Abbreviation run_job := (main_job session clock json_dumps args auth headers base
                       out_root build plat).
#[local] Abbreviation fetch := (job_fetch session args auth headers base out_root build plat).

(** The fetch of a job always returns, and touches neither the file system
    nor the clock; it requests nothing but the target URL. *)
Lemma job_fetch_returns (w : World) :
  exists r w1 evs,
    fetch w = (Ok r, w1) /\ result_shape r /\
    fs w1 = fs w /\ clock_reads w1 = clock_reads w /\
    trace w1 = trace w ++ job_announce base out_root build plat :: evs /\
    Forall (fun e => e = EvGet (mkRequest target_url auth headers TIMEOUT) \/
                     exists q, e = EvSleep q) evs.
Proof.
  unfold job_fetch.
  destruct (fetch_url_returns session target_url auth headers (retries args)
              TIMEOUT (add_event (job_announce base out_root build plat) w))
    as [r [w1 [evs [Hrun [Hshape [Hfs [Hclk [Htr Hall]]]]]]]].
  exists r, w1, evs. repeat split; try assumption.
  rewrite Htr. cbn [add_event trace]. now rewrite <- app_assoc.
Qed.

(** A job whose fetch brings no content appends one record to the error
    list, leaves the success count alone and writes nothing. *)
Lemma main_job_failed (errors : list Json) (n : nat) (w w1 : World)
    (status : option Z) (hd : option (list (string * string))) :
  fetch w = (Ok (None, status, hd), w1) ->
  run_job (errors, n) w =
  (Ok (errors ++ [error_record (retries args) base build plat status], n),
   add_event (EvPrint Stderr (error_message (retries args) target_url status)) w1).
Proof.
  intros Hf. unfold job_fetch in Hf.
  unfold main_job, bind at 1, print at 1.
  unfold bind at 1. change (add_event (EvPrint Stdout _) w)
    with (add_event (job_announce base out_root build plat) w).
  rewrite Hf. unfold error_record, error_message.
  destruct status as [s|]; [destruct (in_401_403 s) |]; reflexivity.
Qed.

(** A job whose fetch brings content, once the directory of the job is
    there: both files are written, the success count grows by one and the
    error list is left alone. *)
Lemma main_job_persist (errors : list Json) (n : nat) (w w1 w2 : World)
    (c : string) (status : option Z) (hd : option (list (string * string))) :
  fetch w = (Ok (Some c, status, hd), w1) ->
  Path_mkdir_parents true dir w1 = (Ok tt, w2) ->
  stat w2 dir = Some Dir ->
  is_dir w2 local = false ->
  is_dir w2 meta = false ->
  run_job (errors, n) w =
  (Ok (errors, S n),
   mkWorld
     (<[meta := File (json_dumps
                        (meta_record build plat
                           (isoformat_local
                              (clock (clock_reads w2) (timezone (timedelta 5 30)))
                            +:+ "+05:30")
                           target_url) 2)]>
        (<[local := File c]> (fs w2)))
     (requests w2) (S (clock_reads w2))
     (trace w2 ++ [job_saved out_root build plat c])).
Proof.
  intros Hf Hmk Hdir Hloc Hmeta. unfold job_fetch in Hf.
  unfold main_job, bind at 1, print at 1.
  unfold bind at 1. change (add_event (EvPrint Stdout _) w)
    with (add_event (job_announce base out_root build plat) w).
  rewrite Hf.
  change (out_root // build // plat // "latest_commits.txt") with local.
  unfold bind at 1, write_file, bind at 1.
  rewrite job_local_path_parent, Hmk.
  (* the body *)
  unfold Path_write_text at 1. rewrite job_local_path_parent, Hdir.
  unfold is_dir in Hloc.
  assert (Hw : match stat w2 local with
               | Some Dir => (Raise IsADirectoryError, w2)
               | _ => (Ok tt, set_fs (insert local (File c)) w2)
               end = (@Ok unit tt, set_fs (insert local (File c)) w2)).
  { destruct (stat w2 local) as [[|s]|]; [discriminate | reflexivity | reflexivity]. }
  rewrite Hw. clear Hw.
  (* the metadata *)
  assert (Hlnt : Path.parent local <> local).
  { rewrite job_local_path_eq. now apply parent_snoc_neq. }
  assert (Hmnt : Path.parent meta <> meta).
  { rewrite job_meta_path_eq. now apply parent_snoc_neq. }
  assert (Hmpar : Path.parent meta = dir).
  { rewrite job_meta_path_eq. now apply parent_snoc. }
  assert (Hld : local <> dir).
  { intros H. apply Hlnt. now rewrite job_local_path_parent. }
  unfold bind at 1, write_meta, bind at 1.
  destruct (isoformat_now clock (set_fs (insert local (File c)) w2))
    as [now [Hnow Hiso]].
  rewrite Hnow, Hiso. cbn [set_fs clock_reads fs requests trace].
  change (Path.parent local // "meta.json") with meta.
  unfold Path_write_text. rewrite Hmpar.
  set (w3 := mkWorld (<[local := File c]> (fs w2)) _ _ _).
  assert (Hd3 : stat w3 dir = Some Dir).
  { change w3 with (mkWorld (fs (set_fs (insert local (File c)) w2))
                      (requests w2) (S (clock_reads w2)) (trace w2)).
    unfold stat in *. cbn [fs set_fs] in *.
    destruct (bool_decide (Path.parent dir = dir)); [reflexivity |].
    now rewrite lookup_insert_ne. }
  assert (Hm3 : stat w3 meta = stat w2 meta).
  { unfold stat. rewrite bool_decide_eq_false_2 by exact Hmnt.
    subst w3. cbn [fs]. apply lookup_insert_ne, job_paths_differ. }
  rewrite Hd3, Hm3. unfold is_dir in Hmeta.
  destruct (stat w2 meta) as [[|s]|]; [discriminate | reflexivity | reflexivity].
Qed.

(** The same, from a world in which nothing stands in the way: the
    directory of the job is made if need be. *)
Lemma main_job_persist_clear (errors : list Json) (n : nat) (w w1 : World)
    (c : string) (status : option Z) (hd : option (list (string * string))) :
  fetch w = (Ok (Some c, status, hd), w1) ->
  persist_clear w local = true ->
  exists m' : gmap (list string) node,
    run_job (errors, n) w =
    (Ok (errors, S n),
     mkWorld
       (<[meta := File (json_dumps
                          (meta_record build plat
                             (isoformat_local
                                (clock (clock_reads w) (timezone (timedelta 5 30)))
                              +:+ "+05:30")
                             target_url) 2)]>
          (<[local := File c]> m'))
       (requests w1) (S (clock_reads w))
       (trace w1 ++ [job_saved out_root build plat c])) /\
    stat (set_fs (fun _ => m') w) dir = Some Dir /\
    stat (set_fs (fun _ => m') w) (Path.parent dir) = Some Dir /\
    (forall q, ~ In q (Path.inits dir) -> m' !! q = fs w !! q) /\
    (forall q, m' !! q = fs w !! q \/ m' !! q = Some Dir).
Proof.
  intros Hf Hclear.
  destruct (job_fetch_returns w) as [r [w1' [evs [Hf' [_ [Hfs [Hclk _]]]]]]].
  rewrite Hf in Hf'. injection Hf' as <- <-.
  unfold persist_clear in Hclear.
  apply andb_true_iff in Hclear as [Hclear Hm].
  apply andb_true_iff in Hclear as [Hway Hl].
  apply negb_true_iff in Hl, Hm.
  change (Path.parent local // "meta.json") with meta in Hm.
  rewrite job_local_path_parent in Hway.
  assert (Hway1 : no_file_on_the_way w1 dir = true).
  { rewrite <- Hway. unfold no_file_on_the_way, stat. now rewrite Hfs. }
  destruct (Path_mkdir_parents_clear dir w1 Hway1)
    as [m' [Hmk [Hdir [Hpar [Hframe Hnew]]]]].
  exists m'.
  assert (Hnl : ~ In local (Path.inits dir)).
  { rewrite job_local_path_eq. apply snoc_not_in_inits. }
  assert (Hnm : ~ In meta (Path.inits dir)).
  { rewrite job_meta_path_eq. apply snoc_not_in_inits. }
  split; [| split; [exact Hdir | split; [exact Hpar | split]]].
  3:{ intros q. rewrite <- Hfs. apply Hnew. }
  - rewrite (main_job_persist errors n w w1 (set_fs (fun _ => m') w1) c status hd
               Hf Hmk Hdir).
    + cbn [set_fs fs requests clock_reads trace]. now rewrite Hclk.
    + unfold is_dir, stat in *. cbn [set_fs fs].
      destruct (bool_decide (Path.parent local = local)); [exact Hl |].
      now rewrite (Hframe _ Hnl), Hfs.
    + unfold is_dir, stat in *. cbn [set_fs fs].
      destruct (bool_decide (Path.parent meta = meta)).
      * exact Hm.
      * now rewrite (Hframe _ Hnm), Hfs.
  - intros q Hq. rewrite (Hframe q Hq). now rewrite Hfs.
Qed.


(** What a job does once its fetch has brought content. *)
Lemma main_job_content (errors : list Json) (n : nat) (w w1 : World)
    (c : string) (status : option Z) (hd : option (list (string * string))) :
  fetch w = (Ok (Some c, status, hd), w1) ->
  run_job (errors, n) w =
  (write_file local c ;;
   write_meta clock json_dumps local build plat target_url ;;
   print Stdout ("Saved " +:+ Path.to_str local +:+ " ("
                 +:+ pretty (String.length c) +:+ " bytes)") ;;
   ret (errors, S n))%py w1.
Proof.
  intros Hf. unfold job_fetch in Hf.
  unfold main_job, bind at 1, print at 1.
  unfold bind at 1. change (add_event (EvPrint Stdout _) w)
    with (add_event (job_announce base out_root build plat) w).
  now rewrite Hf.
Qed.

(** A job that ends without raising has added either one error record or
    one success, according to its fetch. *)
Lemma main_job_accounts (st st' : list Json * nat) (w w' : World) :
  run_job st w = (Ok st', w') ->
  st' = (fst st ++ records_of (retries args) base (build, plat, fst (fetch w)),
         snd st + (if reached_success (build, plat, fst (fetch w)) then 1 else 0)).
Proof.
  destruct st as [errors n]. intros Hrun.
  destruct (job_fetch_returns w) as [r [w1 [evs [Hf _]]]].
  rewrite Hf. cbn [fst snd].
  destruct r as [[[c|] status] hd].
  - rewrite (main_job_content errors n w w1 c status hd Hf) in Hrun.
    apply bind_ok_inv in Hrun as [? [? [_ Hrun]]].
    apply bind_ok_inv in Hrun as [? [? [_ Hrun]]].
    apply bind_ok_inv in Hrun as [? [? [_ Hrun]]].
    unfold ret in Hrun. injection Hrun as <- _.
    cbn. rewrite app_nil_r. f_equal. lia.
  - rewrite (main_job_failed errors n w w1 status hd Hf) in Hrun.
    injection Hrun as <- _. cbn. f_equal. lia.
Qed.

(** A job raises only while it writes its files: its fetch has brought
    content and the exception is an [OSError]. *)
Lemma main_job_raises (st : list Json * nat) (w w' : World) (e : exn) :
  run_job st w = (Raise e, w') ->
  is_OSError e = true /\
  exists c status hd w1,
    fetch w = (Ok (Some c, status, hd), w1).
Proof.
  destruct st as [errors n]. intros Hrun.
  destruct (job_fetch_returns w) as [r [w1 [evs [Hf _]]]].
  destruct r as [[[c|] status] hd].
  2:{ rewrite (main_job_failed errors n w w1 status hd Hf) in Hrun.
      discriminate. }
  split; [| eauto].
  rewrite (main_job_content errors n w w1 c status hd Hf) in Hrun.
  apply bind_raise_inv in Hrun as [Hrun | [[] [w2 [_ Hrun]]]].
  - unfold write_file in Hrun.
    apply bind_raise_inv in Hrun as [Hrun | [[] [w2 [_ Hrun]]]].
    + eapply Path_mkdir_parents_raises; [reflexivity | exact Hrun].
    + eapply Path_write_text_raises, Hrun.
  - apply bind_raise_inv in Hrun as [Hrun | [[] [w3 [_ Hrun]]]].
    + unfold write_meta in Hrun.
      apply bind_raise_inv in Hrun as [Hrun | [now [w3 [_ Hrun]]]];
        [discriminate |].
      eapply Path_write_text_raises, Hrun.
    + apply bind_raise_inv in Hrun as [Hrun | [[] [w4 [_ Hrun]]]]; discriminate.
Qed.

End JobFacts.


Lemma gets_of_app (l1 l2 : list Event) :
  gets_of (l1 ++ l2) = gets_of l1 ++ gets_of l2.
Proof. apply flat_map_app. Qed.







(** ** The loop over the jobs *)

Section LoopFacts.

Context (session : nat -> Request -> Reply).
Context (clock : nat -> Z -> datetime).
Context (json_dumps : Json -> Z -> string).
Context (args : Args) (auth : option (string * string)).
Context (headers : list (string * string)) (base : string).
Context (out_root : list string).

#[local] Abbreviation body :=
  (fun job : string * string =>
     main_job session clock json_dumps args auth headers base out_root
       (fst job) (snd job)).
#[local] Abbreviation log_of :=
  (job_log session clock json_dumps args auth headers base out_root).

Lemma main_loop_flat (w : World) :
  main_loop session clock json_dumps args auth headers base out_root w =
  for_each (jobs_of args) body ([], 0) w.
Proof. unfold main_loop, jobs_of. now rewrite for_each_nested. Qed.

(** A loop that runs through has got to every job, and has added one error
    record for each job without content and one success for each job with
    content. *)
Lemma loop_accounts (jobs : list (string * string)) :
  forall (st st' : list Json * nat) (w w' : World),
    for_each jobs body st w = (Ok st', w') ->
    List.map fst (log_of jobs st w) = jobs /\
    Forall (fun e => exists fr, snd e = Ok fr /\ result_shape fr)
      (log_of jobs st w) /\
    st' = (fst st ++ flat_map (records_of (retries args) base) (log_of jobs st w),
           snd st + length (List.filter reached_success (log_of jobs st w))).
Proof.
  induction jobs as [|[b p] jobs IH]; intros st st' w w' Hrun.
  - cbn in *. unfold ret in Hrun. injection Hrun as <- _.
    rewrite app_nil_r, Nat.add_0_r. now destruct st.
  - cbn [for_each] in Hrun.
    apply bind_ok_inv in Hrun as [st1 [w1 [Hjob Hrest]]].
    cbn [fst snd] in Hjob.
    destruct (IH st1 st' w1 w' Hrest) as [Hjobs [Hall Hst]].
    cbn [job_log]. rewrite Hjob.
    pose proof (main_job_accounts session clock json_dumps args auth headers
                  base out_root b p st st1 w w1 Hjob) as Hst1.
    destruct (job_fetch_returns session args auth headers base out_root b p w)
      as [r [wf [evs [Hf [Hshape _]]]]].
    split; [cbn [List.map fst]; now rewrite Hjobs |]. split.
    + constructor; [| exact Hall]. cbn [snd]. rewrite Hf. eauto.
    + rewrite Hst, Hst1. cbn [fst snd flat_map List.filter].
      rewrite <- app_assoc. f_equal.
      destruct (reached_success _); cbn [length]; lia.
Qed.

(** A loop is cut short only by a job that raises while it writes its
    files: the last job of the log, whose fetch has brought content. *)
Lemma loop_raises (jobs : list (string * string)) :
  forall (st : list Json * nat) (w w' : World) (e : exn),
    for_each jobs body st w = (Raise e, w') ->
    is_OSError e = true /\
    exists before build plat c status hd,
      log_of jobs st w = before ++ [((build, plat), Ok (Some c, status, hd))].
Proof.
  induction jobs as [|[b p] jobs IH]; intros st w w' e Hrun; [discriminate |].
  cbn [for_each] in Hrun. cbn [job_log].
  apply bind_raise_inv in Hrun as [Hjob | [st1 [w1 [Hjob Hrest]]]];
    cbn [fst snd] in Hjob; rewrite Hjob.
  - destruct (main_job_raises session clock json_dumps args auth headers base
                out_root b p st w w' e Hjob) as [He [c [status [hd [w1 Hf]]]]].
    split; [exact He |]. exists [], b, p, c, status, hd. now rewrite Hf.
  - destruct (IH st1 w1 w' e Hrest)
      as [He [before [build [plat [c [status [hd Hlog]]]]]]].
    split; [exact He |]. rewrite Hlog.
    eexists (_ :: before), build, plat, c, status, hd. reflexivity.
Qed.

(** The log of a loop over two lists of jobs, when the first part runs
    through. *)
Lemma job_log_app (jobs1 jobs2 : list (string * string)) :
  forall (st : list Json * nat) (w : World) (st1 : list Json * nat) (w1 : World),
    for_each jobs1 body st w = (Ok st1, w1) ->
    log_of (jobs1 ++ jobs2) st w = log_of jobs1 st w ++ log_of jobs2 st1 w1.
Proof.
  induction jobs1 as [|[b p] jobs1 IH]; intros st w st1 w1 Hrun.
  - cbn in Hrun. injection Hrun as <- <-. reflexivity.
  - cbn [for_each] in Hrun.
    apply bind_ok_inv in Hrun as [st0 [w0 [Hjob Hrest]]].
    cbn [fst snd] in Hjob. cbn [app job_log]. rewrite Hjob.
    now rewrite (IH st0 w0 st1 w1 Hrest).
Qed.

(** Each job of the log counts once, as an error or as a success. *)
Lemma log_counts
    (log : list ((string * string)
                 * result (option string * option Z
                           * option (list (string * string))))) :
  Forall (fun e => exists fr, snd e = Ok fr /\ result_shape fr) log ->
  length (flat_map (records_of (retries args) base) log)
  + length (List.filter reached_success log) = length log.
Proof.
  induction 1 as [|[[b p] r] log [fr [Hr Hshape]] _ IH]; [reflexivity |].
  cbn [snd] in Hr. subst r.
  cbn [flat_map List.filter]. rewrite length_app.
  destruct fr as [[[c|] status] hd]; cbn; lia.
Qed.

End LoopFacts.

(** ** Runs with nothing in the way *)

Lemma plain_name_spec (s : string) :
  plain_name s = true -> Path.of_str s = [s] /\ Path.is_anchor s = false.
Proof.
  unfold plain_name. intros H.
  apply andb_true_iff in H as [H _].
  apply andb_true_iff in H as [H _]. apply andb_true_iff in H as [H _].
  apply andb_true_iff in H as [H _]. apply andb_true_iff in H as [H1 H2].
  apply bool_decide_eq_true in H1. apply negb_true_iff in H2. auto.
Qed.

Lemma job_dir_plain (out_root : list string) (b p : string) :
  plain_name b = true -> plain_name p = true ->
  job_dir out_root b p = out_root ++ [b; p].
Proof.
  intros [Hb1 Hb2]%plain_name_spec [Hp1 Hp2]%plain_name_spec.
  unfold job_dir. rewrite !joinpath_name by assumption.
  now rewrite <- app_assoc.
Qed.

Lemma job_clear_same_fs (out_root : list string) (w w' : World)
    (job : string * string) :
  fs w' = fs w -> job_clear out_root w' job = job_clear out_root w job.
Proof.
  intros Hfs. unfold job_clear, persist_clear, no_file_on_the_way, is_dir.
  rewrite !(stat_same_fs w' w _ Hfs). f_equal. f_equal. f_equal.
  induction (Path.inits (Path.parent (job_local_path out_root (fst job) (snd job))))
    as [|q qs IH]; [reflexivity |].
  cbn [forallb]. now rewrite IH, (stat_same_fs w' w _ Hfs).
Qed.

(** The files that one job has written, and the directories that it has
    made, are not in the way of another job. *)
Lemma persist_clear_after (out_root : list string) (b p b' p' : string)
    (w w' : World) (m' : gmap (list string) node) (x c : string) :
  plain_name b = true -> plain_name p = true ->
  plain_name b' = true -> plain_name p' = true ->
  (forall q, ~ In q (Path.inits (job_dir out_root b p)) -> m' !! q = fs w !! q) ->
  (forall q, m' !! q = fs w !! q \/ m' !! q = Some Dir) ->
  fs w' = <[job_meta_path out_root b p := File x]>
            (<[job_local_path out_root b p := File c]> m') ->
  persist_clear w (job_local_path out_root b' p') = true ->
  persist_clear w' (job_local_path out_root b' p') = true.
Proof.
  intros Hb Hp Hb' Hp' Hframe Hnew Hfs Hclear.
  pose proof (job_local_path_eq out_root b p) as Hl.
  pose proof (job_meta_path_eq out_root b p) as Hm.
  pose proof (job_local_path_eq out_root b' p') as Hl'.
  pose proof (job_meta_path_eq out_root b' p') as Hm'.
  pose proof (job_dir_plain out_root b p Hb Hp) as Hd.
  pose proof (job_dir_plain out_root b' p' Hb' Hp') as Hd'.
  assert (Hlook : forall q,
             (exists s, fs w' !! q = Some (File s)) /\
             (q = job_local_path out_root b p \/ q = job_meta_path out_root b p) \/
             fs w' !! q = m' !! q).
  { intros q. rewrite Hfs.
    destruct (decide (job_meta_path out_root b p = q)) as [<- | Hqm].
    { left. rewrite lookup_insert_eq. eauto. }
    rewrite lookup_insert_ne by exact Hqm.
    destruct (decide (job_local_path out_root b p = q)) as [<- | Hql].
    { left. rewrite lookup_insert_eq. eauto. }
    rewrite lookup_insert_ne by exact Hql. now right. }
  assert (Hlen3 : forall q, length q = length out_root + 3 ->
             ~ In q (Path.inits (job_dir out_root b p))).
  { intros q Hq Hin%inits_length. rewrite Hd, length_app in Hin. cbn in Hin. lia. }
  assert (Hfile : forall q, length q = length out_root + 3 ->
             is_dir w q = false -> is_dir w' q = false).
  { intros q Hq Hnd. unfold is_dir, stat in *.
    destruct (bool_decide (Path.parent q = q)); [exact Hnd |].
    destruct (Hlook q) as [[[s Hs] _] | Hq']; [now rewrite Hs |].
    now rewrite Hq', (Hframe q (Hlen3 q Hq)). }
  unfold persist_clear in *.
  change (Path.parent (job_local_path out_root b' p') // "meta.json")
    with (job_meta_path out_root b' p') in *.
  rewrite job_local_path_parent in *.
  apply andb_true_iff in Hclear as [Hclear Hmeta].
  apply andb_true_iff in Hclear as [Hway Hlocal].
  apply negb_true_iff in Hmeta, Hlocal.
  apply andb_true_iff. split; [apply andb_true_iff; split |].
  - unfold no_file_on_the_way in *. rewrite forallb_forall in Hway.
    apply forallb_forall. intros q Hq. specialize (Hway q Hq).
    apply inits_length in Hq. rewrite Hd', length_app in Hq. cbn in Hq.
    unfold stat in *.
    destruct (bool_decide (Path.parent q = q)); [reflexivity |].
    destruct (Hlook q) as [[_ [-> | ->]] | Hq'].
    + rewrite Hl, Hd, !length_app in Hq. cbn in Hq. lia.
    + rewrite Hm, Hd, !length_app in Hq. cbn in Hq. lia.
    + rewrite Hq'. destruct (Hnew q) as [-> | ->]; [exact Hway | reflexivity].
  - apply negb_true_iff. apply Hfile; [| exact Hlocal].
    rewrite Hl', Hd', !length_app. cbn. lia.
  - apply negb_true_iff. apply Hfile; [| exact Hmeta].
    rewrite Hm', Hd', !length_app. cbn. lia.
Qed.

Section ClearRuns.

Context (session : nat -> Request -> Reply).
Context (clock : nat -> Z -> datetime).
Context (json_dumps : Json -> Z -> string).
Context (args : Args) (auth : option (string * string)).
Context (headers : list (string * string)) (base : string).
Context (out_root : list string).

(** A job with plain names and nothing in its way returns, and leaves
    nothing in the way of the other jobs. *)
Lemma job_keeps_clear (b p : string) (others : list (string * string))
    (st : list Json * nat) (w : World) :
  plain_name b = true -> plain_name p = true ->
  job_clear out_root w (b, p) = true ->
  Forall (fun job => plain_name (fst job) = true /\ plain_name (snd job) = true)
    others ->
  Forall (fun job => job_clear out_root w job = true) others ->
  exists st' w',
    main_job session clock json_dumps args auth headers base out_root b p st w =
      (Ok st', w') /\
    Forall (fun job => job_clear out_root w' job = true) others.
Proof.
  intros Hb Hp Hclear Hplain Hothers. destruct st as [errors n].
  destruct (job_fetch_returns session args auth headers base out_root b p w)
    as [r [w1 [evs [Hf [_ [Hfs _]]]]]].
  destruct r as [[[c|] status] hd].
  2:{ eexists. eexists. split.
      - apply (main_job_failed session clock json_dumps args auth headers base
                 out_root b p errors n w w1 status hd Hf).
      - eapply Forall_impl; [exact Hothers |]. intros job Hjob.
        rewrite <- Hjob. apply job_clear_same_fs. exact Hfs. }
  apply andb_true_iff in Hclear as [Hclear _]. cbn [fst snd] in Hclear.
  destruct (main_job_persist_clear session clock json_dumps args auth headers
              base out_root b p errors n w w1 c status hd Hf Hclear)
    as [m' [Hrun [_ [_ [Hframe Hnew]]]]].
  eexists. eexists. split; [exact Hrun |].
  rewrite Forall_forall in Hplain, Hothers. apply Forall_forall.
  intros [b' p'] Hin. destruct (Hplain _ Hin) as [Hb' Hp'].
  specialize (Hothers _ Hin). cbn [fst snd] in Hb', Hp'.
  unfold job_clear in *. cbn [fst snd] in *.
  apply andb_true_iff in Hothers as [Hpc Hfit].
  apply andb_true_iff. split; [| exact Hfit].
  eapply (persist_clear_after out_root b p b' p' w _ m');
    [exact Hb | exact Hp | exact Hb' | exact Hp' | exact Hframe | exact Hnew
    | reflexivity | exact Hpc].
Qed.

(** A loop over jobs with plain names and nothing in their way runs
    through. *)
Lemma loop_runs_through (jobs : list (string * string)) :
  Forall (fun job => plain_name (fst job) = true /\ plain_name (snd job) = true)
    jobs ->
  forall (st : list Json * nat) (w : World),
    Forall (fun job => job_clear out_root w job = true) jobs ->
    exists st' w',
      for_each jobs
        (fun job => main_job session clock json_dumps args auth headers base
                      out_root (fst job) (snd job)) st w = (Ok st', w').
Proof.
  induction 1 as [|[b p] jobs [Hb Hp] Hplain IH]; intros st w Hclear.
  - exists st, w. reflexivity.
  - cbn [fst snd] in Hb, Hp.
    apply Forall_cons_iff in Hclear as [Hjob Hrest].
    destruct (job_keeps_clear b p jobs st w Hb Hp Hjob Hplain Hrest)
      as [st1 [w1 [Hrun Hc1]]].
    destruct (IH st1 w1 Hc1) as [st' [w' Hloop]].
    exists st', w'. cbn [for_each fst snd]. unfold bind. now rewrite Hrun.
Qed.

End ClearRuns.

Lemma jobs_of_plain (args : Args) :
  Forall (fun b => plain_name b = true) (builds args) ->
  Forall (fun p => plain_name p = true) (platforms args) ->
  Forall (fun job => plain_name (fst job) = true /\ plain_name (snd job) = true)
    (jobs_of args).
Proof.
  intros Hb Hp. apply Forall_forall. intros [b p] Hin.
  apply list_elem_of_In, in_prod_iff in Hin as [Hinb Hinp].
  rewrite Forall_forall in Hb, Hp. split.
  - apply Hb. now apply list_elem_of_In.
  - apply Hp. now apply list_elem_of_In.
Qed.

(** C5 (amended). A loop that runs through has got to every job of the
    cross-product of the builds and the platforms, in order; its error list
    holds exactly one record, with the build, the platform, the URL and the
    message, for each job whose fetch brought no content and none for the
    others, which are the ones counted as successes. A job whose fetch
    brought no content never raises: it returns with its record appended,
    and the loop goes on. But an exception that a job raises is not caught:
    the loop ends there with that exception, the jobs after it are not
    attempted and the job leaves no record. The loop does run through when
    at most 56 attempts are allowed, so that [time.sleep] takes every delay,
    the names are plain, nothing stands in the way of the jobs, the base
    URL, the credentials and the downloads are ASCII, and each call of the
    session returns a response or raises [RequestException]. *)
Theorem every_job_is_attempted_and_accounted
    (session : nat -> Request -> Reply) (clock : nat -> Z -> datetime)
    (json_dumps : Json -> Z -> string) (args : Args)
    (auth : option (string * string)) (headers : list (string * string))
    (base : string) (out_root : list string) (w : World) :
  ((retries args <= 56)%Z ->
   jobs_clear out_root (jobs_of args) w ->
   Forall (fun b => plain_name b = true) (builds args) ->
   Forall (fun p => plain_name p = true) (platforms args) ->
   ascii_only base = true ->
   credentials_encode auth headers = true ->
   serves_ascii session ->
   exists errors n w',
     main_loop session clock json_dumps args auth headers base out_root w =
       (Ok (errors, n), w')) /\
  (forall errors n w',
      main_loop session clock json_dumps args auth headers base out_root w =
        (Ok (errors, n), w') ->
      let log := job_log session clock json_dumps args auth headers base
                   out_root (jobs_of args) ([], 0) w in
      List.map fst log = list_prod (builds args) (platforms args) /\
      Forall (fun e => exists fr, snd e = Ok fr) log /\
      errors = flat_map (records_of (retries args) base) log /\
      n = length (List.filter reached_success log) /\
      length errors + n = length (builds args) * length (platforms args)) /\
  (forall (build plat : string) (st : list Json * nat) (w0 w1 : World)
          (status : option Z) (hd : option (list (string * string))),
      job_fetch session args auth headers base out_root build plat w0 =
        (Ok (None, status, hd), w1) ->
      exists w2 : World,
        main_job session clock json_dumps args auth headers base out_root
          build plat st w0 =
        (Ok (fst st ++ [JObj [("build", JStr build); ("platform", JStr plat);
                              ("url", JStr (build_target_url base build plat));
                              ("error", JStr (error_message (retries args)
                                                (build_target_url base build plat)
                                                status))]],
             snd st), w2)) /\
  (forall (before after : list (string * string)) (build plat : string)
          (st1 : list Json * nat) (w1 w2 : World) (e : exn),
      jobs_of args = before ++ (build, plat) :: after ->
      for_each before
        (fun job => main_job session clock json_dumps args auth headers base
                      out_root (fst job) (snd job)) ([], 0) w = (Ok st1, w1) ->
      main_job session clock json_dumps args auth headers base out_root
        build plat st1 w1 = (Raise e, w2) ->
      main_loop session clock json_dumps args auth headers base out_root w =
        (Raise e, w2) /\
      List.map fst
        (job_log session clock json_dumps args auth headers base out_root
           (jobs_of args) ([], 0) w) = before ++ [(build, plat)]).
Proof.
  split; [| split; [| split]].
  - intros _ [_ Hclear] Hb Hp _ _ _. rewrite main_loop_flat.
    destruct (loop_runs_through session clock json_dumps args auth headers base
                out_root (jobs_of args) (jobs_of_plain args Hb Hp) ([], 0) w
                Hclear) as [[errors n] [w' Hrun]].
    eauto.
  - intros errors n w' Hrun log. rewrite main_loop_flat in Hrun.
    destruct (loop_accounts session clock json_dumps args auth headers base
                out_root (jobs_of args) _ _ _ _ Hrun) as [Hjobs [Hall Hst]].
    fold log in Hjobs, Hall, Hst. cbn [fst snd] in Hst.
    injection Hst as He Hn. cbn [Nat.add app] in He, Hn.
    split; [exact Hjobs |]. split.
    { eapply Forall_impl; [exact Hall |]. intros e [fr [Hfr _]]. eauto. }
    split; [exact He |]. split; [exact Hn |].
    rewrite He, Hn, (log_counts args base log Hall).
    rewrite <- (length_map fst log), Hjobs. apply length_prod.
  - intros build plat [errs k] w0 w1 status hd Hf.
    eexists.
    apply (main_job_failed session clock json_dumps args auth headers base
             out_root build plat errs k w0 w1 status hd Hf).
  - intros before after build plat st1 w1 w2 e Hjobs Hbefore Hjob.
    rewrite main_loop_flat, Hjobs. split.
    + rewrite for_each_app. unfold bind at 1. rewrite Hbefore.
      cbn [for_each fst snd]. unfold bind. now rewrite Hjob.
    + rewrite (job_log_app session clock json_dumps args auth headers base
                 out_root before ((build, plat) :: after) ([], 0) w st1 w1 Hbefore).
      rewrite map_app. f_equal.
      * apply (loop_accounts session clock json_dumps args auth headers base
                 out_root before _ _ _ _ Hbefore).
      * cbn [job_log]. now rewrite Hjob.
Qed.

Lemma every_job_is_attempted_and_accounted_witness :
  (retries sample_args_2x2 <= 56)%Z /\
  jobs_clear sample_out_root (jobs_of sample_args_2x2) empty_world /\
  Forall (fun b => plain_name b = true) (builds sample_args_2x2) /\
  Forall (fun p => plain_name p = true) (platforms sample_args_2x2) /\
  ascii_only sample_base = true /\
  credentials_encode None [] = true /\
  serves_ascii (server_denies_at 2 sample_body) /\
  exists (errors : list Json) (n : nat) (w' : World),
    main_loop (server_denies_at 2 sample_body) sample_clock sample_dumps
      sample_args_2x2 None [] sample_base sample_out_root empty_world =
      (Ok (errors, n), w') /\
    length errors + n = length (builds sample_args_2x2)
                        * length (platforms sample_args_2x2).
Proof.
  assert (Hr : (retries sample_args_2x2 <= 56)%Z) by (vm_compute; discriminate).
  assert (Hclear : jobs_clear sample_out_root (jobs_of sample_args_2x2)
                     empty_world)
    by (split; [reflexivity | repeat constructor]).
  assert (Hb : Forall (fun b => plain_name b = true) (builds sample_args_2x2))
    by (repeat constructor).
  assert (Hp : Forall (fun p => plain_name p = true) (platforms sample_args_2x2))
    by (repeat constructor).
  split; [exact Hr |]. split; [exact Hclear |].
  assert (Hs : serves_ascii (server_denies_at 2 sample_body)).
  { intros i rq body hd. unfold server_denies_at.
    destruct (i =? 2)%nat; intros [= <- _]. reflexivity. }
  split; [exact Hb |]. split; [exact Hp |].
  split; [reflexivity |]. split; [reflexivity |]. split; [exact Hs |].
  pose proof (every_job_is_attempted_and_accounted
                (server_denies_at 2 sample_body) sample_clock sample_dumps
                sample_args_2x2 None [] sample_base sample_out_root empty_world)
    as [Hruns [Hacc _]].
  destruct (Hruns Hr Hclear Hb Hp eq_refl eq_refl Hs) as [errors [n [w' Hrun]]].
  exists errors, n, w'. split; [exact Hrun |].
  exact (proj2 (proj2 (proj2 (proj2 (Hacc errors n w' Hrun))))).
Defined.

(** C5, as it was claimed, fails. Four jobs, a server that serves every
    one of them, and a regular file where the directory of the first build
    should be: the first job fetches its content but cannot write it, and
    the exception ends the run. One request has been sent, for the first
    job; the three other jobs are not attempted; the job that did not reach
    its success leaves no record, and neither its file nor a report is
    written. *)
Theorem blocked_job_aborts_the_run :
  let run := main (server_always 200 sample_body) sample_clock sample_dumps
               sample_args_2x2 ∅ blocked_world in
  length (jobs_of sample_args_2x2) = 4 /\
  fst run = Raise NotADirectoryError /\
  exit_status (fst run) = 1%Z /\
  gets_of (trace (snd run)) =
    [mkRequest (build_target_url sample_base "3025" "windows") None [] TIMEOUT] /\
  List.map fst
    (job_log (server_always 200 sample_body) sample_clock sample_dumps
       sample_args_2x2 None [] sample_base sample_out_root
       (jobs_of sample_args_2x2) ([], 0) blocked_world) = [("3025", "windows")] /\
  fs (snd run) !! job_local_path sample_out_root "3025" "windows" = None /\
  fs (snd run) !! (sample_out_root // "fetch_errors.json") = None.
Proof.
  cbv zeta.
  split; [vm_compute; reflexivity |]. split; [vm_compute; reflexivity |].
  split; [vm_compute; reflexivity |]. split; [vm_compute; reflexivity |].
  split; [vm_compute; reflexivity |]. split; vm_compute; reflexivity.
Qed.

(** ** The end of the run *)

(** What [main] does before and after its loop: it may print one warning,
    runs the loop with some credentials, prints the summary, and then either
    exits with 0 or writes the report and exits with 2. *)
Lemma main_around_loop (session : nat -> Request -> Reply)
    (clock : nat -> Z -> datetime) (json_dumps : Json -> Z -> string)
    (args : Args) (environ : gmap string string) (w : World) :
  exists auth headers w0,
    requests w0 = requests w /\ fs w0 = fs w /\
    gets_of (trace w0) = gets_of (trace w) /\
    main session clock json_dumps args environ w =
    match main_loop session clock json_dumps args auth headers
            (PyStr.rstrip "/" (base_url args)) (Path.of_str (out args)) w0 with
    | (Ok (errors, n), w1) =>
        (if negb (bool_decide (errors = [])) then
           Path_write_text (Path.of_str (out args) // "fetch_errors.json")
             (json_dumps (JArr errors) 2%Z) ;;
           print Stderr ("Errors written to "
                         +:+ Path.to_str (Path.of_str (out args)
                                          // "fetch_errors.json")) ;;
           sys_exit 2
         else sys_exit 0)
          (add_event
             (EvPrint Stdout
                (newline +:+ "Completed. Successful files: " +:+ pretty n
                 +:+ ". Errors: " +:+ pretty (length errors))) w1)
    | (Raise e, w1) => (Raise e, w1)
    end.
Proof.
  unfold main.
  match goal with
  | |- context [bind (if ?c then ?a else ?b) _] => set (warn := if c then a else b)
  end.
  assert (Hwarn : exists w0, warn w = (Ok tt, w0) /\ requests w0 = requests w /\
                    fs w0 = fs w /\ gets_of (trace w0) = gets_of (trace w)).
  { subst warn.
    destruct (negb (truthy (environ !! "ARTIFACTORY_TOKEN")) &&
              (negb (truthy (user args)) || negb (truthy (password args)))).
    - eexists. split; [reflexivity |]. cbn. rewrite gets_of_app. cbn.
      now rewrite app_nil_r.
    - exists w. now cbn. }
  destruct Hwarn as [w0 [Hw0 [Hreq0 [Hfs0 Hg0]]]].
  match goal with
  | |- context [main_loop _ _ _ _ ?a ?h _ _] => exists a, h, w0
  end.
  split; [exact Hreq0 |]. split; [exact Hfs0 |]. split; [exact Hg0 |].
  unfold bind at 1. rewrite Hw0.
  unfold bind at 1.
  match goal with
  | |- match ?l with _ => _ end = _ => destruct l as [[[errors n]|e] w1]
  end; reflexivity.
Qed.

(** How a run ends, from the outcome of its loop: with no error the
    process exits with 0 and writes nothing more; with errors and an
    existing output root it writes the report and exits with 2; with errors
    and no output root, writing the report raises and the exit status is
    that of an uncaught exception. *)
Lemma main_exit_status (session : nat -> Request -> Reply)
    (clock : nat -> Z -> datetime) (json_dumps : Json -> Z -> string)
    (args : Args) (environ : gmap string string) (w : World) :
  exists auth headers w0,
    requests w0 = requests w /\ fs w0 = fs w /\
    forall errors n w1,
      main_loop session clock json_dumps args auth headers
        (PyStr.rstrip "/" (base_url args)) (Path.of_str (out args)) w0 =
        (Ok (errors, n), w1) ->
      (errors = [] ->
       exists w2,
         main session clock json_dumps args environ w =
           (Raise (SystemExit 0), w2) /\
         exit_status (Raise (SystemExit 0)) = 0%Z /\ fs w2 = fs w1) /\
      (errors <> [] ->
       stat w1 (Path.of_str (out args)) = Some Dir ->
       is_dir w1 (Path.of_str (out args) // "fetch_errors.json") = false ->
       exists w2,
         main session clock json_dumps args environ w =
           (Raise (SystemExit 2), w2) /\
         exit_status (Raise (SystemExit 2)) = 2%Z /\
         fs w2 = <[Path.of_str (out args) // "fetch_errors.json" :=
                     File (json_dumps (JArr errors) 2%Z)]> (fs w1)) /\
      (errors <> [] ->
       stat w1 (Path.of_str (out args)) = None ->
       exists w2,
         main session clock json_dumps args environ w =
           (Raise FileNotFoundError, w2) /\
         exit_status (Raise FileNotFoundError) = 1%Z /\ fs w2 = fs w1).
Proof.
  destruct (main_around_loop session clock json_dumps args environ w)
    as [auth [headers [w0 [Hreq [Hfs [_ Hmain]]]]]].
  exists auth, headers, w0. split; [exact Hreq |]. split; [exact Hfs |].
  intros errors n w1 Hloop. rewrite Hloop in Hmain. rewrite Hmain.
  assert (Hpar : Path.parent (Path.of_str (out args) // "fetch_errors.json") =
                 Path.of_str (out args)).
  { rewrite joinpath_name by reflexivity. now apply parent_snoc. }
  split; [| split].
  - intros ->. eexists. split; [reflexivity |]. split; reflexivity.
  - intros Hne Hdir Hfree.
    rewrite bool_decide_eq_false_2 by exact Hne. cbn [negb].
    unfold bind, Path_write_text. rewrite Hpar.
    rewrite !(stat_same_fs (add_event _ w1) w1) by reflexivity.
    rewrite Hdir. unfold is_dir in Hfree.
    eexists. split.
    { destruct (stat w1 (Path.of_str (out args) // "fetch_errors.json"))
        as [[|c]|]; [discriminate | reflexivity | reflexivity]. }
    split; reflexivity.
  - intros Hne Hnone.
    rewrite bool_decide_eq_false_2 by exact Hne. cbn [negb].
    unfold bind, Path_write_text. rewrite Hpar.
    rewrite !(stat_same_fs (add_event _ w1) w1) by reflexivity.
    rewrite Hnone. eexists. split; [reflexivity |]. split; reflexivity.
Qed.

(** C4 (what the code does). One job, whose three requests are all
    answered with 500, and an output root, the default [data/builds], that
    does not exist yet: the error list is not empty, but writing
    [fetch_errors.json] raises [FileNotFoundError], because nothing has made
    the directory, so that the process ends with status 1, not 2, and with
    no error file. *)
Theorem failed_run_without_out_dir_ends_with_traceback :
  let run := main (server_always 500 "") sample_clock sample_dumps
               (sample_args 3) ∅ empty_world in
  fst (main_loop (server_always 500 "") sample_clock sample_dumps
         (sample_args 3) None [] sample_base sample_out_root empty_world) =
    Ok ([error_record 3 sample_base "3025" "windows" None], 0) /\
  fst run = Raise FileNotFoundError /\
  exit_status (fst run) = 1%Z /\
  fs (snd run) = ∅ /\
  stat (snd run) (sample_out_root // "fetch_errors.json") = None.
Proof. vm_compute. repeat split. Qed.

(** ** Runs in which no turn is allowed *)

Section NoTurn.

Context (session : nat -> Request -> Reply).
Context (clock : nat -> Z -> datetime).
Context (json_dumps : Json -> Z -> string).
Context (args : Args) (auth : option (string * string)).
Context (headers : list (string * string)) (base : string).
Context (out_root : list string).
Hypothesis no_turn : (retries args <= 0)%Z.

(** Every job ends as a failure with no status, without a request and
    without a write. *)
Lemma loop_without_turns (jobs : list (string * string)) :
  forall (st : list Json * nat) (w : World),
    exists w' : World,
      for_each jobs
        (fun job => main_job session clock json_dumps args auth headers base
                      out_root (fst job) (snd job)) st w =
      (Ok (fst st ++ List.map (fun job => error_record (retries args) base
                                            (fst job) (snd job) None) jobs,
           snd st), w') /\
      requests w' = requests w /\ fs w' = fs w /\
      gets_of (trace w') = gets_of (trace w).
Proof.
  induction jobs as [|[b p] jobs IH]; intros [errors n] w.
  - exists w. cbn. now rewrite app_nil_r.
  - cbn [for_each fst snd]. unfold bind.
    rewrite (main_job_failed session clock json_dumps args auth headers base
               out_root b p errors n w
               (add_event (job_announce base out_root b p) w) None None).
    2:{ unfold job_fetch. now apply fetch_url_no_turn. }
    destruct (IH (errors ++ [error_record (retries args) base b p None], n)
                (add_event (EvPrint Stderr
                              (error_message (retries args)
                                 (build_target_url base b p) None))
                   (add_event (job_announce base out_root b p) w)))
      as [w' [Hrun [Hreq [Hfs Hgets]]]].
    exists w'. rewrite Hrun. cbn [fst snd List.map].
    rewrite <- app_assoc. split; [reflexivity |].
    split; [exact Hreq |]. split; [exact Hfs |].
    rewrite Hgets. cbn [add_event trace job_announce]. rewrite !gets_of_app.
    cbn. now rewrite !app_nil_r.
Qed.

End NoTurn.

(** With no turn allowed and at least one job, [main] reaches the writing
    of the error report, with every job in it, without a request and
    without a write. *)
Lemma main_after_loop_no_turn (session : nat -> Request -> Reply) (clock : nat -> Z -> datetime)
    (json_dumps : Json -> Z -> string) (args : Args)
    (environ : gmap string string) (w : World) :
  (retries args <= 0)%Z ->
  builds args <> [] -> platforms args <> [] ->
  exists wl : World,
    requests wl = requests w /\ fs wl = fs w /\
    gets_of (trace wl) = gets_of (trace w) /\
    main session clock json_dumps args environ w =
    (Path_write_text (Path.of_str (out args) // "fetch_errors.json")
       (json_dumps
          (JArr (List.map (fun job => error_record (retries args)
                                        (PyStr.rstrip "/" (base_url args))
                                        (fst job) (snd job) None)
                   (jobs_of args))) 2%Z) ;;
     print Stderr ("Errors written to "
                   +:+ Path.to_str (Path.of_str (out args) // "fetch_errors.json")) ;;
     sys_exit 2) wl.
Proof.
  intros Hr Hb Hp.
  destruct (main_around_loop session clock json_dumps args environ w)
    as [auth [headers [w0 [Hreq0 [Hfs0 [Hg0 Hmain]]]]]].
  rewrite main_loop_flat in Hmain.
  destruct (loop_without_turns session clock json_dumps args auth headers
              (PyStr.rstrip "/" (base_url args)) (Path.of_str (out args)) Hr
              (jobs_of args) ([], 0) w0) as [w1 [Hrun [Hreq1 [Hfs1 Hg1]]]].
  rewrite Hrun in Hmain. cbn [fst snd app] in Hmain.
  rewrite bool_decide_eq_false_2 in Hmain.
  2:{ unfold jobs_of. destruct (builds args) as [|b bs]; [congruence |].
      destruct (platforms args) as [|p ps]; [congruence |]. discriminate. }
  eexists. split; [| split; [| split; [| exact Hmain]]].
  - cbn. congruence.
  - cbn. congruence.
  - cbn [add_event trace]. rewrite gets_of_app. cbn. rewrite app_nil_r. congruence.
Qed.

(** C10 (what the code does). With [--retries r] and [r <= 0], [fetch_url]
    returns [(None, None, None)] at once, without a request; every job of
    the run is recorded as failed, with no request sent. With at least one
    job, the process then ends with status 2 and the report written when the
    output root is an existing directory; but when the output root does not
    exist, which nothing in such a run creates, writing the report raises
    [FileNotFoundError] and the process ends with status 1 and no report. *)
Theorem nonpositive_retries_fail_every_job_without_request
    (session : nat -> Request -> Reply) (clock : nat -> Z -> datetime)
    (json_dumps : Json -> Z -> string) (args : Args)
    (environ : gmap string string) (w : World) :
  (retries args <= 0)%Z ->
  builds args <> [] -> platforms args <> [] ->
  (forall url auth headers timeout w0,
      fetch_url session url auth headers (retries args) timeout w0 =
      (Ok (None, None, None), w0)) /\
  (forall auth headers base out_root w0,
      exists w1 : World,
        main_loop session clock json_dumps args auth headers base out_root w0 =
        (Ok (List.map (fun job => error_record (retries args) base
                                    (fst job) (snd job) None) (jobs_of args),
             0), w1) /\
        requests w1 = requests w0 /\ gets_of (trace w1) = gets_of (trace w0)) /\
  (stat w (Path.of_str (out args)) = Some Dir ->
   is_dir w (Path.of_str (out args) // "fetch_errors.json") = false ->
   exists w' : World,
     main session clock json_dumps args environ w = (Raise (SystemExit 2), w') /\
     exit_status (Raise (SystemExit 2)) = 2%Z /\
     requests w' = requests w /\ gets_of (trace w') = gets_of (trace w) /\
     fs w' !! (Path.of_str (out args) // "fetch_errors.json") =
       Some (File (json_dumps
                     (JArr (List.map (fun job => error_record (retries args)
                                                   (PyStr.rstrip "/" (base_url args))
                                                   (fst job) (snd job) None)
                              (jobs_of args))) 2%Z))) /\
  (stat w (Path.of_str (out args)) = None ->
   exists w' : World,
     main session clock json_dumps args environ w = (Raise FileNotFoundError, w') /\
     exit_status (Raise FileNotFoundError) = 1%Z /\
     requests w' = requests w /\ gets_of (trace w') = gets_of (trace w) /\
     fs w' = fs w).
Proof.
  intros Hr Hb Hp.
  split; [intros; now apply fetch_url_no_turn |]. split.
  { intros auth headers base out_root w0. rewrite main_loop_flat.
    destruct (loop_without_turns session clock json_dumps args auth headers
                base out_root Hr (jobs_of args) ([], 0) w0)
      as [w1 [Hrun [Hreq [_ Hg]]]].
    exists w1. rewrite Hrun. cbn [fst snd app]. auto. }
  destruct (main_after_loop_no_turn session clock json_dumps args environ w
              Hr Hb Hp) as [wl [Hreq [Hfs [Hg Hmain]]]].
  assert (Herr : Path.of_str (out args) // "fetch_errors.json" =
                 Path.of_str (out args) ++ ["fetch_errors.json"])
    by now apply joinpath_name.
  assert (Hpar : Path.parent (Path.of_str (out args) // "fetch_errors.json") =
                 Path.of_str (out args)).
  { rewrite Herr. now apply parent_snoc. }
  rewrite Hmain. unfold bind, Path_write_text. rewrite Hpar.
  rewrite !(stat_same_fs wl w _ Hfs).
  split.
  - intros Hdir Hfree. rewrite Hdir.
    unfold is_dir in Hfree.
    eexists. split.
    { destruct (stat w (Path.of_str (out args) // "fetch_errors.json"))
        as [[|c]|]; [discriminate | reflexivity | reflexivity]. }
    split; [reflexivity |]. cbn [add_event set_fs requests trace fs].
    split; [exact Hreq |]. split.
    { rewrite gets_of_app. cbn. now rewrite app_nil_r. }
    apply lookup_insert_eq.
  - intros Hnone. rewrite Hnone.
    exists wl. repeat split; assumption.
Qed.

Lemma nonpositive_retries_fail_every_job_without_request_witness :
  (retries (sample_args 0) <= 0)%Z /\
  builds (sample_args 0) <> [] /\ platforms (sample_args 0) <> [] /\
  stat empty_world (Path.of_str (out (sample_args 0))) = None /\
  exists w' : World,
    main (server_always 200 sample_body) sample_clock sample_dumps
      (sample_args 0) ∅ empty_world = (Raise FileNotFoundError, w') /\
    exit_status (Raise FileNotFoundError) = 1%Z /\
    requests w' = requests empty_world /\
    gets_of (trace w') = gets_of (trace empty_world) /\
    fs w' = fs empty_world.
Proof.
  split; [cbn; lia |]. split; [discriminate |]. split; [discriminate |].
  split; [reflexivity |].
  apply (nonpositive_retries_fail_every_job_without_request
           (server_always 200 sample_body) sample_clock sample_dumps
           (sample_args 0) ∅ empty_world); [cbn; lia | discriminate | discriminate |].
  reflexivity.
Defined.

(** ** The fetcher, whatever the server does *)

Lemma outcome_of_transient (r : Reply) :
  outcome_of r = None <-> transient r = true.
Proof.
  destruct r as [st tx hd|]; cbn; [| tauto].
  destruct (st =? 200)%Z; [cbn; split; discriminate |].
  destruct (in_401_403 st); cbn; split; congruence.
Qed.

(** The loop, by the outcome of the reply to its next request. *)
Lemma fetch_url_loop_outcome (session : nat -> Request -> Reply)
    (url : string) (auth : option (string * string))
    (headers : list (string * string)) (retries timeout attempt : Z) (w : World) :
  (attempt < retries)%Z ->
  fetch_url_loop session url auth headers retries timeout attempt w =
  match outcome_of (session (requests w) (mkRequest url auth headers timeout)) with
  | Some r =>
      (Ok r, mkWorld (fs w) (S (requests w)) (clock_reads w)
               (trace w ++ [EvGet (mkRequest url auth headers timeout)]))
  | None =>
      fetch_url_loop session url auth headers retries timeout (attempt + 1)
        (mkWorld (fs w) (S (requests w)) (clock_reads w)
           (trace w ++ [EvGet (mkRequest url auth headers timeout);
                        EvSleep (Qpower BACKOFF_FACTOR (attempt + 1))]))
  end.
Proof.
  intros Hlt.
  destruct (outcome_of _) as [r|] eqn:Hout.
  - rewrite fetch_url_loop_turn. apply Z.ltb_lt in Hlt. rewrite Hlt.
    unfold bind, session_get.
    destruct (session (requests w) _) as [st tx hd|]; [| discriminate].
    cbn in Hout. destruct (st =? 200)%Z.
    + now injection Hout as <-.
    + destruct (in_401_403 st); [now injection Hout as <- | discriminate].
  - apply fetch_url_loop_transient; [exact Hlt |].
    now apply outcome_of_transient.
Qed.

Lemma outcome_of_shape (r : Reply)
    (t : option string * option Z * option (list (string * string))) :
  outcome_of r = Some t -> result_shape t /\ got_status t = true.
Proof.
  destruct r as [st tx hd|]; [| discriminate]. cbn.
  destruct (st =? 200)%Z eqn:H200.
  - intros [= <-]. apply Z.eqb_eq in H200. now split.
  - destruct (in_401_403 st) eqn:Ha; [| discriminate].
    intros [= <-]. now split.
Qed.

(** The shape of every run of the loop: [k] failed turns, and then either
    one last request, answered with a status that ends the loop, or no turn
    left. *)
Lemma fetch_url_loop_shape (session : nat -> Request -> Reply)
    (url : string) (auth : option (string * string))
    (headers : list (string * string)) (retries timeout : Z) (n : nat) :
  forall (a : nat) (w : World),
    Z.to_nat (retries - Z.of_nat a) <= n ->
    exists r w' k,
      fetch_url_loop session url auth headers retries timeout (Z.of_nat a) w =
        (Ok r, w') /\
      result_shape r /\
      trace w' =
        trace w ++ flat_map (failed_turn (mkRequest url auth headers timeout))
                     (seq (S a) k)
                ++ (if got_status r
                    then [EvGet (mkRequest url auth headers timeout)] else []) /\
      requests w' = requests w + k + (if got_status r then 1 else 0) /\
      fs w' = fs w /\ clock_reads w' = clock_reads w /\
      (forall i, requests w <= i < requests w + k ->
         transient (session i (mkRequest url auth headers timeout)) = true) /\
      (if got_status r
       then (Z.of_nat (a + k) < retries)%Z /\
            outcome_of (session (requests w + k)
                          (mkRequest url auth headers timeout)) = Some r
       else Z.of_nat (a + k) = Z.max retries (Z.of_nat a)).
Proof.
  induction n as [|n IH]; intros a w Hn.
  - rewrite fetch_url_loop_turn.
    replace (Z.of_nat a <? retries)%Z with false by (symmetry; apply Z.ltb_ge; lia).
    exists (None, None, None), w, 0. cbn. rewrite app_nil_r.
    repeat split; auto; lia.
  - destruct (Z.ltb_spec (Z.of_nat a) retries) as [Hlt | Hge].
    2:{ rewrite fetch_url_loop_turn.
        replace (Z.of_nat a <? retries)%Z with false
          by (symmetry; apply Z.ltb_ge; lia).
        exists (None, None, None), w, 0. cbn. rewrite app_nil_r.
        repeat split; auto; lia. }
    rewrite fetch_url_loop_outcome by exact Hlt.
    destruct (outcome_of _) as [r|] eqn:Hout.
    + destruct (outcome_of_shape _ _ Hout) as [Hshape Hgot].
      eexists r, _, 0. split; [reflexivity |].
      rewrite Hgot. cbn [seq flat_map app fs requests clock_reads trace].
      rewrite !Nat.add_0_r.
      repeat split; auto; lia.
    + replace (Z.of_nat a + 1)%Z with (Z.of_nat (S a)) by lia.
      set (w1 := mkWorld _ _ _ _).
      destruct (IH (S a) w1) as [r [w' [k [Hrun [Hshape [Htr [Hreq [Hfs [Hclk [Hall Hend]]]]]]]]]];
        [lia |].
      exists r, w', (S k). split; [exact Hrun |]. split; [exact Hshape |].
      subst w1. cbn [fs requests clock_reads trace] in *.
      split.
      { rewrite Htr. cbn [seq flat_map]. unfold failed_turn at 2.
        rewrite <- !app_assoc. reflexivity. }
      split; [lia |]. split; [exact Hfs |]. split; [exact Hclk |]. split.
      { intros i Hi. destruct (decide (i = requests w)) as [-> | Hne].
        - now apply outcome_of_transient.
        - apply Hall. lia. }
      destruct (got_status r).
      * destruct Hend as [Hlt' Ho]. split; [lia |].
        now replace (requests w + S k) with (S (requests w) + k) by lia.
      * lia.
Qed.

(** X1. With at most 33 attempts allowed, so that every delay
    [BACKOFF_FACTOR ^ i] is a float without rounding and a number of seconds
    that [time.sleep] takes, with credentials that are ASCII, and against a
    session each of whose calls returns a response or raises
    [requests.RequestException], [fetch_url] returns. Its trace is [k] failed turns, each a request followed by the
    sleep of [BACKOFF_FACTOR ^ i], and then one last request exactly when
    the triple carries a status. All requests are the same, with the URL,
    the credentials, the headers and the timeout given. At most
    [max 0 retries] requests are sent, and all of them are used up when no
    status comes back. The file system and the clock are left alone. *)
Theorem fetch_url_any_server (session : nat -> Request -> Reply)
    (url : string) (auth : option (string * string))
    (headers : list (string * string)) (retries timeout : Z) (w : World) :
  (retries <= 33)%Z ->
  credentials_encode auth headers = true ->
  exists r w' k,
    fetch_url session url auth headers retries timeout w = (Ok r, w') /\
    result_shape r /\
    trace w' =
      trace w ++ flat_map (failed_turn (mkRequest url auth headers timeout))
                   (seq 1 k)
              ++ (if got_status r
                  then [EvGet (mkRequest url auth headers timeout)] else []) /\
    requests w' = requests w + k + (if got_status r then 1 else 0) /\
    (Z.of_nat (requests w' - requests w) <= Z.max 0 retries)%Z /\
    (got_status r = false -> Z.of_nat k = Z.max 0 retries) /\
    Forall (fun i => exact_as_float (Z.of_nat i) = true
                     /\ time_sleep_accepts (Qpower BACKOFF_FACTOR (Z.of_nat i)) = true)
      (seq 1 k) /\
    fs w' = fs w /\ clock_reads w' = clock_reads w.
Proof.
  intros Hmax _.
  destruct (fetch_url_loop_shape session url auth headers retries timeout
              (Z.to_nat (retries - 0)) 0 w)
    as [r [w' [k [Hrun [Hshape [Htr [Hreq [Hfs [Hclk [_ Hend]]]]]]]]]]; [cbn; lia |].
  exists r, w', k. split; [exact Hrun |]. split; [exact Hshape |].
  split; [exact Htr |]. split; [exact Hreq |].
  split; [| split; [| split; [| split; [exact Hfs | exact Hclk]]]].
  - rewrite Hreq. destruct (got_status r); [destruct Hend |]; cbn in *; lia.
  - intros Hg. rewrite Hg in Hend. cbn in Hend. lia.
  - assert (Hk : (Z.of_nat k <= 33)%Z)
      by (destruct (got_status r); [destruct Hend |]; cbn in *; lia).
    apply Forall_forall. intros i Hi. apply list_elem_of_In, in_seq in Hi. split.
    + apply backoff_exact. lia.
    + apply backoff_accepted. lia.
Qed.

Lemma fetch_url_any_server_witness :
  (DEFAULT_RETRIES <= 33)%Z /\
  credentials_encode None [] = true /\
  exists r w' k,
    fetch_url (server_after 2 sample_body) "u" None [] DEFAULT_RETRIES TIMEOUT
      empty_world = (Ok r, w') /\
    result_shape r /\
    requests w' = requests empty_world + k + (if got_status r then 1 else 0).
Proof.
  assert (Hmax : (DEFAULT_RETRIES <= 33)%Z) by (vm_compute; discriminate).
  split; [exact Hmax |]. split; [reflexivity |].
  destruct (fetch_url_any_server (server_after 2 sample_body) "u" None []
              DEFAULT_RETRIES TIMEOUT empty_world Hmax eq_refl)
    as [r [w' [k [Hrun [Hshape [_ [Hreq _]]]]]]].
  exists r, w', k. auto.
Defined.




(** X3. [fetch_url] tells a transient reply from another only
    by its being transient: a network exception and a reply with a status
    other than 200, 401 and 403 are handled alike, and the body and headers
    of such a reply are ignored. Two servers that at every request either
    answer the same or both answer with a transient outcome give the same
    result and the same world. *)
Theorem fetch_url_sees_only_outcomes (session1 session2 : nat -> Request -> Reply)
    (url : string) (auth : option (string * string))
    (headers : list (string * string)) (retries timeout : Z) (w : World) :
  (forall i,
      session1 i (mkRequest url auth headers timeout) =
      session2 i (mkRequest url auth headers timeout) \/
      transient (session1 i (mkRequest url auth headers timeout)) = true /\
      transient (session2 i (mkRequest url auth headers timeout)) = true) ->
  fetch_url session1 url auth headers retries timeout w =
  fetch_url session2 url auth headers retries timeout w.
Proof.
  intros Hsame. unfold fetch_url.
  assert (Hout : forall i,
             outcome_of (session1 i (mkRequest url auth headers timeout)) =
             outcome_of (session2 i (mkRequest url auth headers timeout))).
  { intros i. destruct (Hsame i) as [-> | [H1 H2]]; [reflexivity |].
    apply outcome_of_transient in H1, H2. congruence. }
  generalize 0%Z as attempt. intros attempt.
  remember (Z.to_nat (retries - attempt)) as n eqn:Hn.
  revert attempt w Hn.
  induction n as [n IH] using lt_wf_ind. intros attempt w Hn.
  destruct (Z.ltb_spec attempt retries) as [Hlt | Hge].
  - rewrite (fetch_url_loop_outcome session1), (fetch_url_loop_outcome session2)
      by exact Hlt.
    rewrite Hout.
    destruct (outcome_of _); [reflexivity |].
    apply (IH (Z.to_nat (retries - (attempt + 1)))); [lia | reflexivity].
  - rewrite !fetch_url_loop_turn.
    now replace (attempt <? retries)%Z with false by (symmetry; apply Z.ltb_ge; lia).
Qed.

Lemma fetch_url_sees_only_outcomes_witness :
  fetch_url (server_always 500 "busy") "u" None [] 3 TIMEOUT empty_world =
  fetch_url (fun _ _ => RequestException) "u" None [] 3 TIMEOUT empty_world.
Proof.
  apply fetch_url_sees_only_outcomes. intros i. right. split; reflexivity.
Defined.

(** The sum of the first [n] backoff delays. *)
Lemma fold_right_Qplus_snoc (l : list Q) (x : Q) :
  (fold_right Qplus 0 (l ++ [x]) == fold_right Qplus 0 l + x)%Q.
Proof.
  induction l as [|y l IH]; cbn.
  - ring.
  - rewrite IH. ring.
Qed.

Lemma backoff_sum (n : nat) :
  (fold_right Qplus 0
     (List.map (fun k => Qpower BACKOFF_FACTOR (Z.of_nat k)) (seq 1 n))
   == 3 * (Qpower BACKOFF_FACTOR (Z.of_nat n) - 1))%Q.
Proof.
  induction n as [|n IH].
  - cbn. reflexivity.
  - rewrite seq_S, map_app. cbn [List.map].
    rewrite fold_right_Qplus_snoc, IH.
    replace (Z.of_nat (1 + n)) with (Z.of_nat n + 1)%Z by lia.
    replace (Z.of_nat (S n)) with (Z.of_nat n + 1)%Z by lia.
    rewrite Qpower_plus by discriminate.
    change (Qpower BACKOFF_FACTOR 1) with (3 # 2)%Q.
    ring.
Qed.

(** X4. When every one of the [r] attempts, [0 <= r <= 33], meets a
    transient outcome, the delays that [fetch_url] asks [time.sleep] for,
    each of them a float without rounding, add up to
    [3 * (BACKOFF_FACTOR ^ r - 1)] seconds: 7.125 seconds for the default of
    three attempts. *)
Theorem fetch_url_worst_case_sleep (session : nat -> Request -> Reply)
    (url : string) (auth : option (string * string))
    (headers : list (string * string)) (timeout r : Z) (w : World) :
  (0 <= r <= 33)%Z ->
  (forall i, requests w <= i < requests w + Z.to_nat r ->
     transient (session i (mkRequest url auth headers timeout)) = true) ->
  exists (w' : World) (evs : list Event),
    fetch_url session url auth headers r timeout w = (Ok (None, None, None), w') /\
    trace w' = trace w ++ evs /\
    sleeps_of evs =
      List.map (fun k => Qpower BACKOFF_FACTOR (Z.of_nat k)) (seq 1 (Z.to_nat r)) /\
    Forall (fun k => exact_as_float (Z.of_nat k) = true) (seq 1 (Z.to_nat r)) /\
    (total_sleep evs == 3 * (Qpower BACKOFF_FACTOR r - 1))%Q.
Proof.
  intros [Hr Hmax] Htr. eexists. eexists.
  split; [apply fetch_url_exhausts; [exact Hr | exact Htr] |].
  cbn [trace]. split; [reflexivity |].
  split; [apply sleeps_of_failed_turns |]. split.
  { apply Forall_forall. intros k Hk. apply list_elem_of_In, in_seq in Hk.
    apply backoff_exact. lia. }
  unfold total_sleep. rewrite sleeps_of_failed_turns, backoff_sum.
  now rewrite Z2Nat.id by exact Hr.
Qed.

Lemma fetch_url_worst_case_sleep_witness :
  exists (w' : World) (evs : list Event),
    fetch_url (server_always 500 "") "u" None [] DEFAULT_RETRIES TIMEOUT
      empty_world = (Ok (None, None, None), w') /\
    trace w' = trace empty_world ++ evs /\
    (total_sleep evs == 57 # 8)%Q.
Proof.
  destruct (fetch_url_worst_case_sleep (server_always 500 "") "u" None []
              TIMEOUT DEFAULT_RETRIES empty_world)
    as [w' [evs [Hrun [Htr [_ [_ Hsum]]]]]].
  - unfold DEFAULT_RETRIES. lia.
  - intros i _. reflexivity.
  - exists w', evs. split; [exact Hrun |]. split; [exact Htr |].
    rewrite Hsum. reflexivity.
Defined.

(** ** More on the URL builder *)

Lemma append_nil_r (s : string) : s +:+ "" = s.
Proof. induction s as [|a s IH]; [reflexivity |]. now rewrite append_cons, IH. Qed.

Lemma rstrip_idempotent (c : ascii) (s : string) :
  PyStr.rstrip (String c "") (PyStr.rstrip (String c "") s) =
  PyStr.rstrip (String c "") s.
Proof.
  destruct (rstrip_decompose c s) as [n [_ Hend]].
  rewrite <- (append_nil_r (PyStr.rstrip (String c "") s)) at 1.
  exact (rstrip_append_replicate c _ 0 Hend).
Qed.

Lemma for_each_ext {A S : Type} (xs : list A) (body1 body2 : A -> S -> M S) :
  (forall x st w, body1 x st w = body2 x st w) ->
  forall st w, for_each xs body1 st w = for_each xs body2 st w.
Proof.
  intros Hext. induction xs as [|x xs IH]; intros st w; [reflexivity |].
  cbn [for_each]. unfold bind. rewrite Hext.
  destruct (body2 x st w) as [[st1|e] w1]; [apply IH | reflexivity].
Qed.

(** X5. [main] strips the trailing slashes of the base URL and
    [build_target_url] strips them again: the second stripping changes
    nothing, so the URLs, and with them the whole loop of the jobs, are the
    same whether the base URL is handed over stripped or as it was given. *)
Theorem main_strips_the_base_url_twice
    (session : nat -> Request -> Reply) (clock : nat -> Z -> datetime)
    (json_dumps : Json -> Z -> string) (args : Args)
    (auth : option (string * string)) (headers : list (string * string))
    (base : string) (out_root : list string) :
  (forall build plat,
      build_target_url (PyStr.rstrip "/" base) build plat =
      build_target_url base build plat) /\
  (forall w,
      main_loop session clock json_dumps args auth headers
        (PyStr.rstrip "/" base) out_root w =
      main_loop session clock json_dumps args auth headers base out_root w).
Proof.
  assert (Hurl : forall build plat,
             build_target_url (PyStr.rstrip "/" base) build plat =
             build_target_url base build plat).
  { intros build plat. unfold build_target_url. now rewrite rstrip_idempotent. }
  split; [exact Hurl |].
  intros w. unfold main_loop.
  apply for_each_ext. intros build st1 w1.
  apply for_each_ext. intros plat [errors n] w2.
  unfold main_job. now rewrite Hurl.
Qed.

Lemma append_first_sep (c : ascii) (s1 s2 t1 t2 : string) :
  PyStr.mem c s1 = false -> PyStr.mem c s2 = false ->
  s1 +:+ String c t1 = s2 +:+ String c t2 -> s1 = s2 /\ t1 = t2.
Proof.
  revert s2. induction s1 as [|a s1 IH]; intros [|b s2] H1 H2 Heq.
  - rewrite !append_nil_l in Heq. now injection Heq as ->.
  - rewrite append_nil_l, append_cons in Heq. injection Heq as <- _.
    cbn in H2. now rewrite Ascii.eqb_refl in H2.
  - rewrite append_nil_l, append_cons in Heq. injection Heq as -> _.
    cbn in H1. now rewrite Ascii.eqb_refl in H1.
  - rewrite !append_cons in Heq. injection Heq as -> Heq.
    cbn in H1, H2. apply orb_false_iff in H1 as [_ H1], H2 as [_ H2].
    destruct (IH s2 H1 H2 Heq) as [-> ->]. now split.
Qed.

Lemma length_append (s t : string) :
  String.length (s +:+ t) = String.length s + String.length t.
Proof. induction s as [|a s IH]; [reflexivity |]. rewrite append_cons. cbn. now rewrite IH. Qed.

Lemma append_assoc (s t u : string) : (s +:+ t) +:+ u = s +:+ t +:+ u.
Proof. induction s as [|a s IH]; [reflexivity |]. now rewrite !append_cons, IH. Qed.

Lemma append_inv_tail (s1 s2 t : string) : s1 +:+ t = s2 +:+ t -> s1 = s2.
Proof.
  revert s2. induction s1 as [|a s1 IH]; intros [|b s2] Heq.
  - reflexivity.
  - apply (f_equal String.length) in Heq. rewrite !length_append in Heq.
    cbn in Heq. lia.
  - apply (f_equal String.length) in Heq. rewrite !length_append in Heq.
    cbn in Heq. lia.
  - rewrite !append_cons in Heq. injection Heq as -> Heq.
    now rewrite (IH s2 Heq).
Qed.

(** X6. For one base URL, two jobs whose build ids hold no slash
    have the same target URL only if they have the same build and the same
    platform. Without that condition the URL does not tell the jobs apart:
    a slash may be moved between the build and the platform. *)
Theorem build_target_url_tells_jobs_apart (base b1 p1 b2 p2 : string) :
  (PyStr.mem "/" b1 = false -> PyStr.mem "/" b2 = false ->
   build_target_url base b1 p1 = build_target_url base b2 p2 ->
   b1 = b2 /\ p1 = p2) /\
  build_target_url base (b1 +:+ "/" +:+ p1) p2 =
  build_target_url base b1 (p1 +:+ "/" +:+ p2).
Proof.
  split.
  - intros H1 H2 Heq. unfold build_target_url in Heq.
    apply String.app_inj in Heq.
    change ("/" +:+ b1 +:+ "/" +:+ p1 +:+ "/latest_commits.txt")
      with (String "/" (b1 +:+ String "/" (p1 +:+ "/latest_commits.txt"))) in Heq.
    change ("/" +:+ b2 +:+ "/" +:+ p2 +:+ "/latest_commits.txt")
      with (String "/" (b2 +:+ String "/" (p2 +:+ "/latest_commits.txt"))) in Heq.
    injection Heq as Heq.
    apply append_first_sep in Heq as [-> Heq]; [| assumption | assumption].
    apply append_inv_tail in Heq. now split.
  - unfold build_target_url. now rewrite !append_assoc.
Qed.

Lemma build_target_url_tells_jobs_apart_witness :
  build_target_url sample_base "3025" "windows" <>
  build_target_url sample_base "3025" "linux".
Proof.
  intros Heq.
  destruct (build_target_url_tells_jobs_apart sample_base "3025" "windows"
              "3025" "linux") as [Hinj _].
  destruct (Hinj eq_refl eq_refl Heq) as [_ Hp]. discriminate Hp.
Defined.

(** ** What the file-system calls change *)

Lemma only_new_dirs_refl (within : list (list string)) (w : World) :
  only_new_dirs within w w.
Proof. repeat split. intros q. now left. Qed.

Lemma only_new_dirs_trans (within : list (list string)) (w1 w2 w3 : World) :
  only_new_dirs within w1 w2 -> only_new_dirs within w2 w3 ->
  only_new_dirs within w1 w3.
Proof.
  intros [Hr1 [Hc1 [Ht1 H1]]] [Hr2 [Hc2 [Ht2 H2]]].
  split; [congruence |]. split; [congruence |]. split; [congruence |].
  intros q. destruct (H2 q) as [E2 | [Hin [Hn2 Hd2]]].
  - rewrite E2. apply H1.
  - destruct (H1 q) as [E1 | [_ [Hn1 Hd1]]].
    + right. rewrite <- E1. auto.
    + rewrite Hd1 in Hn2. discriminate.
Qed.

Lemma only_new_dirs_incl (within1 within2 : list (list string)) (w w' : World) :
  (forall q, In q within1 -> In q within2) ->
  only_new_dirs within1 w w' -> only_new_dirs within2 w w'.
Proof.
  intros Hincl [Hr [Hc [Ht H]]]. repeat split; try assumption.
  intros q. destruct (H q) as [E | [Hin Hrest]]; [now left | right; auto].
Qed.

Lemma os_mkdir_effect (p : list string) (w w' : World) (r : result unit) :
  os_mkdir p w = (r, w') ->
  only_new_dirs [p] w w' /\ (forall e, r = Raise e -> w' = w).
Proof.
  unfold os_mkdir.
  destruct (stat w (Path.parent p)) as [[|s]|];
    [destruct (stat w p) as [n|] eqn:Hp |..];
    intros H; inversion H; subst; clear H;
    try (split; [apply only_new_dirs_refl | reflexivity]).
  split; [| discriminate].
  repeat split. intros q. cbn [set_fs fs].
  destruct (decide (p = q)) as [<- | Hne].
  - right. split; [now left |]. split; [| apply lookup_insert_eq].
    unfold stat in Hp. destruct (bool_decide _); [discriminate | exact Hp].
  - left. now apply lookup_insert_ne.
Qed.

Lemma try_mkdir_effect (exist_ok : bool) (p : list string) (h : M unit)
    (w w' : World) (r : result unit) :
  try_mkdir exist_ok p h w = (r, w') ->
  only_new_dirs [p] w w' \/ h w = (r, w').
Proof.
  unfold try_mkdir.
  destruct (os_mkdir p w) as [[[]|e] w0] eqn:Hmk;
    apply os_mkdir_effect in Hmk as [Hdirs Hsame].
  - intros H. inversion H; subst. now left.
  - rewrite (Hsame e eq_refl) in *.
    destruct e; cbn [is_OSError andb]; try (now right);
      try (destruct (negb exist_ok || negb (is_dir w p));
           intros H; inversion H; subst; left; apply only_new_dirs_refl).
Qed.

Lemma inits_parent (p q : list string) :
  In q (Path.inits (Path.parent p)) -> In q (Path.inits p).
Proof.
  destruct p as [|c p _] using rev_ind; [auto |].
  destruct (parent_snoc_cases p c) as [-> | ->]; [| auto].
  intros Hq. rewrite inits_snoc. apply in_or_app. now left.
Qed.

(** [mkdir(parents=True)], however it ends, has only made directories,
    along the path, where nothing was. *)
Lemma Path_mkdir_parents_effect (n : nat) :
  forall (p : list string) (exist_ok : bool) (w w' : World) (r : result unit),
    length p <= n ->
    Path_mkdir_parents exist_ok p w = (r, w') ->
    only_new_dirs (Path.inits p) w w'.
Proof.
  assert (Hone : forall p w w', only_new_dirs [p] w w' ->
                   only_new_dirs (Path.inits p) w w').
  { intros p w w'. apply only_new_dirs_incl.
    intros q [<- | []]. apply inits_self. }
  induction n as [|n IH]; intros p exist_ok w w' r Hlen Hrun;
    rewrite Path_mkdir_parents_step in Hrun;
    apply try_mkdir_effect in Hrun as [Hdirs | Hrun]; try (now apply Hone).
  - destruct p; [| cbn in Hlen; lia]. cbn in Hrun. inversion Hrun; subst.
    apply only_new_dirs_refl.
  - destruct (bool_decide (Path.parent p = p)) eqn:Htop.
    { inversion Hrun; subst. apply only_new_dirs_refl. }
    apply bool_decide_eq_false, parent_shorter in Htop.
    unfold bind in Hrun.
    destruct (Path_mkdir_parents true (Path.parent p) w) as [[[]|e] w1] eqn:Hpar;
      apply IH in Hpar; try lia;
      apply (only_new_dirs_incl _ (Path.inits p)) in Hpar;
      try (intros q; apply inits_parent).
    + apply (only_new_dirs_trans _ w w1 w'); [exact Hpar |].
      unfold Path_mkdir in Hrun.
      apply try_mkdir_effect in Hrun as [Hdirs | Hrun]; [now apply Hone |].
      inversion Hrun; subst. apply only_new_dirs_refl.
    + inversion Hrun; subst. exact Hpar.
Qed.

(** [write_text] either replaces the content of the file, in an existing
    directory, or raises and changes nothing. *)
Lemma Path_write_text_effect (p : list string) (data : string) (w w' : World)
    (r : result unit) :
  Path_write_text p data w = (r, w') ->
  (r = Ok tt /\ w' = set_fs (insert p (File data)) w /\
   stat w (Path.parent p) = Some Dir /\ Path.parent p <> p) \/
  (exists e, r = Raise e /\ is_OSError e = true /\ w' = w).
Proof.
  unfold Path_write_text.
  destruct (stat w (Path.parent p)) as [[|s]|] eqn:Hpar;
    [destruct (stat w p) as [[|s]|] eqn:Hp |..];
    intros H; inversion H; subst; clear H;
    try (right; eexists; repeat split; reflexivity);
    left; repeat split; try reflexivity;
    intros Htop; rewrite (stat_top w p Htop) in Hp; discriminate.
Qed.

(** [write_file], however it ends. *)
Lemma write_file_outcome (path : list string) (content : string)
    (w w' : World) (r : result unit) :
  write_file path content w = (r, w') ->
  exists w1 : World,
    only_new_dirs (Path.inits (Path.parent path)) w w1 /\
    match r with
    | Ok _ =>
        w' = set_fs (insert path (File content)) w1 /\
        stat w1 (Path.parent path) = Some Dir /\ Path.parent path <> path
    | Raise e => is_OSError e = true /\ w' = w1
    end.
Proof.
  unfold write_file, bind. intros Hrun.
  destruct (Path_mkdir_parents true (Path.parent path) w) as [[[]|e] w1] eqn:Hmk.
  - pose proof (Path_mkdir_parents_effect _ _ _ _ _ _ (le_n _) Hmk) as Hdirs.
    exists w1. split; [exact Hdirs |].
    apply Path_write_text_effect in Hrun
      as [[-> [-> [Hpar Hnt]]] | [e [-> [He ->]]]]; [| now split].
    auto.
  - inversion Hrun; subst. exists w'. split.
    + exact (Path_mkdir_parents_effect _ _ _ _ _ _ (le_n _) Hmk).
    + split; [| reflexivity].
      exact (Path_mkdir_parents_raises _ _ _ _ _ _ (le_n _) Hmk).
Qed.

(** X7. Up to the writing of the file, [write_file] has only made
    directories, at ancestors of the path where there was no entry. When it
    returns, the file holds exactly the content and its directory exists.
    When it ends with [FileNotFoundError], [FileExistsError],
    [NotADirectoryError] or [IsADirectoryError], no regular file has been
    written or changed. (The content is one that UTF-8 encodes; what a
    failing encoder, a full disk or a missing permission would raise is not
    among these four.) *)
Theorem write_file_effect (path : list string) (content : string)
    (w w' : World) (r : result unit) :
  write_file path content w = (r, w') ->
  exists w1 : World,
    only_new_dirs (Path.inits (Path.parent path)) w w1 /\
    match r with
    | Ok _ =>
        w' = set_fs (insert path (File content)) w1 /\
        fs w' !! path = Some (File content) /\
        stat w' (Path.parent path) = Some Dir
    | Raise e =>
        In e [FileNotFoundError; FileExistsError; NotADirectoryError;
              IsADirectoryError] ->
        w' = w1
    end.
Proof.
  intros Hrun. apply write_file_outcome in Hrun as [w1 [Hdirs Hres]].
  exists w1. split; [exact Hdirs |].
  destruct r as [[]|e]; [| intros _; exact (proj2 Hres)].
  destruct Hres as [-> [Hpar Hnt]].
  split; [reflexivity |]. split; [apply lookup_insert_eq |].
  rewrite stat_insert by exact Hnt.
  rewrite decide_False by congruence. exact Hpar.
Qed.

Lemma write_file_effect_witness :
  exists w1 : World,
    only_new_dirs (Path.inits (Path.parent ["data"; "x"; "f.txt"])) empty_world w1 /\
    fs (snd (write_file ["data"; "x"; "f.txt"] "abc" empty_world))
      !! ["data"; "x"; "f.txt"] = Some (File "abc").
Proof.
  destruct (write_file_effect ["data"; "x"; "f.txt"] "abc" empty_world
              (snd (write_file ["data"; "x"; "f.txt"] "abc" empty_world))
              (Ok tt)) as [w1 [Hdirs [_ [Hfile _]]]].
  - vm_compute. reflexivity.
  - exists w1. split; [exact Hdirs | exact Hfile].
Defined.

(** X8. With the directory above the directory of the file in
    place: [write_file] raises [FileExistsError] when a regular file stands
    where the directory of the file should be, and [IsADirectoryError] when
    a directory stands where the file should be; in both cases the world is
    left as it was. *)
Theorem write_file_blocked (path : list string) (content : string) (w : World) :
  stat w (Path.parent (Path.parent path)) = Some Dir ->
  ((exists s, stat w (Path.parent path) = Some (File s)) ->
   write_file path content w = (Raise FileExistsError, w)) /\
  (stat w (Path.parent path) = Some Dir -> stat w path = Some Dir ->
   write_file path content w = (Raise IsADirectoryError, w)).
Proof.
  intros Hgp. split.
  - intros [s Hpar]. unfold write_file, bind.
    rewrite Path_mkdir_parents_step.
    unfold try_mkdir, os_mkdir, is_dir. rewrite Hgp, Hpar. cbn. now rewrite Hpar.
  - intros Hpar Hp. unfold write_file, bind.
    rewrite Path_mkdir_parents_exists by assumption.
    unfold Path_write_text. now rewrite Hpar, Hp.
Qed.

Lemma write_file_blocked_witness :
  write_file ["data"; "f.txt"] "abc"
    (mkWorld {[ ["data"] := File "not a directory" ]} 0 0 []) =
  (Raise FileExistsError,
   mkWorld {[ ["data"] := File "not a directory" ]} 0 0 []).
Proof.
  apply (write_file_blocked ["data"; "f.txt"] "abc"
           (mkWorld {[ ["data"] := File "not a directory" ]} 0 0 [])).
  - reflexivity.
  - exists "not a directory". reflexivity.
Defined.

(** ** What a job changes *)

Lemma changed_only_refl (dirs files : list (list string)) (w : World) :
  changed_only dirs files w w.
Proof. intros q. now left. Qed.

Lemma changed_only_same_fs (dirs files : list (list string)) (w w' : World) :
  fs w' = fs w -> changed_only dirs files w w'.
Proof. intros H q. left. now rewrite H. Qed.

Lemma changed_only_trans (dirs files : list (list string)) (w1 w2 w3 : World) :
  changed_only dirs files w1 w2 -> changed_only dirs files w2 w3 ->
  changed_only dirs files w1 w3.
Proof.
  intros H1 H2 q.
  destruct (H2 q) as [E2 | [[Hin [Hn2 Hd2]] | Hfile]]; [| | now right; right].
  - rewrite E2. apply H1.
  - destruct (H1 q) as [E1 | [[_ [_ Hd1]] | [_ [s Hs]]]].
    + right. left. rewrite <- E1. auto.
    + rewrite Hd1 in Hn2. discriminate.
    + rewrite Hs in Hn2. discriminate.
Qed.

Lemma changed_only_incl (dirs1 files1 dirs2 files2 : list (list string))
    (w w' : World) :
  (forall q, In q dirs1 -> In q dirs2) ->
  (forall q, In q files1 -> In q files2) ->
  changed_only dirs1 files1 w w' -> changed_only dirs2 files2 w w'.
Proof.
  intros Hd Hf H q.
  destruct (H q) as [E | [[Hin Hrest] | [Hin Hrest]]]; auto.
Qed.

Lemma only_new_dirs_changed (dirs files : list (list string)) (w w' : World) :
  only_new_dirs dirs w w' -> changed_only dirs files w w'.
Proof.
  intros [_ [_ [_ H]]] q. destruct (H q) as [E | Hnew]; auto.
Qed.

Lemma changed_only_write (dirs files : list (list string)) (w : World)
    (p : list string) (data : string) :
  In p files -> changed_only dirs files w (set_fs (insert p (File data)) w).
Proof.
  intros Hin q. cbn [set_fs fs].
  destruct (decide (p = q)) as [<- | Hne].
  - right. right. split; [exact Hin |]. rewrite lookup_insert_eq. eauto.
  - left. now apply lookup_insert_ne.
Qed.

Section PersistEffect.

Context (session : nat -> Request -> Reply).
Context (clock : nat -> Z -> datetime).
Context (json_dumps : Json -> Z -> string).

(** What the persisting part of a job does, however it ends. *)
Lemma persist_effect (local : list string) (c b p url line : string)
    (x : list Json * nat) (w1 w' : World) (r : result (list Json * nat)) :
  (write_file local c ;;
   write_meta clock json_dumps local b p url ;;
   print Stdout line ;;
   ret x)%py w1 = (r, w') ->
  requests w' = requests w1 /\
  changed_only (Path.inits (Path.parent local))
    [local; Path.parent local // "meta.json"] w1 w' /\
  match r with
  | Ok y =>
      y = x /\ clock_reads w' = S (clock_reads w1) /\
      trace w' = trace w1 ++ [EvPrint Stdout line]
  | Raise e =>
      is_OSError e = true /\ trace w' = trace w1 /\
      clock_reads w1 <= clock_reads w' <= S (clock_reads w1)
  end.
Proof.
  intros Hrun. unfold bind at 1 in Hrun.
  destruct (write_file local c w1) as [[[]|e] w2] eqn:Hwf;
    apply write_file_outcome in Hwf as [wd [Hdirs Hwf]].
  2:{ destruct Hwf as [He ->]. inversion Hrun; subst.
      destruct Hdirs as [Hr [Hc [Ht Hq]]].
      split; [exact Hr |]. split.
      - apply only_new_dirs_changed. repeat split; assumption.
      - split; [exact He |]. split; [exact Ht | lia]. }
  destruct Hwf as [-> [Hpar Hnt]].
  assert (Hd : changed_only (Path.inits (Path.parent local))
                 [local; Path.parent local // "meta.json"] w1
                 (set_fs (insert local (File c)) wd)).
  { eapply changed_only_trans; [apply only_new_dirs_changed; exact Hdirs |].
    apply changed_only_write. now left. }
  destruct Hdirs as [Hr [Hc [Ht _]]].
  unfold bind at 1, write_meta, bind at 1, datetime_now in Hrun.
  cbn [set_fs fs requests clock_reads trace] in Hrun.
  match type of Hrun with
  | context [Path_write_text ?mp ?data ?w3] =>
      destruct (Path_write_text mp data w3) as [r3 w4] eqn:Hwm
  end.
  apply Path_write_text_effect in Hwm
    as [[-> [-> _]] | [e [-> [He ->]]]].
  - unfold bind, print, ret in Hrun. inversion Hrun; subst.
    cbn [set_fs add_event fs requests clock_reads trace].
    split; [exact Hr |]. split.
    + eapply changed_only_trans; [exact Hd |].
      intros q. cbn [set_fs add_event fs].
      destruct (decide (Path.parent local // "meta.json" = q)) as [<- | Hne].
      * right. right. split; [right; now left |].
        rewrite lookup_insert_eq. eauto.
      * left. now apply lookup_insert_ne.
    + split; [reflexivity |]. split; [now rewrite Hc | now rewrite Ht].
  - inversion Hrun; subst. cbn [requests clock_reads trace].
    split; [exact Hr |]. split.
    + eapply changed_only_trans; [exact Hd |]. now apply changed_only_same_fs.
    + split; [exact He |]. split; [exact Ht | lia].
Qed.

End PersistEffect.

Lemma run_event_failed_turns (auth : option (string * string))
    (headers : list (string * string)) (url : string) (l : list nat) :
  Forall (run_event auth headers)
    (flat_map (failed_turn (mkRequest url auth headers TIMEOUT)) l).
Proof.
  induction l as [|k l IH]; [constructor |].
  cbn [flat_map]. unfold failed_turn at 1. cbn [app].
  constructor; [now cbn |]. constructor; [exact I | exact IH].
Qed.

Lemma error_message_not_warning (retries : Z) (url : string) (status : option Z) :
  error_message retries url status <> credentials_warning.
Proof.
  unfold error_message, credentials_warning.
  destruct status as [s|]; [destruct (in_401_403 s) |];
    intros H; rewrite append_cons in H; discriminate H.
Qed.

Section RunEffects.

Context (session : nat -> Request -> Reply).
Context (clock : nat -> Z -> datetime).
Context (json_dumps : Json -> Z -> string).
Context (args : Args) (auth : option (string * string)).
Context (headers : list (string * string)) (base : string).
Context (out_root : list string).

(** What one job does, however it ends: it announces itself on the
    standard output; it sends at most [retries] requests, all to its URL,
    with the credentials, the headers and the timeout of the run; it changes
    nothing in the file system but its two files and the missing directories
    above them; it reads the clock once when it succeeds; and it raises
    nothing but an [OSError]. *)
Lemma main_job_effect (b p : string) (st : list Json * nat) (w w' : World)
    (r : result (list Json * nat)) :
  main_job session clock json_dumps args auth headers base out_root b p st w =
    (r, w') ->
  exists evs : list Event,
    trace w' = trace w ++ job_announce base out_root b p :: evs /\
    Forall (run_event auth headers) (job_announce base out_root b p :: evs) /\
    requests w' = requests w + length (gets_of evs) /\
    (Z.of_nat (length (gets_of evs)) <= Z.max 0 (retries args))%Z /\
    Forall (fun rq => req_url rq = build_target_url base b p) (gets_of evs) /\
    changed_only (Path.inits (job_dir out_root b p))
      [job_local_path out_root b p; job_meta_path out_root b p] w w' /\
    match r with
    | Ok st' => clock_reads w' + snd st = clock_reads w + snd st'
    | Raise e =>
        is_OSError e = true /\ clock_reads w <= clock_reads w' <= S (clock_reads w)
    end.
Proof.
  destruct st as [errors n]. intros Hrun.
  set (req := mkRequest (build_target_url base b p) auth headers TIMEOUT).
  destruct (fetch_url_loop_shape session (build_target_url base b p) auth headers
              (retries args) TIMEOUT (Z.to_nat (retries args - 0)) 0
              (add_event (job_announce base out_root b p) w))
    as [r0 [w1 [k [Hf [_ [Htr [Hreq [Hfs [Hclk [_ Hend]]]]]]]]]]; [cbn; lia |].
  fold req in Htr, Hend.
  cbn [add_event fs requests clock_reads trace] in Htr, Hreq, Hfs, Hclk.
  set (tail := if got_status r0 then [EvGet req] else []) in *.
  set (turns := flat_map (failed_turn req) (seq 1 k)) in *.
  assert (Hgets : gets_of (turns ++ tail) =
                  List.map (fun _ => req) (seq 1 k) ++ gets_of tail).
  { subst turns. unfold req. now rewrite gets_of_app, gets_of_failed_turns. }
  assert (Hlen : length (gets_of (turns ++ tail)) =
                 k + (if got_status r0 then 1 else 0)).
  { rewrite Hgets, length_app, length_map, length_seq. subst tail.
    now destruct (got_status r0). }
  assert (Hbound : (Z.of_nat (length (gets_of (turns ++ tail)))
                    <= Z.max 0 (retries args))%Z).
  { rewrite Hlen. destruct (got_status r0); [destruct Hend |]; cbn in *; lia. }
  assert (Hurl : Forall (fun rq => req_url rq = build_target_url base b p)
                   (gets_of (turns ++ tail))).
  { rewrite Hgets. apply Forall_app. split.
    - apply Forall_forall. intros rq Hin.
      apply list_elem_of_In, in_map_iff in Hin as [i [<- _]]. reflexivity.
    - subst tail. destruct (got_status r0); repeat constructor. }
  assert (Hev : Forall (run_event auth headers)
                  (job_announce base out_root b p :: turns ++ tail)).
  { constructor.
    - cbn. unfold credentials_warning. intros H.
      rewrite append_cons in H. discriminate H.
    - apply Forall_app. split; [apply run_event_failed_turns |].
      subst tail. destruct (got_status r0); repeat constructor. }
  assert (Hfetch : job_fetch session args auth headers base out_root b p w =
                   (Ok r0, w1)) by exact Hf.
  destruct r0 as [[[c|] status] hd].
  - rewrite (main_job_content session clock json_dumps args auth headers base
               out_root b p errors n w w1 c status hd Hfetch) in Hrun.
    apply persist_effect in Hrun as [Hreq' [Hch Hres]].
    rewrite job_local_path_parent in Hch.
    assert (Hch' : changed_only (Path.inits (job_dir out_root b p))
                     [job_local_path out_root b p; job_meta_path out_root b p]
                     w w').
    { intros q. destruct (Hch q) as [E | [[Hin [Hn Hd]] | Hfile]].
      - left. now rewrite E, Hfs.
      - right. left. rewrite <- Hfs. auto.
      - right. right. unfold job_meta_path. rewrite job_local_path_parent.
        exact Hfile. }
    destruct r as [st'|e].
    + destruct Hres as [-> [Hc' Ht']].
      exists (turns ++ tail ++ [job_saved out_root b p c]).
      split; [rewrite Ht', Htr; cbn [app]; now rewrite <- !app_assoc |].
      rewrite app_assoc.
      split.
      { rewrite app_comm_cons. apply Forall_app. split; [exact Hev |].
        repeat constructor. cbn. unfold credentials_warning. intros H.
        rewrite append_cons in H. discriminate H. }
      rewrite gets_of_app. cbn [gets_of flat_map job_saved app].
      rewrite app_nil_r.
      split; [rewrite Hreq', Hreq, Hlen; lia |].
      split; [exact Hbound |]. split; [exact Hurl |]. split; [exact Hch' |].
      cbn [snd]. lia.
    + destruct Hres as [He [Ht' Hc']].
      exists (turns ++ tail).
      split; [rewrite Ht', Htr; cbn [app]; now rewrite <- !app_assoc |].
      split; [exact Hev |].
      split; [rewrite Hreq', Hreq, Hlen; lia |].
      split; [exact Hbound |]. split; [exact Hurl |]. split; [exact Hch' |].
      split; [exact He | lia].
  - rewrite (main_job_failed session clock json_dumps args auth headers base
               out_root b p errors n w w1 status hd Hfetch) in Hrun.
    inversion Hrun; subst r w'. clear Hrun.
    exists (turns ++ tail ++
            [EvPrint Stderr (error_message (retries args)
                               (build_target_url base b p) status)]).
    cbn [add_event fs requests clock_reads trace].
    split; [rewrite Htr; cbn [app]; now rewrite <- !app_assoc |].
    rewrite app_assoc.
    split.
    { rewrite app_comm_cons. apply Forall_app. split; [exact Hev |].
      repeat constructor. cbn. apply error_message_not_warning. }
    rewrite gets_of_app. cbn [gets_of flat_map app]. rewrite app_nil_r.
    split; [rewrite Hreq, Hlen; lia |].
    split; [exact Hbound |]. split; [exact Hurl |].
    split; [now apply changed_only_same_fs |].
    cbn [snd]. lia.
Qed.

#[local] Abbreviation body :=
  (fun job : string * string =>
     main_job session clock json_dumps args auth headers base out_root
       (fst job) (snd job)).

(** What the loop over the jobs does, however it ends. *)
Lemma loop_effect (jobs : list (string * string)) :
  forall (st : list Json * nat) (w w' : World) (r : result (list Json * nat)),
    for_each jobs body st w = (r, w') ->
    exists evs : list Event,
      trace w' = trace w ++ evs /\
      Forall (run_event auth headers) evs /\
      (forall line, hd_error evs <> Some (EvPrint Stderr line)) /\
      requests w' = requests w + length (gets_of evs) /\
      (Z.of_nat (length (gets_of evs))
       <= Z.of_nat (length jobs) * Z.max 0 (retries args))%Z /\
      Forall (fun rq => exists job, In job jobs /\
                req_url rq = build_target_url base (fst job) (snd job))
        (gets_of evs) /\
      changed_only (job_dirs out_root jobs) (job_files out_root jobs) w w' /\
      match r with
      | Ok st' => clock_reads w' + snd st = clock_reads w + snd st'
      | Raise e => is_OSError e = true
      end.
Proof.
  induction jobs as [|[b p] jobs IH]; intros st w w' r Hrun.
  - cbn in Hrun. inversion Hrun; subst. exists [].
    rewrite app_nil_r. split; [reflexivity |]. split; [constructor |].
    split; [discriminate |]. split; [cbn; lia |]. split; [cbn; lia |].
    split; [constructor |]. split; [apply changed_only_refl | lia].
  - cbn [for_each fst snd] in Hrun. unfold bind in Hrun.
    destruct (main_job session clock json_dumps args auth headers base out_root
                b p st w) as [r1 w1] eqn:Hjob.
    apply main_job_effect in Hjob
      as [evs1 [Ht1 [He1 [Hr1 [Hb1 [Hu1 [Hc1 Hres1]]]]]]].
    assert (Hc1' : changed_only (job_dirs out_root ((b, p) :: jobs))
                     (job_files out_root ((b, p) :: jobs)) w w1).
    { revert Hc1. apply changed_only_incl; intros q Hq;
        cbn [job_dirs job_files flat_map fst snd]; apply in_or_app; now left. }
    assert (Hu1' : Forall (fun rq => exists job, In job ((b, p) :: jobs) /\
                      req_url rq = build_target_url base (fst job) (snd job))
                     (gets_of evs1)).
    { eapply Forall_impl; [exact Hu1 |]. intros rq Hrq.
      exists (b, p). split; [now left | exact Hrq]. }
    destruct r1 as [st1|e].
    + apply IH in Hrun as [evs2 [Ht2 [He2 [_ [Hr2 [Hb2 [Hu2 [Hc2 Hres2]]]]]]]].
      exists ((job_announce base out_root b p :: evs1) ++ evs2).
      split; [rewrite Ht2, Ht1; now rewrite <- app_assoc |].
      split; [apply Forall_app; now split |].
      split; [discriminate |].
      change (gets_of ((job_announce base out_root b p :: evs1) ++ evs2))
        with (gets_of (evs1 ++ evs2)).
      rewrite gets_of_app, length_app.
      split; [lia |]. split.
      { cbn [length]. nia. }
      split.
      { apply Forall_app. split; [exact Hu1' |].
        eapply Forall_impl; [exact Hu2 |]. intros rq [job [Hin Hrq]].
        exists job. split; [now right | exact Hrq]. }
      split.
      { apply (changed_only_trans _ _ w w1 w'); [exact Hc1' |].
        revert Hc2. apply changed_only_incl; intros q Hq;
          cbn [job_dirs job_files flat_map fst snd]; apply in_or_app; now right. }
      destruct r as [st'|e]; cbn beta iota in *; [lia | exact Hres2].
    + inversion Hrun; subst r w'. clear Hrun.
      exists (job_announce base out_root b p :: evs1).
      split; [exact Ht1 |]. split; [exact He1 |]. split; [discriminate |].
      split; [exact Hr1 |]. split.
      { change (gets_of (job_announce base out_root b p :: evs1))
          with (gets_of evs1). cbn [length]. nia. }
      split; [exact Hu1' |]. split; [exact Hc1' |]. exact (proj1 Hres1).
Qed.

End RunEffects.

(** ** What a run changes *)

Lemma is_OSError_not_exit (e : exn) :
  is_OSError e = true -> forall code, e <> SystemExit code.
Proof. intros H code ->. discriminate. Qed.

Lemma hd_error_app_not_stderr (evs : list Event) (line : string)
    (rest : list Event) :
  (forall l, hd_error evs <> Some (EvPrint Stderr l)) ->
  forall l, hd_error (evs ++ EvPrint Stdout line :: rest) <> Some (EvPrint Stderr l).
Proof. intros H l. destruct evs as [|e evs]; [discriminate | apply H]. Qed.

(** What [main] does once the credentials are chosen, however it ends. *)
Lemma main_after_credentials_effect (session : nat -> Request -> Reply)
    (clock : nat -> Z -> datetime) (json_dumps : Json -> Z -> string)
    (args : Args) (auth : option (string * string))
    (headers : list (string * string)) (w w' : World) (r : result unit) :
  main_after_credentials session clock json_dumps args auth headers w = (r, w') ->
  exists evs : list Event,
    trace w' = trace w ++ evs /\
    Forall (run_event auth headers) evs /\
    (forall line, hd_error evs <> Some (EvPrint Stderr line)) /\
    requests w' = requests w + length (gets_of evs) /\
    (Z.of_nat (length (gets_of evs))
     <= Z.of_nat (length (builds args) * length (platforms args))
        * Z.max 0 (retries args))%Z /\
    Forall (fun rq => exists job, In job (jobs_of args) /\
              req_url rq = build_target_url (PyStr.rstrip "/" (base_url args))
                             (fst job) (snd job))
      (gets_of evs) /\
    changed_only (job_dirs (Path.of_str (out args)) (jobs_of args))
      (job_files (Path.of_str (out args)) (jobs_of args)
       ++ [Path.of_str (out args) // "fetch_errors.json"]) w w' /\
    exists e : exn,
      r = Raise e /\
      match e with
      | SystemExit code =>
          (code = 0%Z /\
           changed_only (job_dirs (Path.of_str (out args)) (jobs_of args))
             (job_files (Path.of_str (out args)) (jobs_of args)) w w') \/
          (code = 2%Z /\
           exists errors : list Json,
             errors <> [] /\
             fs w' !! (Path.of_str (out args) // "fetch_errors.json") =
               Some (File (json_dumps (JArr errors) 2%Z)))
      | _ => True
      end.
Proof.
  unfold main_after_credentials, bind at 1. rewrite main_loop_flat.
  destruct (for_each _ _ _ w) as [r1 w1] eqn:Hloop.
  apply loop_effect in Hloop
    as [evs1 [Ht1 [He1 [Hh1 [Hr1 [Hb1 [Hu1 [Hc1 Hres1]]]]]]]].
  assert (Hjobs : length (jobs_of args) =
                  length (builds args) * length (platforms args))
    by apply length_prod.
  rewrite Hjobs in Hb1.
  assert (Hc1' : changed_only (job_dirs (Path.of_str (out args)) (jobs_of args))
                   (job_files (Path.of_str (out args)) (jobs_of args)
                    ++ [Path.of_str (out args) // "fetch_errors.json"]) w w1).
  { revert Hc1. apply changed_only_incl; [auto |].
    intros q Hq. apply in_or_app. now left. }
  destruct r1 as [[errors n]|e].
  2:{ intros H. inversion H; subst r w'. clear H.
      exists evs1. repeat (split; [assumption |]).
      exists e. split; [reflexivity |]. now destruct e. }
  unfold bind at 1, print at 1.
  set (summary := EvPrint Stdout _).
  assert (Hsum : run_event auth headers summary).
  { subst summary. cbn. unfold credentials_warning, newline. intros H.
    rewrite append_cons in H. discriminate H. }
  destruct (bool_decide (errors = [])) eqn:Hempty; cbn [negb].
  - intros H. inversion H; subst r w'. clear H.
    exists (evs1 ++ [summary]).
    cbn [add_event fs requests clock_reads trace].
    split; [rewrite Ht1; now rewrite <- app_assoc |].
    split; [apply Forall_app; split; [exact He1 | now constructor] |].
    split; [now apply hd_error_app_not_stderr |].
    rewrite gets_of_app. cbn [gets_of flat_map app]. rewrite app_nil_r.
    split; [exact Hr1 |]. split; [exact Hb1 |]. split; [exact Hu1 |].
    split; [intros q; apply Hc1' |].
    eexists. split; [reflexivity |]. left. split; [reflexivity |].
    intros q. apply Hc1.
  - unfold bind at 1.
    destruct (Path_write_text _ _ _) as [r3 w3] eqn:Hwt.
    apply Path_write_text_effect in Hwt as [[-> [-> _]] | [e [-> [He ->]]]].
    + intros H. inversion H; subst r w'. clear H.
      exists (evs1 ++ [summary;
                EvPrint Stderr ("Errors written to "
                  +:+ Path.to_str (Path.of_str (out args) // "fetch_errors.json"))]).
      cbn [add_event set_fs fs requests clock_reads trace].
      split; [rewrite Ht1; now rewrite <- !app_assoc |].
      split.
      { apply Forall_app. split; [exact He1 |].
        constructor; [exact Hsum |]. constructor; [| constructor].
        cbn. unfold credentials_warning. intros H.
        rewrite append_cons in H. discriminate H. }
      split; [now apply hd_error_app_not_stderr |].
      rewrite gets_of_app. cbn [gets_of flat_map app]. rewrite app_nil_r.
      split; [exact Hr1 |]. split; [exact Hb1 |]. split; [exact Hu1 |].
      split.
      { intros q. cbn [add_event set_fs fs].
        destruct (decide (Path.of_str (out args) // "fetch_errors.json" = q))
          as [<- | Hne].
        - right. right. split; [apply in_or_app; right; now left |].
          rewrite lookup_insert_eq. eauto.
        - rewrite lookup_insert_ne by exact Hne. apply Hc1'. }
      eexists. split; [reflexivity |]. right. split; [reflexivity |].
      exists errors. split; [now apply bool_decide_eq_false in Hempty |].
      apply lookup_insert_eq.
    + intros H. inversion H; subst r w'. clear H.
      exists (evs1 ++ [summary]).
      cbn [add_event fs requests clock_reads trace].
      split; [rewrite Ht1; now rewrite <- app_assoc |].
      split; [apply Forall_app; split; [exact He1 | now constructor] |].
      split; [now apply hd_error_app_not_stderr |].
      rewrite gets_of_app. cbn [gets_of flat_map app]. rewrite app_nil_r.
      split; [exact Hr1 |]. split; [exact Hb1 |]. split; [exact Hu1 |].
      split; [intros q; apply Hc1' |].
      exists e. split; [reflexivity |]. now destruct e.
Qed.

(** [main] is the rest of the run with the credentials it has chosen,
    after at most the warning. *)
Lemma main_by_credentials (session : nat -> Request -> Reply)
    (clock : nat -> Z -> datetime) (json_dumps : Json -> Z -> string)
    (args : Args) (environ : gmap string string) (w : World) :
  exists auth headers w0,
    requests w0 = requests w /\ fs w0 = fs w /\
    (trace w0 = trace w \/
     trace w0 = trace w ++ [EvPrint Stderr credentials_warning]) /\
    main session clock json_dumps args environ w =
    main_after_credentials session clock json_dumps args auth headers w0.
Proof.
  unfold main.
  match goal with
  | |- context [bind (if ?c then ?a else ?b) _] => set (warn := if c then a else b)
  end.
  assert (Hwarn : exists w0, warn w = (Ok tt, w0) /\ requests w0 = requests w /\
                    fs w0 = fs w /\
                    (trace w0 = trace w \/
                     trace w0 = trace w ++ [EvPrint Stderr credentials_warning])).
  { subst warn.
    destruct (negb (truthy (environ !! "ARTIFACTORY_TOKEN")) &&
              (negb (truthy (user args)) || negb (truthy (password args)))).
    - eexists. split; [reflexivity |]. cbn. auto.
    - exists w. cbn. auto. }
  destruct Hwarn as [w0 [Hw0 [Hreq0 [Hfs0 Htr0]]]].
  match goal with
  | |- context [main_loop _ _ _ _ ?a ?h _ _] => exists a, h, w0
  end.
  split; [exact Hreq0 |]. split; [exact Hfs0 |]. split; [exact Htr0 |].
  unfold bind at 1. rewrite Hw0. reflexivity.
Qed.


(** [main] is its loop and its end, run with the credentials that it
    chooses, from the world in which its loop starts. *)
Lemma main_from_start (session : nat -> Request -> Reply)
    (clock : nat -> Z -> datetime) (json_dumps : Json -> Z -> string)
    (args : Args) (environ : gmap string string) (w : World) :
  main session clock json_dumps args environ w =
  main_after_credentials session clock json_dumps args (main_auth args environ)
    (main_headers environ) (main_start args environ w).
Proof.
  unfold main, main_auth, main_headers, main_start, credentials_warning.
  unfold bind at 1.
  destruct (negb (truthy (environ !! "ARTIFACTORY_TOKEN")) &&
            (negb (truthy (user args)) || negb (truthy (password args))));
    reflexivity.
Qed.

Lemma main_start_fs (args : Args) (environ : gmap string string) (w : World) :
  fs (main_start args environ w) = fs w /\
  requests (main_start args environ w) = requests w.
Proof. unfold main_start. now destruct (_ && _). Qed.

Lemma run_pair {A : Type} (c : M A) (w : World) : c w = (fst (c w), snd (c w)).
Proof. now destruct (c w). Qed.

Lemma run_fst {A : Type} (c : M A) (w : World) (r : result A) :
  fst (c w) = r -> c w = (r, snd (c w)).
Proof. intros <-. apply run_pair. Qed.

(** X9. With a non-empty [ARTIFACTORY_TOKEN] in the environment,
    whatever [--user] and [--password] are: every request of the run carries
    the header [Authorization: Bearer <token>], no basic credentials and the
    timeout of the module, and the warning about missing credentials is not
    printed. *)
Theorem main_token_takes_precedence (session : nat -> Request -> Reply)
    (clock : nat -> Z -> datetime) (json_dumps : Json -> Z -> string)
    (args : Args) (environ : gmap string string) (token : string) (w : World) :
  environ !! "ARTIFACTORY_TOKEN" = Some token -> token <> "" ->
  exists evs : list Event,
    trace (snd (main session clock json_dumps args environ w)) = trace w ++ evs /\
    Forall (run_event None [("Authorization", "Bearer " +:+ token)]) evs.
Proof.
  intros Henv Hne.
  assert (Heq : main session clock json_dumps args environ w =
                main_after_credentials session clock json_dumps args None
                  [("Authorization", "Bearer " +:+ token)] w).
  { unfold main, main_after_credentials. rewrite Henv. cbn [truthy].
    apply String.eqb_neq in Hne. rewrite Hne. reflexivity. }
  rewrite Heq.
  pose proof (run_pair (main_after_credentials session clock json_dumps args None
                          [("Authorization", "Bearer " +:+ token)]) w) as Hrun.
  apply main_after_credentials_effect in Hrun as [evs [Ht [He _]]].
  eauto.
Qed.

Lemma main_token_takes_precedence_witness :
  Forall (fun rq => req_auth rq = None /\
                    req_headers rq = [("Authorization", "Bearer s3cr3t")])
    (gets_of (trace (snd (main (server_always 200 sample_body) sample_clock
                            sample_dumps sample_args_basic sample_environ_token
                            empty_world)))).
Proof.
  destruct (main_token_takes_precedence (server_always 200 sample_body)
              sample_clock sample_dumps sample_args_basic sample_environ_token
              "s3cr3t" empty_world) as [evs [Ht He]].
  - reflexivity.
  - discriminate.
  - rewrite Ht. cbn [trace empty_world app].
    clear Ht. induction He as [|e evs Hev _ IH]; [constructor |].
    destruct e as [rq|q|to line]; cbn; [| exact IH | exact IH].
    constructor; [| exact IH]. destruct Hev as [Ha [Hh _]]. now split.
Defined.

(** X10. With no token, or an empty one, and a non-empty user and
    password: every request of the run carries the pair as basic credentials
    and no extra header, and the warning is not printed. *)
Theorem main_basic_auth_without_token (session : nat -> Request -> Reply)
    (clock : nat -> Z -> datetime) (json_dumps : Json -> Z -> string)
    (args : Args) (environ : gmap string string) (u pw : string) (w : World) :
  environ !! "ARTIFACTORY_TOKEN" = None \/
  environ !! "ARTIFACTORY_TOKEN" = Some "" ->
  user args = Some u -> password args = Some pw -> u <> "" -> pw <> "" ->
  exists evs : list Event,
    trace (snd (main session clock json_dumps args environ w)) = trace w ++ evs /\
    Forall (run_event (Some (u, pw)) []) evs.
Proof.
  intros Henv Hu Hpw Hune Hpwne.
  assert (Heq : main session clock json_dumps args environ w =
                main_after_credentials session clock json_dumps args
                  (Some (u, pw)) [] w).
  { unfold main, main_after_credentials. rewrite Hu, Hpw. cbn [truthy].
    apply String.eqb_neq in Hune, Hpwne. rewrite Hune, Hpwne.
    destruct Henv as [-> | ->]; reflexivity. }
  rewrite Heq.
  pose proof (run_pair (main_after_credentials session clock json_dumps args
                          (Some (u, pw)) []) w) as Hrun.
  apply main_after_credentials_effect in Hrun as [evs [Ht [He _]]].
  eauto.
Qed.

Lemma main_basic_auth_without_token_witness :
  Forall (fun rq => req_auth rq = Some ("alice", "pw") /\ req_headers rq = [])
    (gets_of (trace (snd (main (server_always 200 sample_body) sample_clock
                            sample_dumps sample_args_basic
                            {[ "ARTIFACTORY_TOKEN" := "" ]} empty_world)))).
Proof.
  destruct (main_basic_auth_without_token (server_always 200 sample_body)
              sample_clock sample_dumps sample_args_basic
              {[ "ARTIFACTORY_TOKEN" := "" ]} "alice" "pw" empty_world)
    as [evs [Ht He]].
  - right. reflexivity.
  - reflexivity.
  - reflexivity.
  - discriminate.
  - discriminate.
  - rewrite Ht. cbn [trace empty_world app].
    clear Ht. induction He as [|e evs Hev _ IH]; [constructor |].
    destruct e as [rq|q|to line]; cbn; [| exact IH | exact IH].
    constructor; [| exact IH]. destruct Hev as [Ha [Hh _]]. now split.
Defined.

(** X11. With no token, or an empty one, and the user or the
    password missing or empty: the first thing the run does is to print the
    warning on the standard error, once; it then goes on, and every request
    is sent without credentials and without the header, even when one of the
    user and the password was given. *)
Theorem main_warns_and_goes_on_without_credentials
    (session : nat -> Request -> Reply)
    (clock : nat -> Z -> datetime) (json_dumps : Json -> Z -> string)
    (args : Args) (environ : gmap string string) (w : World) :
  environ !! "ARTIFACTORY_TOKEN" = None \/
  environ !! "ARTIFACTORY_TOKEN" = Some "" ->
  truthy (user args) = false \/ truthy (password args) = false ->
  exists evs : list Event,
    trace (snd (main session clock json_dumps args environ w)) =
      trace w ++ EvPrint Stderr credentials_warning :: evs /\
    Forall (run_event None []) evs.
Proof.
  intros Henv Hcred.
  assert (Heq : main session clock json_dumps args environ w =
                main_after_credentials session clock json_dumps args None []
                  (add_event (EvPrint Stderr credentials_warning) w)).
  { unfold main, main_after_credentials.
    assert (Htok : truthy (environ !! "ARTIFACTORY_TOKEN") = false)
      by (destruct Henv as [-> | ->]; reflexivity).
    rewrite Htok. cbn [negb andb].
    destruct Hcred as [H | H]; rewrite H; cbn [negb orb andb];
      [| rewrite orb_true_r, andb_false_r]; reflexivity. }
  rewrite Heq.
  pose proof (run_pair (main_after_credentials session clock json_dumps args
                          None [])
                (add_event (EvPrint Stderr credentials_warning) w)) as Hrun.
  apply main_after_credentials_effect in Hrun as [evs [Ht [He _]]].
  exists evs. split; [| exact He].
  rewrite Ht. cbn [add_event trace]. now rewrite <- app_assoc.
Qed.

Lemma main_warns_and_goes_on_without_credentials_witness :
  exists evs : list Event,
    trace (snd (main (server_always 200 sample_body) sample_clock sample_dumps
                  (sample_args 3) ∅ empty_world)) =
      EvPrint Stderr credentials_warning :: evs /\
    Forall (run_event None []) evs.
Proof.
  apply (main_warns_and_goes_on_without_credentials
           (server_always 200 sample_body) sample_clock sample_dumps
           (sample_args 3) ∅ empty_world).
  - left. reflexivity.
  - left. reflexivity.
Defined.

Lemma gets_of_run_events (auth : option (string * string))
    (headers : list (string * string)) (evs : list Event) :
  Forall (run_event auth headers) evs ->
  Forall (fun rq => req_auth rq = auth /\ req_headers rq = headers /\
                    req_timeout rq = TIMEOUT) (gets_of evs).
Proof.
  induction 1 as [|e evs Hev _ IH]; [constructor |].
  destruct e as [rq|q|to line]; cbn; [| exact IH | exact IH].
  now constructor.
Qed.

(** X12. However a run ends, it sends at most
    [|builds| * |platforms| * max 0 retries] requests, each with the timeout
    of the module and each to the target URL of a build and a platform of
    the command line; the request counter grows by the number of requests in
    the trace. *)
Theorem main_request_bound (session : nat -> Request -> Reply)
    (clock : nat -> Z -> datetime) (json_dumps : Json -> Z -> string)
    (args : Args) (environ : gmap string string) (w : World) :
  exists evs : list Event,
    trace (snd (main session clock json_dumps args environ w)) = trace w ++ evs /\
    requests (snd (main session clock json_dumps args environ w)) =
      requests w + length (gets_of evs) /\
    (Z.of_nat (length (gets_of evs))
     <= Z.of_nat (length (builds args) * length (platforms args))
        * Z.max 0 (retries args))%Z /\
    Forall (fun rq => req_timeout rq = TIMEOUT /\
              exists build plat,
                In build (builds args) /\ In plat (platforms args) /\
                req_url rq = build_target_url (base_url args) build plat)
      (gets_of evs).
Proof.
  destruct (main_by_credentials session clock json_dumps args environ w)
    as [auth [headers [w0 [Hreq0 [_ [Htr0 Hmain]]]]]].
  rewrite Hmain.
  pose proof (run_pair (main_after_credentials session clock json_dumps args
                          auth headers) w0) as Hrun.
  apply main_after_credentials_effect in Hrun
    as [evs [Ht [He [_ [Hr [Hb [Hu _]]]]]]].
  assert (Hall : Forall (fun rq => req_timeout rq = TIMEOUT /\
                   exists build plat,
                     In build (builds args) /\ In plat (platforms args) /\
                     req_url rq = build_target_url (base_url args) build plat)
                   (gets_of evs)).
  { apply gets_of_run_events in He.
    rewrite Forall_forall in He, Hu. apply Forall_forall. intros rq Hin.
    destruct (He rq Hin) as [_ [_ Htime]].
    destruct (Hu rq Hin) as [[b p] [Hjob Hurl]].
    split; [exact Htime |]. exists b, p.
    apply in_prod_iff in Hjob as [Hb' Hp'].
    split; [exact Hb' |]. split; [exact Hp' |].
    rewrite Hurl. unfold build_target_url. now rewrite rstrip_idempotent. }
  destruct Htr0 as [Htr0 | Htr0].
  - exists evs. rewrite Ht, Htr0, Hr, Hreq0. auto.
  - exists (EvPrint Stderr credentials_warning :: evs).
    rewrite Ht, Htr0, Hr, Hreq0, <- app_assoc. auto.
Qed.

(** X13. However a run ends, it removes no entry of the file system
    and changes none but these: it makes directories, where there was no
    entry, at the directories of its jobs and above, and it writes regular
    files at the two files of its jobs and at [fetch_errors.json]. *)
Theorem main_changes_only_its_files (session : nat -> Request -> Reply)
    (clock : nat -> Z -> datetime) (json_dumps : Json -> Z -> string)
    (args : Args) (environ : gmap string string) (w : World) :
  changed_only (job_dirs (Path.of_str (out args)) (jobs_of args))
    (job_files (Path.of_str (out args)) (jobs_of args)
     ++ [Path.of_str (out args) // "fetch_errors.json"])
    w (snd (main session clock json_dumps args environ w)).
Proof.
  destruct (main_by_credentials session clock json_dumps args environ w)
    as [auth [headers [w0 [_ [Hfs0 [_ Hmain]]]]]].
  rewrite Hmain.
  pose proof (run_pair (main_after_credentials session clock json_dumps args
                          auth headers) w0) as Hrun.
  apply main_after_credentials_effect in Hrun
    as [evs [_ [_ [_ [_ [_ [_ [Hc _]]]]]]]].
  intros q. rewrite <- Hfs0. apply Hc.
Qed.

(** X14. Once the arguments are parsed, [main] never returns
    normally: it ends with an exception. When this is [SystemExit], either
    the status is 0 and the log of the run accounts for no error, or the
    status is 2, the log accounts for at least one error and
    [fetch_errors.json] holds the serialised list of exactly these errors.
    (A run can also end with another exception, which nothing catches, such
    as one raised while a file is written.) *)
Theorem main_always_exits (session : nat -> Request -> Reply)
    (clock : nat -> Z -> datetime) (json_dumps : Json -> Z -> string)
    (args : Args) (environ : gmap string string) (w : World) :
  let r := fst (main session clock json_dumps args environ w) in
  let w' := snd (main session clock json_dumps args environ w) in
  let errors := main_errors session clock json_dumps args environ w in
  (forall v, r <> Ok v) /\
  (forall code, r = Raise (SystemExit code) ->
     exit_status r = code /\
     ((code = 0%Z /\ errors = []) \/
      (code = 2%Z /\ errors <> [] /\
       fs w' !! (Path.of_str (out args) // "fetch_errors.json") =
         Some (File (json_dumps (JArr errors) 2%Z))))).
Proof.
  intros r w' errors. subst r w' errors.
  rewrite main_from_start. unfold main_errors, main_log.
  set (auth := main_auth args environ). set (headers := main_headers environ).
  set (w0 := main_start args environ w).
  destruct (main_after_credentials session clock json_dumps args auth headers w0)
    as [r w'] eqn:Hmain.
  cbn [fst snd]. unfold main_after_credentials in Hmain.
  unfold bind at 1 in Hmain.
  destruct (main_loop session clock json_dumps args auth headers
              (PyStr.rstrip "/" (base_url args)) (Path.of_str (out args)) w0)
    as [[[errs n]|e] w1] eqn:Hloop; rewrite main_loop_flat in Hloop.
  - destruct (loop_accounts session clock json_dumps args auth headers _ _ _ _ _
                _ _ Hloop) as [_ [_ Hst]].
    cbn [fst snd] in Hst. injection Hst as He _. cbn [app] in He.
    rewrite <- He. unfold bind at 1, print at 1 in Hmain.
    destruct (bool_decide (errs = [])) eqn:Hempty; cbn [negb] in Hmain.
    + apply bool_decide_eq_true in Hempty. inversion Hmain; subst r w'.
      split; [discriminate |]. intros code [= <-]. split; [reflexivity |].
      left. now split.
    + apply bool_decide_eq_false in Hempty. unfold bind at 1 in Hmain.
      destruct (Path_write_text _ _ _) as [[[]|e] w2] eqn:Hwr;
        apply Path_write_text_effect in Hwr
          as [[Hok [Hw2 _]] | [e' [He' [Hos Hw2]]]];
        try discriminate.
      * subst w2. inversion Hmain; subst r w'.
        split; [discriminate |]. intros code [= <-].
        split; [reflexivity |]. right. split; [reflexivity |].
        split; [exact Hempty | apply lookup_insert_eq].
      * injection He' as ->. inversion Hmain; subst r w'.
        split; [discriminate |].
        intros code [= ->]. discriminate Hos.
  - apply loop_raises in Hloop as [Hos _]. inversion Hmain; subst r w'.
    split; [discriminate |].
    intros code [= ->]. discriminate Hos.
Qed.

Lemma main_always_exits_witness :
  fst (main (server_always 500 "") sample_clock sample_dumps sample_args_here ∅
         empty_world) = Raise (SystemExit 2) /\
  fs (snd (main (server_always 500 "") sample_clock sample_dumps
             sample_args_here ∅ empty_world))
    !! (Path.of_str (out sample_args_here) // "fetch_errors.json") =
  Some (File (sample_dumps
                (JArr (main_errors (server_always 500 "") sample_clock
                         sample_dumps sample_args_here ∅ empty_world)) 2%Z)).
Proof.
  assert (H : fst (main (server_always 500 "") sample_clock sample_dumps
                     sample_args_here ∅ empty_world) = Raise (SystemExit 2))
    by (vm_compute; reflexivity).
  split; [exact H |].
  pose proof (main_always_exits (server_always 500 "") sample_clock sample_dumps
                sample_args_here ∅ empty_world) as Hx.
  cbv zeta in Hx. destruct Hx as [_ Hexit].
  destruct (Hexit 2%Z H) as [_ [[Hcode _] | [_ [_ Hrep]]]];
    [discriminate Hcode | exact Hrep].
Defined.

Lemma job_files_last (out_root : list string) (jobs : list (string * string))
    (q : list string) :
  In q (job_files out_root jobs) ->
  last q = Some "latest_commits.txt" \/ last q = Some "meta.json".
Proof.
  unfold job_files. intros Hin. apply in_flat_map in Hin as [[b p] [_ Hq]].
  cbn [fst snd] in Hq. destruct Hq as [<- | [<- | []]].
  - left. rewrite job_local_path_eq. apply last_snoc.
  - right. rewrite job_meta_path_eq. apply last_snoc.
Qed.

(** X15. A run that ends with status 0 does not touch
    [fetch_errors.json]: a report left there by an earlier run is still
    there, with its old content. *)
Theorem successful_run_keeps_old_report (session : nat -> Request -> Reply)
    (clock : nat -> Z -> datetime) (json_dumps : Json -> Z -> string)
    (args : Args) (environ : gmap string string) (w : World) (old : string) :
  fst (main session clock json_dumps args environ w) = Raise (SystemExit 0) ->
  fs w !! (Path.of_str (out args) // "fetch_errors.json") = Some (File old) ->
  fs (snd (main session clock json_dumps args environ w))
    !! (Path.of_str (out args) // "fetch_errors.json") = Some (File old).
Proof.
  destruct (main_by_credentials session clock json_dumps args environ w)
    as [auth [headers [w0 [_ [Hfs0 [_ Hmain]]]]]].
  rewrite Hmain.
  pose proof (run_pair (main_after_credentials session clock json_dumps args
                          auth headers) w0) as Hrun.
  apply main_after_credentials_effect in Hrun
    as [evs [_ [_ [_ [_ [_ [_ [_ [e [He Hexit]]]]]]]]]].
  rewrite He. intros [= ->] Hold.
  destruct Hexit as [[_ Hc] | [Hcode _]]; [| discriminate].
  destruct (Hc (Path.of_str (out args) // "fetch_errors.json"))
    as [E | [[_ [Hnone _]] | [Hin _]]].
  - now rewrite E, Hfs0.
  - rewrite Hfs0, Hold in Hnone. discriminate.
  - apply job_files_last in Hin.
    rewrite joinpath_name, last_snoc in Hin by reflexivity.
    destruct Hin as [H | H]; discriminate H.
Qed.

Lemma successful_run_keeps_old_report_witness :
  fs (snd (main (server_always 200 sample_body) sample_clock sample_dumps
             (sample_args 3) ∅
             (mkWorld {[ ["data"] := Dir; ["data"; "builds"] := Dir;
                         ["data"; "builds"; "fetch_errors.json"] := File "old" ]}
                0 0 [])))
    !! ["data"; "builds"; "fetch_errors.json"] = Some (File "old").
Proof.
  apply (successful_run_keeps_old_report (server_always 200 sample_body)
           sample_clock sample_dumps (sample_args 3) ∅
           (mkWorld {[ ["data"] := Dir; ["data"; "builds"] := Dir;
                       ["data"; "builds"; "fetch_errors.json"] := File "old" ]}
              0 0 []) "old").
  - vm_compute. reflexivity.
  - vm_compute. reflexivity.
Defined.

(** X16. When the loop of the jobs runs through, the clock has been
    read exactly once for each success: a job that fails does not read
    it. *)
Theorem clock_is_read_once_per_success (session : nat -> Request -> Reply)
    (clock : nat -> Z -> datetime) (json_dumps : Json -> Z -> string)
    (args : Args) (auth : option (string * string))
    (headers : list (string * string)) (base : string) (out_root : list string)
    (w w' : World) (errors : list Json) (n : nat) :
  main_loop session clock json_dumps args auth headers base out_root w =
    (Ok (errors, n), w') ->
  clock_reads w' = clock_reads w + n.
Proof.
  rewrite main_loop_flat. intros Hrun.
  apply loop_effect in Hrun as [evs [_ [_ [_ [_ [_ [_ [_ Hclk]]]]]]]].
  cbn [snd] in Hclk. lia.
Qed.

Lemma clock_is_read_once_per_success_witness :
  clock_reads
    (snd (main_loop (server_denies_at 2 sample_body) sample_clock sample_dumps
            sample_args_2x2 None [] sample_base sample_out_root empty_world)) = 3.
Proof.
  apply (clock_is_read_once_per_success (server_denies_at 2 sample_body)
           sample_clock sample_dumps sample_args_2x2 None [] sample_base
           sample_out_root empty_world
           (snd (main_loop (server_denies_at 2 sample_body) sample_clock
                   sample_dumps sample_args_2x2 None [] sample_base
                   sample_out_root empty_world))
           [error_record 3 sample_base "3026" "windows" (Some 403%Z)] 3).
  apply run_fst. vm_compute. reflexivity.
Defined.

(** ** Jobs that fail, and jobs that are cut short *)

(** X17. A job whose fetch brings no content returns with its
    record appended and its message as the last line printed, on the
    standard error; it changes nothing in the file system and does not read
    the clock, so that the files that an earlier run left for this job stay
    as they were. *)
Theorem failed_job_writes_nothing
    (session : nat -> Request -> Reply) (clock : nat -> Z -> datetime)
    (json_dumps : Json -> Z -> string) (args : Args)
    (auth : option (string * string)) (headers : list (string * string))
    (base : string) (out_root : list string) (build plat : string)
    (errors : list Json) (n : nat) (w w1 : World)
    (status : option Z) (hd : option (list (string * string))) :
  job_fetch session args auth headers base out_root build plat w =
    (Ok (None, status, hd), w1) ->
  exists w' : World,
    main_job session clock json_dumps args auth headers base out_root build plat
      (errors, n) w =
      (Ok (errors ++ [error_record (retries args) base build plat status], n), w') /\
    fs w' = fs w /\ clock_reads w' = clock_reads w /\
    last (trace w') =
      Some (EvPrint Stderr (error_message (retries args)
                              (build_target_url base build plat) status)).
Proof.
  intros Hf.
  destruct (job_fetch_returns session args auth headers base out_root build plat w)
    as [r [w1' [evs [Hf' [_ [Hfs [Hclk _]]]]]]].
  rewrite Hf in Hf'. injection Hf' as <- <-.
  eexists. split.
  - apply (main_job_failed session clock json_dumps args auth headers base
             out_root build plat errors n w w1 status hd Hf).
  - cbn [add_event fs clock_reads trace].
    split; [exact Hfs |]. split; [exact Hclk | apply last_snoc].
Qed.

Lemma failed_job_writes_nothing_witness :
  let w := mkWorld {[ ["data"] := Dir; ["data"; "builds"] := Dir;
                      ["data"; "builds"; "3025"] := Dir;
                      ["data"; "builds"; "3025"; "windows"] := Dir;
                      ["data"; "builds"; "3025"; "windows"; "latest_commits.txt"]
                        := File "from an earlier run" ]} 0 0 [] in
  exists w' : World,
    main_job (server_always 500 "") sample_clock sample_dumps (sample_args 3)
      None [] sample_base sample_out_root "3025" "windows" ([], 0) w =
      (Ok ([error_record 3 sample_base "3025" "windows" None], 0), w') /\
    fs w' !! ["data"; "builds"; "3025"; "windows"; "latest_commits.txt"] =
      Some (File "from an earlier run").
Proof.
  intros w.
  destruct (failed_job_writes_nothing (server_always 500 "") sample_clock
              sample_dumps (sample_args 3) None [] sample_base sample_out_root
              "3025" "windows" [] 0 w
              (snd (job_fetch (server_always 500 "") (sample_args 3) None []
                      sample_base sample_out_root "3025" "windows" w))
              None None) as [w' [Hrun [Hfs _]]].
  - apply run_fst. vm_compute. reflexivity.
  - exists w'. split; [exact Hrun |]. rewrite Hfs. reflexivity.
Defined.

(** X18. [write_meta] does not make the directory it writes to:
    where the directory of the downloaded file is missing, with no regular
    file in the place of one of its ancestors, under a path of plain names
    that the file system takes, it raises [FileNotFoundError], after reading
    the clock and without touching the file system. It relies on
    [write_file], which leaves that directory in place whenever it
    returns. *)
Theorem write_meta_needs_the_directory (clock : nat -> Z -> datetime)
    (json_dumps : Json -> Z -> string) (path : list string)
    (build plat url : string) (w : World) :
  stat w (Path.parent path) = None ->
  no_file_on_the_way w (Path.parent path) = true ->
  plain_path (Path.parent path) = true ->
  String.length (Path.to_str (Path.parent path // "meta.json")) < PATH_MAX ->
  write_meta clock json_dumps path build plat url w =
    (Raise FileNotFoundError,
     mkWorld (fs w) (requests w) (S (clock_reads w)) (trace w)) /\
  (forall content w',
      write_file path content w = (Ok tt, w') ->
      stat w' (Path.parent path) = Some Dir).
Proof.
  intros Hnone _ _ _. split.
  - unfold write_meta, bind, datetime_now, Path_write_text.
    rewrite joinpath_name, parent_snoc by reflexivity.
    cbn [fs]. unfold stat in *. cbn [fs]. now rewrite Hnone.
  - intros content w' Hrun.
    apply write_file_outcome in Hrun as [w1 [_ [-> [Hpar Hnt]]]].
    rewrite stat_insert by exact Hnt.
    now rewrite decide_False by congruence.
Qed.

Lemma write_meta_needs_the_directory_witness :
  fst (write_meta sample_clock sample_dumps
         ["data"; "builds"; "3025"; "windows"; "latest_commits.txt"]
         "3025" "windows" "u" empty_world) = Raise FileNotFoundError.
Proof.
  destruct (write_meta_needs_the_directory sample_clock sample_dumps
              ["data"; "builds"; "3025"; "windows"; "latest_commits.txt"]
              "3025" "windows" "u" empty_world) as [Hrun _].
  - reflexivity.
  - reflexivity.
  - reflexivity.
  - vm_compute. lia.
  - now rewrite Hrun.
Defined.

(** X19. The two files of a job are not written together. When
    the directory of the job is there, and a directory stands where
    [meta.json] should be, the job writes the downloaded body, reads the
    clock and then raises [IsADirectoryError]: the body is on disk without
    its [meta.json], no success is counted and the line about the saved file
    is not printed. *)
Theorem job_is_cut_short_between_its_two_files
    (session : nat -> Request -> Reply) (clock : nat -> Z -> datetime)
    (json_dumps : Json -> Z -> string) (args : Args)
    (auth : option (string * string)) (headers : list (string * string))
    (base : string) (out_root : list string) (build plat : string)
    (errors : list Json) (n : nat) (w w1 : World) (c : string)
    (status : option Z) (hd : option (list (string * string))) :
  job_fetch session args auth headers base out_root build plat w =
    (Ok (Some c, status, hd), w1) ->
  stat w (job_dir out_root build plat) = Some Dir ->
  stat w (Path.parent (job_dir out_root build plat)) = Some Dir ->
  is_dir w (job_local_path out_root build plat) = false ->
  stat w (job_meta_path out_root build plat) = Some Dir ->
  exists w' : World,
    main_job session clock json_dumps args auth headers base out_root build plat
      (errors, n) w = (Raise IsADirectoryError, w') /\
    fs w' = <[job_local_path out_root build plat := File c]> (fs w) /\
    clock_reads w' = S (clock_reads w) /\
    trace w' = trace w1.
Proof.
  intros Hf Hdir Hpar Hloc Hmeta.
  destruct (job_fetch_returns session args auth headers base out_root build plat w)
    as [r [w1' [evs [Hf' [_ [Hfs [Hclk _]]]]]]].
  rewrite Hf in Hf'. injection Hf' as <- <-.
  rewrite (main_job_content session clock json_dumps args auth headers base
             out_root build plat errors n w w1 c status hd Hf).
  unfold bind at 1, write_file, bind at 1.
  rewrite job_local_path_parent.
  rewrite Path_mkdir_parents_exists by (now rewrite (stat_same_fs w1 w)).
  unfold Path_write_text at 1. rewrite job_local_path_parent.
  rewrite !(stat_same_fs w1 w _ Hfs), Hdir.
  unfold is_dir in Hloc.
  assert (Hw : match stat w (job_local_path out_root build plat) with
               | Some Dir => (Raise IsADirectoryError, w1)
               | _ => (Ok tt, set_fs (insert (job_local_path out_root build plat)
                                        (File c)) w1)
               end = (@Ok unit tt,
                      set_fs (insert (job_local_path out_root build plat) (File c))
                        w1)).
  { destruct (stat w (job_local_path out_root build plat)) as [[|s]|];
      [discriminate | reflexivity | reflexivity]. }
  rewrite Hw. clear Hw.
  unfold bind at 1, write_meta, bind at 1, datetime_now.
  cbn [set_fs fs requests clock_reads trace].
  change (Path.parent (job_local_path out_root build plat) // "meta.json")
    with (job_meta_path out_root build plat).
  assert (Hmnt : Path.parent (job_meta_path out_root build plat)
                 <> job_meta_path out_root build plat).
  { rewrite job_meta_path_eq. now apply parent_snoc_neq. }
  assert (Hmpar : Path.parent (job_meta_path out_root build plat) =
                  job_dir out_root build plat).
  { rewrite job_meta_path_eq. now apply parent_snoc. }
  assert (Hld : job_local_path out_root build plat <> job_dir out_root build plat).
  { rewrite job_local_path_eq. intros H.
    apply (f_equal (@length (string))) in H. rewrite length_app in H.
    cbn in H. lia. }
  unfold Path_write_text. rewrite Hmpar.
  set (w3 := mkWorld _ _ _ _).
  assert (Hlnt : Path.parent (job_local_path out_root build plat)
                 <> job_local_path out_root build plat).
  { rewrite job_local_path_eq. now apply parent_snoc_neq. }
  assert (Hw3 : forall q, q <> job_local_path out_root build plat ->
                  stat w3 q = stat w q).
  { intros q Hq.
    rewrite (stat_same_fs w3 (set_fs (insert (job_local_path out_root build plat)
                                        (File c)) w1)) by reflexivity.
    rewrite stat_insert by exact Hlnt.
    rewrite decide_False by congruence. now apply stat_same_fs. }
  assert (Hd3 : stat w3 (job_dir out_root build plat) = Some Dir).
  { rewrite Hw3; [exact Hdir | congruence]. }
  assert (Hm3 : stat w3 (job_meta_path out_root build plat) = Some Dir).
  { rewrite Hw3; [exact Hmeta |]. intros H. symmetry in H. revert H.
    apply job_paths_differ. }
  rewrite Hd3, Hm3.
  exists w3. subst w3. cbn [fs clock_reads trace].
  split; [reflexivity |]. split; [now rewrite Hfs |]. split; [now rewrite Hclk |].
  reflexivity.
Qed.

Lemma job_is_cut_short_between_its_two_files_witness :
  let w := mkWorld {[ ["data"] := Dir; ["data"; "builds"] := Dir;
                      ["data"; "builds"; "3025"] := Dir;
                      ["data"; "builds"; "3025"; "windows"] := Dir;
                      ["data"; "builds"; "3025"; "windows"; "meta.json"] := Dir ]}
             0 0 [] in
  exists w' : World,
    main_job (server_always 200 sample_body) sample_clock sample_dumps
      (sample_args 3) None [] sample_base sample_out_root "3025" "windows"
      ([], 0) w = (Raise IsADirectoryError, w') /\
    fs w' !! ["data"; "builds"; "3025"; "windows"; "latest_commits.txt"] =
      Some (File sample_body).
Proof.
  intros w.
  destruct (job_is_cut_short_between_its_two_files
              (server_always 200 sample_body) sample_clock sample_dumps
              (sample_args 3) None [] sample_base sample_out_root
              "3025" "windows" [] 0 w
              (snd (job_fetch (server_always 200 sample_body) (sample_args 3)
                      None [] sample_base sample_out_root "3025" "windows" w))
              sample_body (Some 200%Z) (Some []))
    as [w' [Hrun [Hfs _]]].
  - apply run_fst. vm_compute. reflexivity.
  - vm_compute. reflexivity.
  - vm_compute. reflexivity.
  - vm_compute. reflexivity.
  - vm_compute. reflexivity.
  - exists w'. split; [exact Hrun |]. rewrite Hfs. apply lookup_insert_eq.
Defined.

(** ** The files of the jobs *)

(** X20. Plain names hold no slash and are neither [.] nor [..],
    so that different paths under the output root are different files, in a
    file system that tells upper case from lower case and has no links. Two jobs with plain build and platform names
    write to the same downloaded file, or to the same [meta.json], only if
    they are the same job; and a job, however it ends, leaves the two files
    of every other job with plain names as they were. Whatever the names,
    the downloaded file of a job is never the [meta.json] of a job, and
    neither of them is [fetch_errors.json]. *)
Theorem jobs_write_to_their_own_files (session : nat -> Request -> Reply)
    (clock : nat -> Z -> datetime) (json_dumps : Json -> Z -> string)
    (args : Args) (auth : option (string * string))
    (headers : list (string * string)) (base : string) (out_root : list string)
    (b1 p1 b2 p2 : string) :
  (plain_name b1 = true -> plain_name p1 = true ->
   plain_name b2 = true -> plain_name p2 = true ->
   (job_local_path out_root b1 p1 = job_local_path out_root b2 p2 \/
    job_meta_path out_root b1 p1 = job_meta_path out_root b2 p2) ->
   b1 = b2 /\ p1 = p2) /\
  (plain_name b1 = true -> plain_name p1 = true ->
   plain_name b2 = true -> plain_name p2 = true ->
   (b1, p1) <> (b2, p2) ->
   forall (st : list Json * nat) (w w' : World) (r : result (list Json * nat)),
     main_job session clock json_dumps args auth headers base out_root b2 p2
       st w = (r, w') ->
     forall (q : list string) (s : string),
       In q [job_local_path out_root b1 p1; job_meta_path out_root b1 p1] ->
       fs w !! q = Some (File s) -> fs w' !! q = Some (File s)) /\
  job_local_path out_root b1 p1 <> job_meta_path out_root b2 p2 /\
  job_local_path out_root b1 p1 <> out_root // "fetch_errors.json" /\
  job_meta_path out_root b1 p1 <> out_root // "fetch_errors.json".
Proof.
  assert (Hinj : plain_name b1 = true -> plain_name p1 = true ->
                 plain_name b2 = true -> plain_name p2 = true ->
                 (job_local_path out_root b1 p1 = job_local_path out_root b2 p2 \/
                  job_meta_path out_root b1 p1 = job_meta_path out_root b2 p2) ->
                 b1 = b2 /\ p1 = p2).
  { intros Hb1 Hp1 Hb2 Hp2 Heq.
    rewrite !job_local_path_eq, !job_meta_path_eq in Heq.
    rewrite (job_dir_plain out_root b1 p1 Hb1 Hp1) in Heq.
    rewrite (job_dir_plain out_root b2 p2 Hb2 Hp2) in Heq.
    rewrite <- !app_assoc in Heq.
    destruct Heq as [Heq | Heq]; apply app_inv_head in Heq;
      injection Heq as -> ->; now split. }
  assert (Hlm : forall b p b' p',
             job_local_path out_root b p <> job_meta_path out_root b' p').
  { intros b p b' p'. rewrite job_local_path_eq, job_meta_path_eq. intros H.
    apply (f_equal (@last string)) in H. rewrite !last_snoc in H. discriminate H. }
  split; [exact Hinj |]. split; [| split; [apply Hlm | split]].
  - intros Hb1 Hp1 Hb2 Hp2 Hne st w w' r Hrun q s Hq Hold.
    apply main_job_effect in Hrun as [evs [_ [_ [_ [_ [_ [Hch _]]]]]]].
    destruct (Hch q) as [E | [[_ [Hnone _]] | [Hin _]]].
    + now rewrite E.
    + rewrite Hold in Hnone. discriminate.
    + exfalso. apply Hne.
      destruct Hq as [<- | [<- | []]]; destruct Hin as [Heq | [Heq | []]].
      * destruct (Hinj Hb1 Hp1 Hb2 Hp2 (or_introl (eq_sym Heq))). congruence.
      * now destruct (Hlm b1 p1 b2 p2).
      * now destruct (Hlm b2 p2 b1 p1).
      * destruct (Hinj Hb1 Hp1 Hb2 Hp2 (or_intror (eq_sym Heq))). congruence.
  - rewrite job_local_path_eq, joinpath_name by reflexivity. intros H.
    apply (f_equal (@last string)) in H. rewrite !last_snoc in H. discriminate H.
  - rewrite job_meta_path_eq, joinpath_name by reflexivity. intros H.
    apply (f_equal (@last string)) in H. rewrite !last_snoc in H. discriminate H.
Qed.

Lemma jobs_write_to_their_own_files_witness :
  plain_name "3025" = true /\ plain_name "windows" = true /\
  plain_name "linux" = true /\
  job_local_path sample_out_root "3025" "windows" <>
  job_local_path sample_out_root "3025" "linux".
Proof.
  split; [reflexivity |]. split; [reflexivity |]. split; [reflexivity |].
  intros Heq.
  destruct (jobs_write_to_their_own_files (server_always 200 sample_body)
              sample_clock sample_dumps (sample_args 3) None [] sample_base
              sample_out_root "3025" "windows" "3025" "linux") as [Hinj _].
  destruct (Hinj eq_refl eq_refl eq_refl eq_refl (or_introl Heq)) as [_ Hp].
  discriminate Hp.
Defined.

(** ** Runs against a server that refuses, and one that serves *)

Section Refusals.

Context (session : nat -> Request -> Reply).
Context (clock : nat -> Z -> datetime).
Context (json_dumps : Json -> Z -> string).
Context (args : Args) (auth : option (string * string)).
Context (headers : list (string * string)) (base : string).
Context (out_root : list string).
Hypothesis one_turn : (1 <= retries args)%Z.
Hypothesis refuses : forall i rq, exists status text hd,
    session i rq = Response status text hd /\ (status = 401%Z \/ status = 403%Z).

(** Each job costs one request and leaves one record. *)
Lemma loop_refused (jobs : list (string * string)) :
  forall (errors : list Json) (n : nat) (w : World),
    exists (errors' : list Json) (w' : World),
      for_each jobs
        (fun job => main_job session clock json_dumps args auth headers base
                      out_root (fst job) (snd job)) (errors, n) w =
        (Ok (errors ++ errors', n), w') /\
      length errors' = length jobs /\
      Forall (fun e => exists job status,
                In job jobs /\ in_401_403 status = true /\
                e = error_record (retries args) base (fst job) (snd job)
                      (Some status)) errors' /\
      requests w' = requests w + length jobs /\
      fs w' = fs w /\ clock_reads w' = clock_reads w /\
      sleeps_of (trace w') = sleeps_of (trace w).
Proof.
  induction jobs as [|[b p] jobs IH]; intros errors n w.
  - exists [], w. cbn. rewrite app_nil_r, Nat.add_0_r.
    repeat split; constructor.
  - cbn [for_each fst snd]. unfold bind.
    destruct (refuses (requests w)
                (mkRequest (build_target_url base b p) auth headers TIMEOUT))
      as [status [text [hd [Hrep Hst]]]].
    assert (Hauth : in_401_403 status = true)
      by (destruct Hst as [-> | ->]; reflexivity).
    set (w0 := add_event (job_announce base out_root b p) w).
    rewrite (main_job_failed session clock json_dumps args auth headers base
               out_root b p errors n w
               (mkWorld (fs w0) (S (requests w0)) (clock_reads w0)
                  (trace w0 ++ [EvGet (mkRequest (build_target_url base b p)
                                         auth headers TIMEOUT)]))
               (Some status) (Some hd)).
    2:{ unfold job_fetch, fetch_url.
        apply fetch_url_loop_auth with (text := text);
          [lia | exact Hrep | exact Hst]. }
    match goal with
    | |- context [for_each jobs _ (?e1, n) ?w1] =>
        destruct (IH e1 n w1)
          as [errors' [w' [Hrun [Hlen [Hall [Hreq [Hfs [Hclk Hsl]]]]]]]]
    end.
    eexists (_ :: errors'), w'. rewrite Hrun, <- app_assoc.
    split; [reflexivity |]. split; [cbn; now rewrite Hlen |]. split.
    { constructor.
      - exists (b, p), status. split; [now left |]. now split.
      - eapply Forall_impl; [exact Hall |].
        intros e [job [st [Hin Hrest]]]. exists job, st. split; [now right | exact Hrest]. }
    subst w0. cbn [add_event fs requests clock_reads trace length] in *.
    split; [lia |]. split; [exact Hfs |]. split; [exact Hclk |].
    rewrite Hsl. unfold sleeps_of. rewrite !flat_map_app. cbn.
    now rewrite !app_nil_r.
Qed.

End Refusals.

(** X21. A 401 or 403 does not stop the run. When the server
    answers every request with 401 or 403, and at least one attempt is
    allowed, the loop still goes through all the jobs: each costs exactly
    one request and no sleep, and leaves one record with its status; nothing
    is counted as a success and nothing is written. *)
Theorem auth_failure_does_not_stop_the_run
    (session : nat -> Request -> Reply) (clock : nat -> Z -> datetime)
    (json_dumps : Json -> Z -> string) (args : Args)
    (auth : option (string * string)) (headers : list (string * string))
    (base : string) (out_root : list string) (w : World) :
  (1 <= retries args)%Z ->
  (forall i rq, exists status text hd,
      session i rq = Response status text hd /\
      (status = 401%Z \/ status = 403%Z)) ->
  exists (errors : list Json) (w' : World),
    main_loop session clock json_dumps args auth headers base out_root w =
      (Ok (errors, 0), w') /\
    length errors = length (builds args) * length (platforms args) /\
    Forall (fun e => exists job status,
              In job (jobs_of args) /\ in_401_403 status = true /\
              e = error_record (retries args) base (fst job) (snd job)
                    (Some status)) errors /\
    requests w' = requests w + length (builds args) * length (platforms args) /\
    fs w' = fs w /\ sleeps_of (trace w') = sleeps_of (trace w).
Proof.
  intros Hr Href. rewrite main_loop_flat.
  destruct (loop_refused session clock json_dumps args auth headers base out_root
              Hr Href (jobs_of args) [] 0 w)
    as [errors [w' [Hrun [Hlen [Hall [Hreq [Hfs [_ Hsl]]]]]]]].
  exists errors, w'. rewrite <- (length_prod (builds args) (platforms args)).
  auto 10.
Qed.

Lemma auth_failure_does_not_stop_the_run_witness :
  exists (errors : list Json) (w' : World),
    main_loop (server_always 401 "denied") sample_clock sample_dumps
      sample_args_2x2 None [] sample_base sample_out_root empty_world =
      (Ok (errors, 0), w') /\
    length errors = 4 /\ requests w' = 4.
Proof.
  destruct (auth_failure_does_not_stop_the_run (server_always 401 "denied")
              sample_clock sample_dumps sample_args_2x2 None [] sample_base
              sample_out_root empty_world)
    as [errors [w' [Hrun [Hlen [_ [Hreq _]]]]]].
  - unfold sample_args_2x2, DEFAULT_RETRIES. cbn. lia.
  - intros i rq. exists 401%Z, "denied", []. split; [reflexivity | now left].
  - exists errors, w'. auto.
Defined.

Section Serves.

Context (session : nat -> Request -> Reply).
Context (clock : nat -> Z -> datetime).
Context (json_dumps : Json -> Z -> string).
Context (args : Args) (auth : option (string * string)).
Context (headers : list (string * string)) (base : string).
Context (out_root : list string).
Hypothesis one_turn : (1 <= retries args)%Z.
Hypothesis serves : forall i rq, exists body hd,
    session i rq = Response 200 body hd.

(** With nothing in the way of the jobs, each job costs one request and
    counts as one success. *)
Lemma loop_served (jobs : list (string * string)) :
  Forall (fun job => plain_name (fst job) = true /\ plain_name (snd job) = true)
    jobs ->
  forall (errors : list Json) (n : nat) (w : World),
    Forall (fun job => job_clear out_root w job = true) jobs ->
    exists w' : World,
      for_each jobs
        (fun job => main_job session clock json_dumps args auth headers base
                      out_root (fst job) (snd job)) (errors, n) w =
        (Ok (errors, n + length jobs), w') /\
      requests w' = requests w + length jobs.
Proof.
  induction 1 as [|[b p] jobs [Hb Hp] Hplain IH]; intros errors n w Hclear.
  - exists w. cbn. rewrite !Nat.add_0_r. auto.
  - cbn [fst snd] in Hb, Hp. apply Forall_cons_iff in Hclear as [Hjob Hrest].
    cbn [for_each fst snd]. unfold bind.
    set (w0 := add_event (job_announce base out_root b p) w).
    destruct (serves (requests w)
                (mkRequest (build_target_url base b p) auth headers TIMEOUT))
      as [body [hd Hrep]].
    assert (Hf : job_fetch session args auth headers base out_root b p w =
                 (Ok (Some body, Some 200%Z, Some hd),
                  mkWorld (fs w0) (S (requests w0)) (clock_reads w0)
                    (trace w0 ++ [EvGet (mkRequest (build_target_url base b p)
                                           auth headers TIMEOUT)]))).
    { unfold job_fetch, fetch_url.
      apply fetch_url_loop_200; [lia | exact Hrep]. }
    assert (Hpc : persist_clear w (job_local_path out_root b p) = true).
    { unfold job_clear in Hjob. cbn [fst snd] in Hjob.
      now apply andb_true_iff in Hjob as [Hjob _]. }
    destruct (main_job_persist_clear session clock json_dumps args auth headers
                base out_root b p errors n w _ body _ _ Hf Hpc)
      as [m' [Hrun _]].
    destruct (job_keeps_clear session clock json_dumps args auth headers base
                out_root b p jobs (errors, n) w Hb Hp Hjob Hplain Hrest)
      as [st1 [w1 [Hjob1 Hc1]]].
    rewrite Hrun in Hjob1. injection Hjob1 as <- <-.
    rewrite Hrun.
    match goal with
    | |- context [for_each jobs _ _ ?w1] =>
        destruct (IH errors (S n) w1 Hc1) as [w' [Hloop Hreq]]
    end.
    exists w'. rewrite Hloop.
    split.
    { replace (n + length ((b, p) :: jobs)) with (S n + length jobs)
        by (cbn [length]; lia). reflexivity. }
    rewrite Hreq. subst w0. cbn. lia.
Qed.

End Serves.

(** X22. When the session answers every request with 200 and
    ASCII text, at least one attempt is allowed, the names are plain, the
    base URL and the credentials are ASCII and nothing stands in the way of
    the jobs under an output root of plain names, the run ends with status 0
    after exactly one request for each job, and its last line is the
    summary, with every job counted as a success and no error. Files that
    are in the way of no job may be there. *)
Theorem served_run_exits_with_0
    (session : nat -> Request -> Reply) (clock : nat -> Z -> datetime)
    (json_dumps : Json -> Z -> string) (args : Args)
    (environ : gmap string string) (w : World) :
  (1 <= retries args)%Z ->
  (forall i rq, exists body hd,
      session i rq = Response 200 body hd /\ ascii_only body = true) ->
  run_encodes args environ = true ->
  jobs_clear (Path.of_str (out args)) (jobs_of args) w ->
  Forall (fun b => plain_name b = true) (builds args) ->
  Forall (fun p => plain_name p = true) (platforms args) ->
  exists w' : World,
    main session clock json_dumps args environ w = (Raise (SystemExit 0), w') /\
    main_errors session clock json_dumps args environ w = [] /\
    requests w' = requests w + length (builds args) * length (platforms args) /\
    last (trace w') =
      Some (EvPrint Stdout
              (newline +:+ "Completed. Successful files: "
               +:+ pretty (length (builds args) * length (platforms args))
               +:+ ". Errors: " +:+ pretty 0)).
Proof.
  intros Hr Hascii _ [_ Hclear] Hb Hp.
  assert (Hserves : forall i rq, exists body hd,
             session i rq = Response 200 body hd).
  { intros i rq. destruct (Hascii i rq) as [body [hd [H _]]]. eauto. }
  rewrite main_from_start. unfold main_errors, main_log.
  destruct (main_start_fs args environ w) as [Hfs0 Hreq0].
  set (w0 := main_start args environ w) in *.
  assert (Hclear0 : Forall (fun job => job_clear (Path.of_str (out args)) w0 job
                                       = true) (jobs_of args)).
  { eapply Forall_impl; [exact Hclear |]. intros job Hjob.
    rewrite <- Hjob. now apply job_clear_same_fs. }
  unfold main_after_credentials, bind at 1.
  rewrite main_loop_flat.
  destruct (loop_served session clock json_dumps args (main_auth args environ)
              (main_headers environ)
              (PyStr.rstrip "/" (base_url args)) (Path.of_str (out args))
              Hr Hserves (jobs_of args) (jobs_of_plain args Hb Hp) [] 0 w0
              Hclear0)
    as [w1 [Hrun Hreq1]].
  rewrite Hrun.
  destruct (loop_accounts session clock json_dumps args _ _ _ _ _ _ _ _ _ Hrun)
    as [_ [_ Hst]].
  cbn [fst snd] in Hst. injection Hst as He _. cbn [app] in He.
  unfold jobs_of in *. rewrite length_prod in *.
  cbn [Nat.add] in *.
  eexists. split; [reflexivity |]. split; [now rewrite <- He |].
  cbn [add_event requests trace]. split; [congruence |].
  apply last_snoc.
Qed.

Lemma served_run_exits_with_0_witness :
  jobs_clear (Path.of_str (out sample_args_2x2)) (jobs_of sample_args_2x2)
    report_world /\
  exists w' : World,
    main (server_always 200 sample_body) sample_clock sample_dumps
      sample_args_2x2 ∅ report_world = (Raise (SystemExit 0), w') /\
    requests w' = 4.
Proof.
  assert (Hclear : jobs_clear (Path.of_str (out sample_args_2x2))
                     (jobs_of sample_args_2x2) report_world)
    by (split; [reflexivity | repeat constructor]).
  split; [exact Hclear |].
  destruct (served_run_exits_with_0 (server_always 200 sample_body)
              sample_clock sample_dumps sample_args_2x2 ∅ report_world)
    as [w' [Hrun [_ [Hreq _]]]].
  - unfold sample_args_2x2, DEFAULT_RETRIES. cbn. lia.
  - intros i rq. exists sample_body, []. split; reflexivity.
  - reflexivity.
  - exact Hclear.
  - repeat constructor.
  - repeat constructor.
  - exists w'. split; [exact Hrun | exact Hreq].
Defined.

Lemma inits_prefix (p q : list string) :
  In q (Path.inits p) -> exists rest, p = q ++ rest.
Proof.
  revert q. induction p as [|c p IH]; intros q Hq; cbn [Path.inits] in Hq.
  - destruct Hq as [<- | []]. now exists [].
  - destruct Hq as [<- | Hq]; [now exists (c :: p) |].
    apply in_map_iff in Hq as [q' [<- Hq']].
    destruct (IH q' Hq') as [rest ->]. now exists rest.
Qed.

(** X23. When the output root is an existing directory, of plain
    names, no directory stands where the report goes, nothing stands in the
    way of the jobs, at most 56 attempts are allowed, the names are plain and
    no build is called [fetch_errors.json], the base URL, the credentials
    and the downloads are ASCII, and each call of the session returns a
    response or raises [RequestException]: the run gets to every job and
    ends with status 0 or 2. With 0 when its log accounts for no error;
    otherwise with 2, after writing the serialised list of the errors of its
    log to [fetch_errors.json] and printing, last, where it wrote it. The
    summary line gives the successes and the errors of the log, which add up
    to the number of jobs. *)
Theorem run_into_existing_out_dir_exits_with_0_or_2
    (session : nat -> Request -> Reply) (clock : nat -> Z -> datetime)
    (json_dumps : Json -> Z -> string) (args : Args)
    (environ : gmap string string) (w : World) :
  (retries args <= 56)%Z ->
  run_encodes args environ = true ->
  serves_ascii session ->
  jobs_clear (Path.of_str (out args)) (jobs_of args) w ->
  Forall (fun b => plain_name b = true) (builds args) ->
  Forall (fun p => plain_name p = true) (platforms args) ->
  stat w (Path.of_str (out args)) = Some Dir ->
  is_dir w (Path.of_str (out args) // "fetch_errors.json") = false ->
  ~ In "fetch_errors.json" (builds args) ->
  let log := main_log session clock json_dumps args environ w in
  let errors := main_errors session clock json_dumps args environ w in
  let n := length (List.filter reached_success log) in
  exists w' : World,
    main session clock json_dumps args environ w =
      (Raise (SystemExit (if bool_decide (errors = []) then 0 else 2)), w') /\
    List.map fst log = list_prod (builds args) (platforms args) /\
    length errors + n = length (builds args) * length (platforms args) /\
    In (EvPrint Stdout
          (newline +:+ "Completed. Successful files: " +:+ pretty n
           +:+ ". Errors: " +:+ pretty (length errors))) (trace w') /\
    (errors <> [] ->
     fs w' !! (Path.of_str (out args) // "fetch_errors.json") =
       Some (File (json_dumps (JArr errors) 2%Z)) /\
     last (trace w') =
       Some (EvPrint Stderr
               ("Errors written to "
                +:+ Path.to_str (Path.of_str (out args) // "fetch_errors.json")))).
Proof.
  intros _ _ _ [_ Hclear] Hb Hp Hout Hrep Hname log errors n.
  subst log errors n. unfold main_errors, main_log.
  rewrite main_from_start.
  destruct (main_start_fs args environ w) as [Hfs0 _].
  set (auth := main_auth args environ). set (headers := main_headers environ).
  set (w0 := main_start args environ w) in *.
  set (out_root := Path.of_str (out args)) in *.
  set (base := PyStr.rstrip "/" (base_url args)).
  assert (Hclear0 : Forall (fun job => job_clear out_root w0 job = true)
                      (jobs_of args)).
  { eapply Forall_impl; [exact Hclear |]. intros job Hjob.
    rewrite <- Hjob. now apply job_clear_same_fs. }
  destruct (loop_runs_through session clock json_dumps args auth headers base
              out_root (jobs_of args) (jobs_of_plain args Hb Hp) ([], 0) w0
              Hclear0) as [[errs k] [w1 Hrun]].
  unfold main_after_credentials, bind at 1.
  fold out_root base. rewrite main_loop_flat, Hrun.
  destruct (loop_accounts session clock json_dumps args auth headers base
              out_root (jobs_of args) _ _ _ _ Hrun) as [Hjobs [Hall Hst]].
  cbn [fst snd] in Hst. injection Hst as He Hn. cbn [Nat.add app] in He, Hn.
  rewrite <- He, <- Hn.
  assert (Hcount : length errs + k =
                   length (builds args) * length (platforms args)).
  { rewrite He, Hn, (log_counts args base _ Hall).
    rewrite <- (length_map fst (job_log _ _ _ _ _ _ _ _ _ _ _)), Hjobs.
    apply length_prod. }
  clear He Hn Hall.
  apply loop_effect in Hrun as [evs [_ [_ [_ [_ [_ [_ [Hch _]]]]]]]].
  unfold bind at 1, print at 1.
  destruct (bool_decide (errs = [])) eqn:Hempty; cbn [negb].
  { eexists. split; [reflexivity |]. split; [exact Hjobs |].
    split; [exact Hcount |]. split.
    - cbn [add_event trace]. apply in_or_app. right. now left.
    - apply bool_decide_eq_true in Hempty. congruence. }
  assert (Herr : out_root // "fetch_errors.json" = out_root ++ ["fetch_errors.json"])
    by now apply joinpath_name.
  assert (Hpar : Path.parent (out_root // "fetch_errors.json") = out_root).
  { rewrite Herr. now apply parent_snoc. }
  assert (Hplain : forall b p, In (b, p) (jobs_of args) ->
                     job_dir out_root b p = out_root ++ [b; p] /\ In b (builds args)).
  { intros b p Hjob. apply in_prod_iff in Hjob as [Hinb Hinp].
    rewrite Forall_forall in Hb, Hp. split.
    - apply job_dir_plain; [apply Hb | apply Hp]; now apply list_elem_of_In.
    - exact Hinb. }
  assert (Hout1 : stat w1 out_root = Some Dir).
  { unfold stat in *.
    destruct (bool_decide (Path.parent out_root = out_root)); [reflexivity |].
    destruct (Hch out_root) as [E | [[_ [_ Hd]] | [Hin _]]].
    - now rewrite E, Hfs0.
    - exact Hd.
    - exfalso. unfold job_files in Hin.
      apply in_flat_map in Hin as [[b p] [Hjob Hin]]. cbn [fst snd] in Hin.
      destruct (Hplain b p Hjob) as [Hd _].
      destruct Hin as [Hin | [Hin | []]];
        apply (f_equal (@length string)) in Hin;
        rewrite ?job_local_path_eq, ?job_meta_path_eq, Hd, !length_app in Hin;
        cbn in Hin; lia. }
  assert (Hrep1 : stat w1 (out_root // "fetch_errors.json") <> Some Dir).
  { rewrite stat_lookup by (rewrite Herr; now apply parent_snoc_neq).
    destruct (Hch (out_root // "fetch_errors.json"))
      as [E | [[Hin _] | [_ [s Hs]]]].
    - rewrite E, Hfs0. unfold is_dir in Hrep.
      rewrite stat_lookup in Hrep by (rewrite Herr; now apply parent_snoc_neq).
      intros H. rewrite H in Hrep. discriminate.
    - exfalso. unfold job_dirs in Hin.
      apply in_flat_map in Hin as [[b p] [Hjob Hin]]. cbn [fst snd] in Hin.
      destruct (Hplain b p Hjob) as [Hd Hinb]. rewrite Hd in Hin.
      apply inits_prefix in Hin as [rest Hrest].
      rewrite Herr, <- app_assoc in Hrest. apply app_inv_head in Hrest.
      injection Hrest as -> _. contradiction.
    - rewrite Hs. discriminate. }
  unfold bind at 1, Path_write_text. rewrite Hpar.
  rewrite !(stat_same_fs (add_event _ w1) w1) by reflexivity.
  rewrite Hout1.
  eexists. split.
  { destruct (stat w1 (out_root // "fetch_errors.json")) as [[|s]|];
      [congruence | reflexivity | reflexivity]. }
  split; [exact Hjobs |]. split; [exact Hcount |]. split.
  { cbn [add_event set_fs fs trace]. apply in_or_app. left.
    apply in_or_app. right. now left. }
  intros _. cbn [add_event set_fs fs trace].
  split; [apply lookup_insert_eq | apply last_snoc].
Qed.

Lemma run_into_existing_out_dir_exits_with_0_or_2_witness :
  fst (main (server_always 500 "") sample_clock sample_dumps sample_args_here ∅
         empty_world) = Raise (SystemExit 2) /\
  fs (snd (main (server_always 500 "") sample_clock sample_dumps
             sample_args_here ∅ empty_world))
    !! (Path.of_str (out sample_args_here) // "fetch_errors.json") =
  Some (File (sample_dumps
                (JArr [error_record 3 sample_base "3025" "windows" None]) 2%Z)).
Proof.
  pose proof (run_into_existing_out_dir_exits_with_0_or_2 (server_always 500 "")
                sample_clock sample_dumps sample_args_here ∅ empty_world) as Hx.
  cbv zeta in Hx.
  destruct Hx as [w' [Hrun [_ [_ [_ Hreport]]]]].
  - vm_compute. discriminate.
  - reflexivity.
  - intros i rq body hd H. discriminate H.
  - split; [reflexivity | repeat constructor].
  - repeat constructor.
  - repeat constructor.
  - reflexivity.
  - reflexivity.
  - cbn. intros [H | []]. discriminate H.
  - assert (He : main_errors (server_always 500 "") sample_clock sample_dumps
                   sample_args_here ∅ empty_world =
                 [error_record 3 sample_base "3025" "windows" None])
      by (vm_compute; reflexivity).
    rewrite He in Hrun, Hreport. rewrite Hrun. cbn [fst snd].
    split; [reflexivity |]. apply Hreport. discriminate.
Defined.

(** ** Sample runs *)

(** With 57 turns allowed and a server that always answers 500, the last
    delay that the loop asks for is [BACKOFF_FACTOR ^ 57] seconds, more than
    [time.sleep] takes; with 56 turns every delay is one that it takes. *)
Example sample_backoff_outgrows_sleep :
  let evs := trace (snd (fetch_url (server_always 500 "") "u" None [] 57
                           TIMEOUT empty_world)) in
  length (gets_of evs) = 57 /\
  last (sleeps_of evs) = Some (Qpower BACKOFF_FACTOR 57) /\
  forallb time_sleep_accepts (sleeps_of evs) = false /\
  forallb time_sleep_accepts
    (sleeps_of (trace (snd (fetch_url (server_always 500 "") "u" None [] 56
                              TIMEOUT empty_world)))) = true.
Proof.
  cbv zeta. split; [vm_compute; reflexivity |].
  split; [vm_compute; reflexivity |].
  split; vm_compute; reflexivity.
Qed.

(** Two builds and two platforms, the third request answered with 403: three
    successes, one error record, for build 3026 on windows, the report
    written, since the successes have made the output root, and exit
    status 2. *)
Example sample_run_accounting :
  let run := main (server_denies_at 2 sample_body) sample_clock sample_dumps
               sample_args_2x2 ∅ empty_world in
  fst (main_loop (server_denies_at 2 sample_body) sample_clock sample_dumps
         sample_args_2x2 None [] sample_base sample_out_root empty_world) =
    Ok ([error_record 3 sample_base "3026" "windows" (Some 403%Z)], 3) /\
  fst run = Raise (SystemExit 2) /\
  exit_status (fst run) = 2%Z /\
  fs (snd run) !! ["data"; "builds"; "fetch_errors.json"] =
    Some (File (sample_dumps
                  (JArr [error_record 3 sample_base "3026" "windows" (Some 403%Z)])
                  2%Z)) /\
  fs (snd run) !! ["data"; "builds"; "3025"; "linux"; "latest_commits.txt"] =
    Some (File sample_body).
Proof. vm_compute. repeat split. Qed.

(** Every job fetched: exit status 0 and no report. *)
Example sample_run_all_fetched :
  let run := main (server_always 200 sample_body) sample_clock sample_dumps
               sample_args_2x2 ∅ empty_world in
  fst run = Raise (SystemExit 0) /\
  exit_status (fst run) = 0%Z /\
  fs (snd run) !! ["data"; "builds"; "fetch_errors.json"] = None.
Proof. vm_compute. repeat split. Qed.

Example sample_timestamp :
  isoformat (mkDatetime 2026 11 3 9 7 5 0 (timezone (timedelta 5 30))) =
  "2026-11-03T09:07:05+05:30".
Proof. reflexivity. Qed.
